(** * cc: provider profiles and the live settings switch

    A shallow embedding of [utils/claude-settings.ts] and
    [utils/provider-storage.ts] (with the data model of [types.ts]).

    The asynchronous file-system code is embedded as explicit state passing
    over a [World]: the files and directories on disk, the wall clock read
    by [Date.now()], the stream of [Math.random()] draws, a plan of injected
    I/O failures, and a log of the mutating system calls that were issued.
    A computation either returns a value or throws, as a JavaScript promise
    either resolves or rejects. *)

From Stdlib Require Import ZArith String Ascii List Bool Lia.
From stdpp Require Import base option list strings pretty gmap sorting.

Local Open Scope string_scope.
Local Open Scope Z_scope.
Local Open Scope list_scope.

(** ** JSON values *)

(** The value a [JSON.parse] call yields. Objects keep their entries in
    enumeration order. Numbers are restricted to integers: the only numbers
    this program produces itself are [Date.now()] readings. *)
#[warnings="-register-all"]
Inductive json : Type :=
  | JNull
  | JBool (b : bool)
  | JNum (n : Z)
  | JStr (s : string)
  | JArr (items : list json)
  | JObj (entries : list (string * json)).

(** JavaScript truthiness of a parsed JSON value, as tested by [!value]. *)
Definition truthy (v : json) : bool :=
  match v with
  | JNull => false
  | JBool b => b
  | JNum n => negb (n =? 0)
  | JStr s => negb (String.eqb s "")
  | JArr _ | JObj _ => true
  end.

(** ** Paths *)

(** A path is its list of segments below the root; [join] and [dirname]
    are those of [node:path] on such normalised paths. *)
Definition path : Type := list string.

Definition join (dir : path) (segments : list string) : path := dir ++ segments.

Definition dirname (p : path) : path := removelast p.

(** ** The platform *)

(** What the program takes from its runtime without defining it: the two
    [JSON] built-ins and the user's home directory. [JSON_parse] answers
    [None] where [JSON.parse] throws a [SyntaxError]; [JSON_stringify v]
    stands for [JSON.stringify(v, null, 2)]. *)
Class Runtime : Type := {
  JSON_parse : string -> option json;
  JSON_stringify : json -> string;
  homedir : path
}.

(** ** The world *)

(** An injected failure of one system call: the error code it rejects
    with and, for a write, the partial contents it leaves behind (if any). *)
Record fault : Type := {
  fault_code : string;
  fault_partial : option string
}.

(** The mutating system calls, as logged. *)
Inductive syscall : Type :=
  | SysMkdir (p : path)
  | SysWriteFile (p : path) (data : string)
  | SysRename (src dst : path)
  | SysUnlink (p : path).

Record World : Type := {
  files : gmap path string;        (* regular files and their contents *)
  dirs : gset path;                (* directories (the root always exists) *)
  now : Z;                         (* what the next Date.now() returns *)
  ticks : list Z;                  (* milliseconds elapsing between readings *)
  rnd : list string;               (* Math.random().toString(36), per draw *)
  faults : list (option fault);    (* one entry per fallible system call *)
  log : list (syscall * bool)      (* mutating calls issued, with success *)
}.

(** ** Computations *)

Inductive error : Type :=
  | Error (message : string)       (* throw new Error(message) *)
  | SyntaxError                    (* JSON.parse on malformed text *)
  | SystemError (code : string)    (* a rejected node:fs call *)
  | TypeError.                     (* data outside its declared shape *)

Inductive outcome (A : Type) : Type :=
  | Return (a : A) (w : World)
  | Throw (e : error) (w : World).
Arguments Return {A} a w.
Arguments Throw {A} e w.

Definition io (A : Type) : Type := World -> outcome A.

Definition ret {A} (a : A) : io A := fun w => Return a w.

Definition throw {A} (e : error) : io A := fun w => Throw e w.

Definition bind {A B} (m : io A) (k : A -> io B) : io B :=
  fun w => match m w with
           | Return a w' => k a w'
           | Throw e w' => Throw e w'
           end.

(** [try { body } catch (error) { handler(error) }] *)
Definition try_catch {A} (body : io A) (handler : error -> io A) : io A :=
  fun w => match body w with
           | Return a w' => Return a w'
           | Throw e w' => handler e w'
           end.

Notation "x <- m ;; k" := (bind m (fun x => k))
  (at level 100, m at next level, right associativity).
Notation "m ;;; k" := (bind m (fun _ => k))
  (at level 100, right associativity).

Definition final {A} (o : outcome A) : World :=
  match o with Return _ w | Throw _ w => w end.

Definition returned {A} (o : outcome A) : option A :=
  match o with Return a _ => Some a | Throw _ _ => None end.

Definition thrown {A} (o : outcome A) : option error :=
  match o with Return _ _ => None | Throw e _ => Some e end.

(** ** World updates *)

Definition set_files (f : gmap path string) (w : World) : World :=
  {| files := f; dirs := dirs w; now := now w; ticks := ticks w;
     rnd := rnd w; faults := faults w; log := log w |}.

Definition set_dirs (d : gset path) (w : World) : World :=
  {| files := files w; dirs := d; now := now w; ticks := ticks w;
     rnd := rnd w; faults := faults w; log := log w |}.

Definition set_faults (fs : list (option fault)) (w : World) : World :=
  {| files := files w; dirs := dirs w; now := now w; ticks := ticks w;
     rnd := rnd w; faults := fs; log := log w |}.

Definition record (c : syscall) (ok : bool) (w : World) : World :=
  {| files := files w; dirs := dirs w; now := now w; ticks := ticks w;
     rnd := rnd w; faults := faults w; log := log w ++ [(c, ok)] |}.

(** The next entry of the failure plan, consumed. *)
Definition next_fault (w : World) : option fault * World :=
  match faults w with
  | [] => (None, w)
  | f :: rest => (f, set_faults rest w)
  end.

Definition is_file (w : World) (p : path) : bool :=
  bool_decide (is_Some (files w !! p)).

Definition is_dir (w : World) (p : path) : bool :=
  bool_decide (p = [] \/ p ∈ dirs w).

(** All ancestors of [p] below the root, and [p] itself. *)
Definition prefixes (p : path) : list path :=
  map (fun n => take n p) (seq 1 (length p)).

(** ** node:fs and the clock *)

(** [existsSync(p)] never throws. *)
Definition existsSync (p : path) : io bool :=
  fun w => Return (is_file w p || is_dir w p) w.

(** [await mkdir(p, { recursive: true })] *)
Definition mkdir_recursive (p : path) : io unit :=
  fun w =>
    let (f, w1) := next_fault w in
    match f with
    | Some flt => Throw (SystemError (fault_code flt)) (record (SysMkdir p) false w1)
    | None =>
        if existsb (is_file w1) (prefixes p)
        then Throw (SystemError "ENOTDIR") (record (SysMkdir p) false w1)
        else Return tt (record (SysMkdir p) true
                          (set_dirs (list_to_set (prefixes p) ∪ dirs w1) w1))
    end.

(** [await readFile(p, "utf-8")] *)
Definition readFile (p : path) : io string :=
  fun w =>
    let (f, w1) := next_fault w in
    match f with
    | Some flt => Throw (SystemError (fault_code flt)) w1
    | None =>
        match files w1 !! p with
        | Some content => Return content w1
        | None => Throw (SystemError "ENOENT") w1
        end
    end.

(** [await writeFile(p, data, "utf-8")]. An injected failure may leave a
    partial file behind. *)
Definition writeFile (p : path) (data : string) : io unit :=
  fun w =>
    let (f, w1) := next_fault w in
    match f with
    | Some flt =>
        let w2 := match fault_partial flt with
                  | Some part =>
                      if is_dir w1 (dirname p)
                      then set_files (<[p := part]> (files w1)) w1 else w1
                  | None => w1
                  end in
        Throw (SystemError (fault_code flt)) (record (SysWriteFile p data) false w2)
    | None =>
        if is_dir w1 (dirname p)
        then Return tt (record (SysWriteFile p data) true
                          (set_files (<[p := data]> (files w1)) w1))
        else Throw (SystemError "ENOENT") (record (SysWriteFile p data) false w1)
    end.

(** [await rename(src, dst)] *)
Definition rename (src dst : path) : io unit :=
  fun w =>
    let (f, w1) := next_fault w in
    match f with
    | Some flt => Throw (SystemError (fault_code flt)) (record (SysRename src dst) false w1)
    | None =>
        match files w1 !! src with
        | Some content =>
            if is_dir w1 (dirname dst)
            then Return tt (record (SysRename src dst) true
                              (set_files (<[dst := content]> (delete src (files w1))) w1))
            else Throw (SystemError "ENOENT") (record (SysRename src dst) false w1)
        | None => Throw (SystemError "ENOENT") (record (SysRename src dst) false w1)
        end
    end.

(** [await unlink(p)] *)
Definition unlink (p : path) : io unit :=
  fun w =>
    let (f, w1) := next_fault w in
    match f with
    | Some flt => Throw (SystemError (fault_code flt)) (record (SysUnlink p) false w1)
    | None =>
        match files w1 !! p with
        | Some _ => Return tt (record (SysUnlink p) true
                                 (set_files (delete p (files w1)) w1))
        | None => Throw (SystemError "ENOENT") (record (SysUnlink p) false w1)
        end
    end.

(** [Date.now()]: the current reading; the clock then advances by the
    next tick (by nothing when no tick is left). *)
Definition Date_now : io Z :=
  fun w => Return (now w)
    {| files := files w; dirs := dirs w; now := now w + hd 0 (ticks w);
       ticks := tl (ticks w); rnd := rnd w; faults := faults w; log := log w |}.

(** [Math.random().toString(36)]: the next draw, already rendered in base
    36 (["0.4fzyo82mvyr"]; ["0"] is the draw 0, used when none is left). *)
Definition Math_random_toString36 : io string :=
  fun w => Return (hd "0" (rnd w))
    {| files := files w; dirs := dirs w; now := now w; ticks := ticks w;
       rnd := tl (rnd w); faults := faults w; log := log w |}.

(** [s.slice(from, to)] for [0 <= from <= to]. *)
Definition slice (from to : nat) (s : string) : string :=
  substring from (to - from) s.

(** ** The data model of [types.ts] *)

(** [ClaudeSettings] is an open-ended JSON object that the program passes
    through without looking inside. *)
Definition ClaudeSettings : Type := json.

Inductive Category : Type := subscription | api.

Record Provider : Type := {
  id : string;
  name : string;
  settingsConfig : ClaudeSettings;
  description : option string;
  category : option Category;
  createdAt : option Z;
  icon : option string;
  iconColor : option string
}.

Record ProvidersConfig : Type := {
  providers : list Provider;
  currentProviderId : option string
}.

(** [Omit<Provider, "id" | "createdAt">], the argument of [addProvider]. *)
Record NewProvider : Type := {
  new_name : string;
  new_settingsConfig : ClaudeSettings;
  new_description : option string;
  new_category : option Category;
  new_icon : option string;
  new_iconColor : option string
}.

(** The [updates] argument of [updateProvider]: every field optional.
    Its TypeScript type admits [createdAt]. *)
Record ProviderUpdates : Type := {
  upd_name : option string;
  upd_settingsConfig : option ClaudeSettings;
  upd_description : option string;
  upd_category : option Category;
  upd_createdAt : option Z;
  upd_icon : option string;
  upd_iconColor : option string
}.

(** *** Typed records as JSON values

    [JSON.stringify] skips properties that are [undefined]; the typed
    records are considered up to the order of their own keys, while a
    [settingsConfig] is kept as it is. *)

Definition optional {A} (key : string) (enc : A -> json) (o : option A)
  : list (string * json) :=
  match o with
  | Some a => [(key, enc a)]
  | None => []
  end.

Definition Category_to_json (c : Category) : json :=
  match c with
  | subscription => JStr "subscription"
  | api => JStr "api"
  end.

Definition Provider_to_json (p : Provider) : json :=
  JObj ([("id", JStr (id p));
         ("name", JStr (name p));
         ("settingsConfig", settingsConfig p)]
        ++ optional "description" JStr (description p)
        ++ optional "category" Category_to_json (category p)
        ++ optional "createdAt" JNum (createdAt p)
        ++ optional "icon" JStr (icon p)
        ++ optional "iconColor" JStr (iconColor p)).

Definition ProvidersConfig_to_json (c : ProvidersConfig) : json :=
  JObj (("providers", JArr (map Provider_to_json (providers c)))
        :: optional "currentProviderId" JStr (currentProviderId c)).

(** *** JSON values as typed records

    TypeScript trusts [JSON.parse] to return the declared type. The typed
    code below is embedded on the values that do have it: an object with
    the declared keys only, each of its declared type. *)

Fixpoint property (key : string) (entries : list (string * json)) : option json :=
  match entries with
  | [] => None
  | (k, v) :: rest => if String.eqb key k then Some v else property key rest
  end.

Definition only_keys (keys : list string) (entries : list (string * json)) : bool :=
  forallb (fun kv => existsb (String.eqb (fst kv)) keys) entries.

Definition as_string (v : json) : option string :=
  match v with JStr s => Some s | _ => None end.

Definition as_number (v : json) : option Z :=
  match v with JNum n => Some n | _ => None end.

Definition as_Category (v : json) : option Category :=
  match v with
  | JStr s => if String.eqb s "subscription" then Some subscription
              else if String.eqb s "api" then Some api else None
  | _ => None
  end.

(** An optional property: absent, or present with the declared type. *)
Definition as_optional {A} (dec : json -> option A) (o : option json)
  : option (option A) :=
  match o with
  | None => Some None
  | Some v => match dec v with Some a => Some (Some a) | None => None end
  end.

Definition as_Provider (v : json) : option Provider :=
  match v with
  | JObj es =>
      if only_keys ["id"; "name"; "settingsConfig"; "description"; "category";
                    "createdAt"; "icon"; "iconColor"] es
      then
        i ← property "id" es ≫= as_string;
        n ← property "name" es ≫= as_string;
        sc ← property "settingsConfig" es;
        d ← as_optional as_string (property "description" es);
        c ← as_optional as_Category (property "category" es);
        t ← as_optional as_number (property "createdAt" es);
        ic ← as_optional as_string (property "icon" es);
        col ← as_optional as_string (property "iconColor" es);
        Some {| id := i; name := n; settingsConfig := sc; description := d;
                category := c; createdAt := t; icon := ic; iconColor := col |}
      else None
  | _ => None
  end.

Fixpoint as_Providers (items : list json) : option (list Provider) :=
  match items with
  | [] => Some []
  | v :: rest =>
      p ← as_Provider v;
      ps ← as_Providers rest;
      Some (p :: ps)
  end.

Definition as_ProvidersConfig (v : json) : option ProvidersConfig :=
  match v with
  | JObj es =>
      if only_keys ["providers"; "currentProviderId"] es
      then
        match property "providers" es with
        | Some (JArr items) =>
            ps ← as_Providers items;
            cur ← as_optional as_string (property "currentProviderId" es);
            Some {| providers := ps; currentProviderId := cur |}
        | _ => None
        end
      else None
  | _ => None
  end.

(** Typed code receiving a parsed value. Off the declared shape the
    source has no defined behaviour of its own (a dereference fails or
    silently misses); the embedding stops with [TypeError] there. *)
Definition typed {A} (dec : json -> option A) (v : json) : io A :=
  match dec v with
  | Some a => ret a
  | None => throw TypeError
  end.

(** *** Arrays *)

(** [items.findIndex(pred)]: the first matching index, or [-1]. *)
Fixpoint findIndex {A} (pred : A -> bool) (items : list A) : Z :=
  match items with
  | [] => -1
  | x :: rest =>
      if pred x then 0
      else let i := findIndex pred rest in if i =? -1 then -1 else i + 1
  end.

(** [items.find(pred)]. The object found is shared with the array: it is
    named by its position, and read or written through [items]. *)
Fixpoint find_ref {A} (pred : A -> bool) (items : list A) : option nat :=
  match items with
  | [] => None
  | x :: rest => if pred x then Some 0%nat else S <$> find_ref pred rest
  end.

Definition has_id (i : string) (p : Provider) : bool := String.eqb (id p) i.

Definition has_name (n : string) (p : Provider) : bool := String.eqb (name p) n.

Definition set_providers (ps : list Provider) (c : ProvidersConfig) : ProvidersConfig :=
  {| providers := ps; currentProviderId := currentProviderId c |}.

Definition set_currentProviderId (cur : option string) (c : ProvidersConfig)
  : ProvidersConfig :=
  {| providers := providers c; currentProviderId := cur |}.

Definition set_settingsConfig (s : ClaudeSettings) (p : Provider) : Provider :=
  {| id := id p; name := name p; settingsConfig := s;
     description := description p; category := category p;
     createdAt := createdAt p; icon := icon p; iconColor := iconColor p |}.

(** [a ?? b] on an optional property. *)
Definition nullish {A} (a b : option A) : option A :=
  match a with
  | Some x => Some x
  | None => b
  end.

(** [!config.currentProviderId]: unset, or the empty string. *)
Definition unset (cur : option string) : bool :=
  match cur with
  | None => true
  | Some s => String.eqb s ""
  end.

(** ** utils/claude-settings.ts: the live settings store *)

Module ClaudeSettings.
Section WithRuntime.
Context `{Runtime}.

Definition CLAUDE_SETTINGS_PATH : path :=
  join homedir [".claude"; "settings.json"].

(** Returns [null] (here [JNull]) when the file does not exist, and
    otherwise whatever [JSON.parse] makes of its contents. *)
Definition loadClaudeSettings : io json :=
  present <- existsSync CLAUDE_SETTINGS_PATH ;;
  if negb present then ret JNull
  else
    content <- readFile CLAUDE_SETTINGS_PATH ;;
    match JSON_parse content with
    | Some v => ret v
    | None => throw SyntaxError
    end.

Definition tmpName (timestamp : Z) : string :=
  ".settings.json.tmp." +:+ pretty timestamp.

Definition atomicWrite (p : path) (data : string) : io unit :=
  let dir := dirname p in
  timestamp <- Date_now ;;
  let tmpPath := join dir [tmpName timestamp] in
  try_catch
    (writeFile tmpPath data ;;;
     rename tmpPath p)
    (fun error =>
       try_catch
         (present <- existsSync tmpPath ;;
          if present then unlink tmpPath else ret tt)
         (fun _ => ret tt) ;;;
       throw error).

Definition saveClaudeSettings (settings : ClaudeSettings) : io unit :=
  let content := JSON_stringify settings in
  atomicWrite CLAUDE_SETTINGS_PATH content.

Definition writeLiveSnapshot (settingsConfig : ClaudeSettings) : io unit :=
  saveClaudeSettings settingsConfig.

Definition readLiveSettings : io json := loadClaudeSettings.

Definition getClaudeSettingsPath : path := CLAUDE_SETTINGS_PATH.

End WithRuntime.
End ClaudeSettings.

(** ** utils/provider-storage.ts: the provider store and the switch *)

Module ProviderStorage.
Import ClaudeSettings.
Section WithRuntime.
Context `{Runtime}.

Definition CONFIG_DIR : path := join homedir [".cc"].

Definition CONFIG_FILE : path := join CONFIG_DIR ["providers.json"].

Definition generateId : io string :=
  timestamp <- Date_now ;;
  r <- Math_random_toString36 ;;
  ret (pretty timestamp +:+ "-" +:+ slice 2 9 r).

Definition tmpName (timestamp : Z) : string :=
  ".providers.json.tmp." +:+ pretty timestamp.

Definition atomicWrite (p : path) (data : string) : io unit :=
  let dir := dirname p in
  timestamp <- Date_now ;;
  let tmpPath := join dir [tmpName timestamp] in
  try_catch
    (writeFile tmpPath data ;;;
     rename tmpPath p)
    (fun error =>
       try_catch
         (present <- existsSync tmpPath ;;
          if present then unlink tmpPath else ret tt)
         (fun _ => ret tt) ;;;
       throw error).

Definition ensureConfigDir : io unit :=
  present <- existsSync CONFIG_DIR ;;
  if negb present then mkdir_recursive CONFIG_DIR else ret tt.

(** The value returned is what [JSON.parse] produced; nothing checks it
    against [ProvidersConfig]. *)
Definition loadProviders : io json :=
  ensureConfigDir ;;;
  present <- existsSync CONFIG_FILE ;;
  if negb present then ret (JObj [("providers", JArr [])])
  else
    content <- readFile CONFIG_FILE ;;
    match JSON_parse content with
    | Some v => ret v
    | None => throw SyntaxError
    end.

Definition saveProviders (config : ProvidersConfig) : io unit :=
  ensureConfigDir ;;;
  let content := JSON_stringify (ProvidersConfig_to_json config) in
  atomicWrite CONFIG_FILE content.

Definition addProvider (provider : NewProvider) : io Provider :=
  parsed <- loadProviders ;;
  config <- typed as_ProvidersConfig parsed ;;
  newId <- generateId ;;
  created <- Date_now ;;
  let newProvider :=
    {| id := newId; name := new_name provider;
       settingsConfig := new_settingsConfig provider;
       description := new_description provider;
       category := new_category provider;
       createdAt := Some created;
       icon := new_icon provider; iconColor := new_iconColor provider |} in
  let config := set_providers (providers config ++ [newProvider]) config in
  saveProviders config ;;;
  ret newProvider.

Definition updateProvider (i : string) (updates : ProviderUpdates) : io bool :=
  parsed <- loadProviders ;;
  config <- typed as_ProvidersConfig parsed ;;
  let index := findIndex (has_id i) (providers config) in
  if index =? -1 then ret false
  else
    match providers config !! Z.to_nat index with
    | None => throw TypeError
    | Some existingProvider =>
        let updated :=
          {| id := id existingProvider;
             name := default (name existingProvider) (upd_name updates);
             settingsConfig :=
               default (settingsConfig existingProvider) (upd_settingsConfig updates);
             description :=
               nullish (upd_description updates) (description existingProvider);
             category := nullish (upd_category updates) (category existingProvider);
             createdAt := createdAt existingProvider;
             icon := nullish (upd_icon updates) (icon existingProvider);
             iconColor :=
               nullish (upd_iconColor updates) (iconColor existingProvider) |} in
        let config :=
          set_providers (<[Z.to_nat index := updated]> (providers config)) config in
        saveProviders config ;;;
        ret true
    end.

Definition removeProvider (i : string) : io bool :=
  parsed <- loadProviders ;;
  config <- typed as_ProvidersConfig parsed ;;
  let initialLength := length (providers config) in
  let config :=
    set_providers (List.filter (fun p => negb (has_id i p)) (providers config)) config in
  if (length (providers config) <? initialLength)%nat then
    let config :=
      if bool_decide (currentProviderId config = Some i)
      then set_currentProviderId None config
      else config in
    saveProviders config ;;;
    ret true
  else ret false.

Definition getProvider (i : string) : io (option Provider) :=
  parsed <- loadProviders ;;
  config <- typed as_ProvidersConfig parsed ;;
  ret (find_ref (has_id i) (providers config) ≫= fun r => providers config !! r).

Definition getProviderByName (n : string) : io (option Provider) :=
  parsed <- loadProviders ;;
  config <- typed as_ProvidersConfig parsed ;;
  ret (find_ref (has_name n) (providers config) ≫= fun r => providers config !! r).

Definition getCurrentProvider : io (option Provider) :=
  parsed <- loadProviders ;;
  config <- typed as_ProvidersConfig parsed ;;
  if unset (currentProviderId config) then ret None
  else
    let cur := default "" (currentProviderId config) in
    ret (find_ref (has_id cur) (providers config) ≫= fun r => providers config !! r).

(** [config] is mutated in place by the source; here the mutated
    configuration is the result. *)
Definition backfillCurrentProvider (config : ProvidersConfig) : io ProvidersConfig :=
  if unset (currentProviderId config) then ret config
  else
    let cur := default "" (currentProviderId config) in
    match find_ref (has_id cur) (providers config) with
    | None => ret config
    | Some currentProvider =>
        liveSettings <- readLiveSettings ;;
        if negb (truthy liveSettings) then ret config
        else
          ret (set_providers
                 (alter (set_settingsConfig liveSettings) currentProvider
                    (providers config))
                 config)
    end.

Definition switchProvider (i : string) : io Provider :=
  parsed <- loadProviders ;;
  config <- typed as_ProvidersConfig parsed ;;
  match find_ref (has_id i) (providers config) with
  | None => throw (Error ("Provider " +:+ i +:+ " not found"))
  | Some targetProvider =>
      config <-
        (if negb (unset (currentProviderId config))
            && negb (bool_decide (currentProviderId config = Some i))
         then backfillCurrentProvider config
         else ret config) ;;
      let config := set_currentProviderId (Some i) config in
      saveProviders config ;;;
      match providers config !! targetProvider with
      | None => throw TypeError
      | Some target =>
          writeLiveSnapshot (settingsConfig target) ;;;
          ret target
      end
  end.

Definition captureCurrentAsProvider
    (n : string) (d : option string) (c : option Category) : io (option Provider) :=
  liveSettings <- readLiveSettings ;;
  if negb (truthy liveSettings) then ret None
  else
    p <- addProvider {| new_name := n; new_description := d; new_category := c;
                        new_settingsConfig := liveSettings;
                        new_icon := None; new_iconColor := None |} ;;
    ret (Some p).

End WithRuntime.
End ProviderStorage.

(** ** tools/start.ts: what the command computes between its prompts *)

Module Start.

(** *** Objects *)

(** [object.key], read on an object. *)
Definition get_entry (key : string) (entries : list (string * json)) : option json :=
  property key entries.

(** [object.key = v]: in place when the key is there, last otherwise. *)
Fixpoint set_entry (key : string) (v : json) (entries : list (string * json))
  : list (string * json) :=
  match entries with
  | [] => [(key, v)]
  | (k, x) :: rest =>
      if String.eqb key k then (k, v) :: rest else (k, x) :: set_entry key v rest
  end.

(** [delete object.key] *)
Fixpoint delete_entry (key : string) (entries : list (string * json))
  : list (string * json) :=
  match entries with
  | [] => []
  | (k, x) :: rest =>
      if String.eqb key k then delete_entry key rest else (k, x) :: delete_entry key rest
  end.

Fixpoint indexed (i : nat) (items : list json) : list (string * json) :=
  match items with
  | [] => []
  | x :: rest => (pretty i, x) :: indexed (S i) rest
  end.

Fixpoint characters (s : string) : list json :=
  match s with
  | EmptyString => []
  | String ch rest => JStr (String ch "") :: characters rest
  end.

(** [{ ...value }]: the own enumerable properties of [value]; those of
    an array or of a string are its elements under their indices;
    [undefined], [null], numbers and booleans have none. *)
Definition spread (value : option json) : list (string * json) :=
  match value with
  | Some (JObj entries) => entries
  | Some (JArr items) => indexed 0 items
  | Some (JStr s) => indexed 0 (characters s)
  | _ => []
  end.

(** [value.key] on a value that is not [null]: only objects have
    properties that a settings key can name. *)
Definition member (key : string) (value : json) : option json :=
  match value with
  | JObj entries => get_entry key entries
  | _ => None
  end.

(** *** Adding by hand *)

Definition default_settings : json :=
  JObj [("$schema", JStr "https://json.schemastore.org/claude-code-settings.json");
        ("env", JObj [])].

(** The [settingsConfig] of [executeAdd]'s manual mode, from what
    [readLiveSettings] returned and the two answers typed in: a copy of
    the live settings (or of the default ones) in which the token and the
    endpoint are set when given and deleted when left empty. *)
Definition manual_settingsConfig (liveSettings : json) (apiKey baseUrl : string)
  : json :=
  let baseSettings := if negb (truthy liveSettings) then default_settings
                      else liveSettings in
  let env := spread (member "env" baseSettings) in
  let env :=
    if negb (String.eqb apiKey "") then set_entry "ANTHROPIC_AUTH_TOKEN" (JStr apiKey) env
    else delete_entry "ANTHROPIC_AUTH_TOKEN" env in
  let env :=
    if negb (String.eqb baseUrl "") then set_entry "ANTHROPIC_BASE_URL" (JStr baseUrl) env
    else delete_entry "ANTHROPIC_BASE_URL" env in
  JObj (set_entry "env" (JObj env) (spread (Some baseSettings))).

(** [apiKey ? "api" : "subscription"] *)
Definition manual_category (apiKey : string) : Category :=
  if negb (String.eqb apiKey "") then api else subscription.

(** *** Choosing the provider *)

(** [args.provider] resolved against the stored providers: by id first,
    by name otherwise; [None] when neither matches. *)
Definition resolve_provider (config : ProvidersConfig) (selected : string)
  : option string :=
  let found :=
    match find_ref (has_id selected) (providers config) with
    | Some r => Some r
    | None => find_ref (has_name selected) (providers config)
    end in
  match found ≫= fun r => providers config !! r with
  | Some p => Some (id p)
  | None => None
  end.

(** The comparator of the menu: the current provider first, then the
    most recently created. *)
Definition menu_order (config : ProvidersConfig) (a b : Provider) : Z :=
  if bool_decide (currentProviderId config = Some (id a)) then -1
  else if bool_decide (currentProviderId config = Some (id b)) then 1
  else default 0 (createdAt b) - default 0 (createdAt a).

(** [items.sort(compare)]. ECMAScript's sort is stable; on a comparator
    that orders distinct elements consistently, every such sort returns
    the array computed here by insertion. *)
Fixpoint insert_sorted {A} (compare : A -> A -> Z) (x : A) (sorted : list A) : list A :=
  match sorted with
  | [] => [x]
  | y :: rest =>
      if compare y x <=? 0 then y :: insert_sorted compare x rest
      else x :: y :: rest
  end.

Definition sort {A} (compare : A -> A -> Z) (items : list A) : list A :=
  fold_left (fun sorted x => insert_sorted compare x sorted) items [].

Definition sortedProviders (config : ProvidersConfig) : list Provider :=
  sort (menu_order config) (providers config).

(** *** The terminal

    The command talks to its user through kly's [select], [input],
    [confirm], [output] and [error], and starts Claude Code through
    [Bun.spawn]. The terminal holds the answers the user will give, in
    the order of the prompts of each kind, and everything shown so far.
    A prompt is taken to be answered: [select] and [input] with a string
    (the empty one when nothing is left to answer), [confirm] with a
    boolean; [output] and [error] print and return. *)

Record SelectOption : Type := {
  option_name : string;
  option_description : string;
  option_value : string
}.

(** How the child process goes: [Bun.spawn] throws, or the child runs
    and leaves an exit code ([null] when it was killed by a signal). *)
Inductive Child : Type :=
  | SpawnFails (e : error)
  | ChildExits (exitCode : option Z).

Inductive Shown : Type :=
  | ShownOutput (text : string)
  | ShownError (text : string)
  | ShownSelect (prompt : string) (options : list SelectOption)
  | ShownInput (prompt placeholder : string) (defaultValue : option string)
  | ShownConfirm (message : string) (defaultValue : bool)
  | ShownSpawn (command : list string).

Record Terminal : Type := {
  selections : list string;        (* the answers to [select] *)
  entries : list string;           (* the answers to [input] *)
  confirmations : list bool;       (* the answers to [confirm] *)
  children : list Child;           (* one per [Bun.spawn] *)
  screen : list Shown              (* prompts, messages and launches, in order *)
}.

(** What the command takes from its platform without defining it: the
    host of [new URL(value)] ([None] where the constructor throws a
    [TypeError]), the text a template literal makes of a value that is
    not a string, [String.prototype.trim], and the [message] of the
    errors the engine and node:fs raise. *)
Class Platform : Type := {
  URL_host : json -> option string;
  String_of : json -> string;
  trim : string -> string;
  engine_message : error -> string
}.

(** How a run of the command ends: it returns, an exception escapes,
    or [process.exit] stops the process. *)
Inductive ending (A : Type) : Type :=
  | Finished (a : A)
  | Raised (e : error)
  | Exited (code : Z).
Arguments Finished {A} a.
Arguments Raised {A} e.
Arguments Exited {A} code.

Definition cmd (A : Type) : Type := Terminal -> World -> ending A * Terminal * World.

Definition cret {A} (a : A) : cmd A := fun t w => (Finished a, t, w).

Definition raise {A} (e : error) : cmd A := fun t w => (Raised e, t, w).

Definition cbind {A B} (m : cmd A) (k : A -> cmd B) : cmd B :=
  fun t w =>
    match m t w with
    | (Finished a, t', w') => k a t' w'
    | (Raised e, t', w') => (Raised e, t', w')
    | (Exited code, t', w') => (Exited code, t', w')
    end.

(** [try { body } catch (err) { handler(err) }]; [process.exit] is not
    an exception. *)
Definition catch {A} (body : cmd A) (handler : error -> cmd A) : cmd A :=
  fun t w =>
    match body t w with
    | (Raised e, t', w') => handler e t' w'
    | done => done
    end.

(** [await] on a call into the two stores. *)
Definition lift {A} (m : io A) : cmd A :=
  fun t w =>
    match m w with
    | Return a w' => (Finished a, t, w')
    | Throw e w' => (Raised e, t, w')
    end.

Declare Scope cmd_scope.
Delimit Scope cmd_scope with cmd.
Notation "x <- m ;; k" := (cbind m (fun x => k))
  (at level 100, m at next level, right associativity) : cmd_scope.
Notation "m ;;; k" := (cbind m (fun _ => k))
  (at level 100, right associativity) : cmd_scope.

Definition show (s : Shown) (t : Terminal) : Terminal :=
  {| selections := selections t; entries := entries t;
     confirmations := confirmations t; children := children t;
     screen := screen t ++ [s] |}.

Definition select (prompt : string) (options : list SelectOption) : cmd string :=
  fun t w =>
    (Finished (hd "" (selections t)),
     show (ShownSelect prompt options)
       {| selections := tl (selections t); entries := entries t;
          confirmations := confirmations t; children := children t;
          screen := screen t |},
     w).

Definition input (prompt placeholder : string) (defaultValue : option string)
  : cmd string :=
  fun t w =>
    (Finished (hd "" (entries t)),
     show (ShownInput prompt placeholder defaultValue)
       {| selections := selections t; entries := tl (entries t);
          confirmations := confirmations t; children := children t;
          screen := screen t |},
     w).

Definition confirm (message : string) (defaultValue : bool) : cmd bool :=
  fun t w =>
    (Finished (hd false (confirmations t)),
     show (ShownConfirm message defaultValue)
       {| selections := selections t; entries := entries t;
          confirmations := tl (confirmations t); children := children t;
          screen := screen t |},
     w).

Definition output (text : string) : cmd unit :=
  fun t w => (Finished tt, show (ShownOutput text) t, w).

(** kly's [error]. *)
Definition error' (text : string) : cmd unit :=
  fun t w => (Finished tt, show (ShownError text) t, w).

(** [Bun.spawn(command, ...)] followed by [await proc.exited]: the exit
    code of the child. *)
Definition spawn (command : list string) : cmd (option Z) :=
  fun t w =>
    let t' := show (ShownSpawn command)
                {| selections := selections t; entries := entries t;
                   confirmations := confirmations t; children := tl (children t);
                   screen := screen t |} in
    match hd (ChildExits None) (children t) with
    | SpawnFails e => (Raised e, t', w)
    | ChildExits exitCode => (Finished exitCode, t', w)
    end.

Definition process_exit {A} (code : Z) : cmd A := fun t w => (Exited code, t, w).

Definition newline : string := String (ascii_of_nat 10) "".

Section Command.
Context `{Runtime} `{Platform}.
Import ClaudeSettings ProviderStorage.

(** [err instanceof Error ? err.message : String(err)]: everything
    thrown here is an [Error]. *)
Definition message (err : error) : string :=
  match err with
  | Error text => text
  | _ => engine_message err
  end.

(** A value inside a template literal. *)
Definition text_of (v : json) : string :=
  match v with
  | JStr s => s
  | _ => String_of v
  end.

(** [settings.env?.key]; reading [.env] off [null] throws. *)
Definition env_entry (key : string) (settings : json) : cmd (option json) :=
  match settings with
  | JNull => raise TypeError
  | _ => cret (member "env" settings ≫= member key)
  end.

(** [value] as a condition, [undefined] included. *)
Definition given (value : option json) : bool :=
  match value with
  | Some v => truthy v
  | None => false
  end.

(** [token?.startsWith(prefix)]: [undefined] (here [false]) on a missing
    or [null] token, a [TypeError] on a token that is not a string. *)
Definition startsWith (prefix : string) (token : option json) : cmd bool :=
  match token with
  | None | Some JNull => cret false
  | Some (JStr s) => cret (String.prefix prefix s)
  | Some _ => raise TypeError
  end.

(** [description || undefined] *)
Definition or_undefined (s : string) : option string :=
  if String.eqb s "" then None else Some s.

Definition Category_text (c : Category) : string :=
  match c with
  | subscription => "subscription"
  | api => "api"
  end.

Definition executeAdd : cmd unit :=
  (mode <- select "How do you want to add a provider?"
             [ {| option_value := "capture";
                  option_name := "Capture current config";
                  option_description :=
                    "Save current ~/.claude/settings.json as a provider (recommended for subscription)" |};
               {| option_value := "manual";
                  option_name := "Enter manually";
                  option_description := "Enter API key and endpoint manually" |} ] ;;
   name <- input "Provider name" "e.g., subscription, personal-api, work" None ;;
   if String.eqb name "" then error' "Provider name is required"
   else
     description <- input "Description (optional)" "e.g., My subscription account" None ;;
     if String.eqb mode "capture" then
       liveSettings <- lift readLiveSettings ;;
       if negb (truthy liveSettings) then
         error' "Could not read current Claude config from ~/.claude/settings.json"
       else
         token <- env_entry "ANTHROPIC_AUTH_TOKEN" liveSettings ;;
         hasApiKey <- startsWith "sk-ant-" token ;;
         let category := if hasApiKey then api else subscription in
         catch
           (provider <- lift (captureCurrentAsProvider name (or_undefined description)
                                (Some category)) ;;
            match provider with
            | None => error' "Failed to capture current config"
            | Some _ =>
                output ("Provider '" +:+ name +:+ "' added (captured from current config)") ;;;
                output ("  Type: " +:+ Category_text category) ;;;
                endpoint <- env_entry "ANTHROPIC_BASE_URL" liveSettings ;;
                if given endpoint
                then output ("  Endpoint: " +:+ text_of (default JNull endpoint))
                else cret tt
            end)
           (fun err => error' ("Failed to add provider: " +:+ message err))
     else
       apiKey <- input "API key (leave empty for subscription mode)" "sk-ant-xxx"
                   (Some "") ;;
       baseUrl <- input "Custom API endpoint (optional)"
                    "e.g., https://api.example.com/v1" (Some "") ;;
       baseSettings <- lift readLiveSettings ;;
       let settingsConfig := manual_settingsConfig baseSettings apiKey baseUrl in
       let category := manual_category apiKey in
       catch
         (lift (addProvider {| new_name := name;
                              new_description := or_undefined description;
                              new_category := Some category;
                              new_settingsConfig := settingsConfig;
                              new_icon := None; new_iconColor := None |}) ;;;
          let modeLabel := if negb (String.eqb apiKey "") then "API key"
                           else "subscription" in
          let endpoint := if negb (String.eqb baseUrl "") then " with custom endpoint"
                          else "" in
          output ("Provider '" +:+ name +:+ "' added (" +:+ modeLabel +:+ endpoint +:+ ")"))
         (fun err => error' ("Failed to add provider: " +:+ message err)))%cmd.

(** [await loadProviders()], received at its declared type. *)
Definition loadConfig : cmd ProvidersConfig :=
  (parsed <- lift loadProviders ;;
   lift (typed as_ProvidersConfig parsed))%cmd.

Definition category_tag (p : Provider) : string :=
  match category p with
  | Some subscription => "[subscription]"
  | _ => "[api]"
  end.

Definition currentMark (config : ProvidersConfig) (p : Provider) : string :=
  if bool_decide (currentProviderId config = Some (id p)) then " (current)" else "".

(** [found?.name || providerId] *)
Definition name_or_id (found : option Provider) (providerId : string) : string :=
  match found with
  | Some p => if String.eqb (name p) "" then providerId else name p
  | None => providerId
  end.

Definition executeRemove : cmd unit :=
  (config <- loadConfig ;;
   if (length (providers config) =? 0)%nat then output "No providers configured"
   else
     let options :=
       map (fun p => {| option_name := name p;
                        option_description := category_tag p +:+ currentMark config p;
                        option_value := id p |})
           (providers config) in
     providerId <- select "Select provider to remove" options ;;
     let found := find_ref (has_id providerId) (providers config)
                    ≫= fun r => providers config !! r in
     let providerName := name_or_id found providerId in
     confirmed <- confirm ("Remove provider '" +:+ providerName +:+ "'?") false ;;
     if negb confirmed then output "Cancelled"
     else
       success <- lift (removeProvider providerId) ;;
       if success : bool then output ("Provider '" +:+ providerName +:+ "' removed")
       else error' ("Provider '" +:+ providerName +:+ "' not found"))%cmd.

Definition ADD_OPTION : string := "__add__".

Definition REMOVE_OPTION : string := "__remove__".

(** One line of the menu; the endpoint's host is shown when the
    provider's settings have an endpoint. *)
Definition providerOption (config : ProvidersConfig) (p : Provider) : cmd SelectOption :=
  (url <- env_entry "ANTHROPIC_BASE_URL" (settingsConfig p) ;;
   endpoint <- (if given url
                then match URL_host (default JNull url) with
                     | Some host => cret (" @ " +:+ host)
                     | None => raise TypeError
                     end
                else cret "") ;;
   let desc := default "" (description p) in
   cret {| option_name := name p;
           option_description :=
             trim (desc +:+ " " +:+ category_tag p +:+ endpoint +:+ currentMark config p);
           option_value := id p |})%cmd.

(** [items.map(f)] for an [f] that may throw. *)
Fixpoint map_cmd {A B} (f : A -> cmd B) (items : list A) : cmd (list B) :=
  match items with
  | [] => cret []
  | x :: rest => (y <- f x ;; ys <- map_cmd f rest ;; cret (y :: ys))%cmd
  end.

(** The switch and the launch, once a stored provider is chosen. The
    first [try] reports the switch and goes on; its [catch] reports the
    failure and returns from [execute], which [switched] records. *)
Definition switch_and_launch (provider : Provider) : cmd unit :=
  (switched <-
     catch
       (lift (switchProvider (id provider)) ;;;
        let category := match category provider with
                        | Some subscription => "subscription"
                        | _ => "API key"
                        end in
        url <- env_entry "ANTHROPIC_BASE_URL" (settingsConfig provider) ;;
        let endpoint := if given url
                        then " (" +:+ text_of (default JNull url) +:+ ")" else "" in
        output ("Switched to provider: " +:+ name provider
                +:+ " [" +:+ category +:+ endpoint +:+ "]") ;;;
        cret true)
       (fun err =>
          error' ("Failed to switch provider: " +:+ message err) ;;;
          cret false) ;;
   if negb switched then cret tt
   else
     output (newline +:+ "Launching Claude Code..." +:+ newline) ;;;
     catch
       (exitCode <- spawn ["sh"; "-c"; "exec claude"] ;;
        let code := default 0 exitCode in
        process_exit code)
       (fun err =>
          error' ("Failed to launch Claude Code: " +:+ message err) ;;;
          output "You can manually run: claude" ;;;
          process_exit 1))%cmd.

(** The menu of [startTool.execute]: the providers, then the two
    actions. *)
Definition menu (config : ProvidersConfig) : cmd string :=
  (providerOptions <- map_cmd (providerOption config) (sortedProviders config) ;;
   select "Select a provider"
     (providerOptions
      ++ [ {| option_name := "➕ Add provider";
              option_description := "Add a new provider";
              option_value := ADD_OPTION |};
           {| option_name := "➖ Remove provider";
              option_description := "Remove an existing provider";
              option_value := REMOVE_OPTION |} ]))%cmd.

(** [startTool.execute] from [if (!selectedProviderId)] on, for the
    [selectedProviderId] reached there ([undefined] being as good as the
    empty string). *)
Definition proceed (config : ProvidersConfig) (selectedProviderId : string) : cmd unit :=
  (selectedProviderId <-
     (if String.eqb selectedProviderId "" then menu config
      else cret selectedProviderId) ;;
   if String.eqb selectedProviderId ADD_OPTION then executeAdd
   else if String.eqb selectedProviderId REMOVE_OPTION then executeRemove
   else
     match find_ref (has_id selectedProviderId) (providers config)
             ≫= fun r => providers config !! r with
     | None => error' "Provider not found"
     | Some provider => switch_and_launch provider
     end)%cmd.

(** [startTool.execute(args)], [provider] being [args.provider]. *)
Definition execute (provider : option string) : cmd unit :=
  (config <- loadConfig ;;
   if (length (providers config) =? 0)%nat then
     output ("No providers configured. Let's add one." +:+ newline) ;;;
     executeAdd
   else
     let selectedProviderId := default "" provider in
     if negb (String.eqb selectedProviderId "") then
       match resolve_provider config selectedProviderId with
       | Some found_id => proceed config found_id
       | None => error' ("Provider '" +:+ selectedProviderId +:+ "' not found")
       end
     else proceed config selectedProviderId)%cmd.

End Command.

End Start.

(** ** A concrete runtime

    A printer in the layout of [JSON.stringify(v, null, 2)] and a reader
    for the JSON texts over this file's [json] (no fractions, exponents or
    [\u] escapes). It instantiates [Runtime] wherever the results below
    are run on concrete worlds; the results themselves hold for every
    runtime. *)

Module SampleRuntime.

Definition newline : string := String (ascii_of_nat 10) "".

Definition dquote : ascii := ascii_of_nat 34.

Definition backslash : ascii := ascii_of_nat 92.

Fixpoint quote_chars (s : string) : string :=
  match s with
  | EmptyString => ""
  | String c rest =>
      (if Ascii.eqb c dquote then String backslash (String dquote "")
       else if Ascii.eqb c backslash then String backslash (String backslash "")
       else if Ascii.eqb c (ascii_of_nat 10) then String backslash "n"
       else String c "") +:+ quote_chars rest
  end.

Definition quote (s : string) : string :=
  String dquote (quote_chars s +:+ String dquote "").

Fixpoint lines (sep : string) (parts : list string) : string :=
  match parts with
  | [] => ""
  | [x] => x
  | x :: rest => x +:+ sep +:+ lines sep rest
  end.

Fixpoint stringify_at (indent : string) (v : json) : string :=
  let inner := indent +:+ "  " in
  match v with
  | JNull => "null"
  | JBool true => "true"
  | JBool false => "false"
  | JNum n => pretty n
  | JStr s => quote s
  | JArr [] => "[]"
  | JArr items =>
      "[" +:+ newline
      +:+ lines ("," +:+ newline)
            (map (fun x => inner +:+ stringify_at inner x) items)
      +:+ newline +:+ indent +:+ "]"
  | JObj [] => "{}"
  | JObj entries =>
      "{" +:+ newline
      +:+ lines ("," +:+ newline)
            (map (fun kv => match kv with
                            | (k, x) => inner +:+ quote k +:+ ": " +:+ stringify_at inner x
                            end) entries)
      +:+ newline +:+ indent +:+ "}"
  end.

Definition stringify (v : json) : string := stringify_at "" v.

Definition is_space (c : ascii) : bool :=
  let n := nat_of_ascii c in
  (n =? 32)%nat || (n =? 10)%nat || (n =? 13)%nat || (n =? 9)%nat.

Fixpoint skip_space (s : string) : string :=
  match s with
  | String c rest => if is_space c then skip_space rest else s
  | EmptyString => s
  end.

Definition digit (c : ascii) : option Z :=
  let n := nat_of_ascii c in
  if ((48 <=? n) && (n <=? 57))%nat then Some (Z.of_nat n - 48) else None.

Fixpoint read_digits (acc : Z) (s : string) : Z * string :=
  match s with
  | String c rest =>
      match digit c with
      | Some d => read_digits (10 * acc + d) rest
      | None => (acc, s)
      end
  | EmptyString => (acc, s)
  end.

Definition read_number (s : string) : option (Z * string) :=
  let (negative, s1) :=
    match s with
    | String "-" rest => (true, rest)
    | _ => (false, s)
    end in
  match s1 with
  | String c _ =>
      match digit c with
      | Some _ =>
          let (n, rest) := read_digits 0 s1 in
          Some (if negative then - n else n, rest)
      | None => None
      end
  | EmptyString => None
  end.

Definition unescape (e : ascii) : option ascii :=
  if Ascii.eqb e "n"%char then Some (ascii_of_nat 10)
  else if Ascii.eqb e dquote then Some dquote
  else if Ascii.eqb e backslash then Some backslash
  else if Ascii.eqb e "/"%char then Some "/"%char
  else None.

(** The characters of a string literal, after its opening quote;
    [escaped] says that the previous character was a backslash. *)
Fixpoint read_chars (escaped : bool) (s : string) : option (string * string) :=
  match s with
  | EmptyString => None
  | String c rest =>
      if escaped then
        match unescape c, read_chars false rest with
        | Some c', Some (body, rest') => Some (String c' body, rest')
        | _, _ => None
        end
      else if Ascii.eqb c dquote then Some ("", rest)
      else if Ascii.eqb c backslash then read_chars true rest
      else
        match read_chars false rest with
        | Some (body, rest') => Some (String c body, rest')
        | None => None
        end
  end.

Definition read_word (word : string) (v : json) (s : string) : option (json * string) :=
  if String.prefix word s
  then Some (v, substring (String.length word) (String.length s) s)
  else None.

Fixpoint read_value (fuel : nat) (s : string) : option (json * string) :=
  match fuel with
  | O => None
  | S fuel =>
      match skip_space s with
      | String "n" _ as t => read_word "null" JNull t
      | String "t" _ as t => read_word "true" (JBool true) t
      | String "f" _ as t => read_word "false" (JBool false) t
      | String (Ascii false true false false false true false false) rest =>
          match read_chars false rest with
          | Some (body, rest') => Some (JStr body, rest')
          | None => None
          end
      | String "[" rest =>
          match skip_space rest with
          | String "]" rest' => Some (JArr [], rest')
          | _ =>
              match read_items fuel rest with
              | Some (items, rest') => Some (JArr items, rest')
              | None => None
              end
          end
      | String "{" rest =>
          match skip_space rest with
          | String "}" rest' => Some (JObj [], rest')
          | _ =>
              match read_entries fuel rest with
              | Some (entries, rest') => Some (JObj entries, rest')
              | None => None
              end
          end
      | t =>
          match read_number t with
          | Some (n, rest) => Some (JNum n, rest)
          | None => None
          end
      end
  end
with read_items (fuel : nat) (s : string) : option (list json * string) :=
  match fuel with
  | O => None
  | S fuel =>
      match read_value fuel s with
      | Some (v, rest) =>
          match skip_space rest with
          | String "," rest' =>
              match read_items fuel rest' with
              | Some (items, rest'') => Some (v :: items, rest'')
              | None => None
              end
          | String "]" rest' => Some ([v], rest')
          | _ => None
          end
      | None => None
      end
  end
with read_entries (fuel : nat) (s : string)
  : option (list (string * json) * string) :=
  match fuel with
  | O => None
  | S fuel =>
      match skip_space s with
      | String (Ascii false true false false false true false false) rest =>
          match read_chars false rest with
          | Some (key, rest1) =>
              match skip_space rest1 with
              | String ":" rest2 =>
                  match read_value fuel rest2 with
                  | Some (v, rest3) =>
                      match skip_space rest3 with
                      | String "," rest4 =>
                          match read_entries fuel rest4 with
                          | Some (entries, rest5) => Some ((key, v) :: entries, rest5)
                          | None => None
                          end
                      | String "}" rest4 => Some ([(key, v)], rest4)
                      | _ => None
                      end
                  | None => None
                  end
              | _ => None
              end
          | None => None
          end
      | _ => None
      end
  end.

Definition parse (s : string) : option json :=
  match read_value (S (String.length s)) s with
  | Some (v, rest) =>
      match skip_space rest with
      | EmptyString => Some v
      | _ => None
      end
  | None => None
  end.

Definition runtime : Runtime :=
  {| JSON_parse := parse; JSON_stringify := stringify; homedir := ["home"; "user"] |}.

End SampleRuntime.

(** ** Vocabulary of the statements *)


(** No character of [s] is a dash. *)
Fixpoint dash_free (s : string) : Prop :=
  match s with
  | EmptyString => True
  | String c rest => c <> "-"%char /\ dash_free rest
  end.

Section Vocabulary.
Context `{Runtime}.
Import ClaudeSettings ProviderStorage.

(** No system call of the run is made to fail. *)
Definition calm (w : World) : Prop := faults w = [].

(** Nothing, neither a file nor a directory, is at [p]. *)
Definition absent (w : World) (p : path) : Prop :=
  files w !! p = None /\ is_dir w p = false.

(** The file at [p] holds a text that parses to [v]. *)
Definition holds (w : World) (p : path) (v : json) : Prop :=
  exists content, files w !! p = Some content /\ JSON_parse content = Some v.

(** The provider store exists on disk and holds the configuration [c]. *)
Definition stored (w : World) (c : ProvidersConfig) : Prop :=
  is_dir w CONFIG_DIR = true /\
  exists v, holds w CONFIG_FILE v /\ as_ProvidersConfig v = Some c.

(** The runtime reads back [v] from the text it prints for [v]. *)
Definition reads_back (v : json) : Prop :=
  JSON_parse (JSON_stringify v) = Some v.

(** The temporary paths the two stores pick at clock reading [t]. *)
Definition providers_tmp (t : Z) : path :=
  join (dirname CONFIG_FILE) [ProviderStorage.tmpName t].

Definition settings_tmp (t : Z) : path :=
  join (dirname CLAUDE_SETTINGS_PATH) [ClaudeSettings.tmpName t].

(** The world once [data] has been written to [tmp] and [tmp] renamed
    onto [p], the clock having been read once. *)
Definition replaced (tmp p : path) (data : string) (w : World) : World :=
  {| files := <[p := data]> (delete tmp (<[tmp := data]> (files w)));
     dirs := dirs w;
     now := now w + hd 0 (ticks w);
     ticks := tl (ticks w);
     rnd := rnd w;
     faults := faults w;
     log := log w ++ [(SysWriteFile tmp data, true); (SysRename tmp p, true)] |}.

(** The clean-up after a failed atomic write through [tmp], from the
    world [w1] in which the step failed to the world [w'] left behind: if
    something exists at [tmp], the last call issued is an [unlink] of
    [tmp], and [tmp] is gone when that call succeeded; if nothing exists
    there, nothing more was done. *)
Definition cleaned_up (tmp : path) (w1 w' : World) : Prop :=
  if is_file w1 tmp || is_dir w1 tmp
  then exists ok, log w' = log w1 ++ [(SysUnlink tmp, ok)] /\
                  (ok = true -> files w' !! tmp = None)
  else w' = w1.

(** The computation [m] leaves what is at path [q] as it found it,
    whether it returns or throws. *)
Definition keeps {A} (q : path) (m : io A) : Prop :=
  forall w, files (final (m w)) !! q = files w !! q.

(** A field after an update: the given value when one is given, the
    old value otherwise. *)
Definition field_after {A} (given : option A) (old new : A) : Prop :=
  match given with
  | Some x => new = x
  | None => new = old
  end.

Definition optional_field_after {A} (given : option A) (old new : option A) : Prop :=
  match given with
  | Some x => new = Some x
  | None => new = old
  end.

(** The record [addProvider] builds from its argument, the generated id
    and the creation time. *)
Definition created (n : NewProvider) (newId : string) (t : Z) : Provider :=
  {| id := newId; name := new_name n; settingsConfig := new_settingsConfig n;
     description := new_description n; category := new_category n;
     createdAt := Some t; icon := new_icon n; iconColor := new_iconColor n |}.

(** [old] is the first provider of [c] with id [i], at position [k]. *)
Definition first_with_id (c : ProvidersConfig) (i : string) (k : nat) (old : Provider)
  : Prop :=
  providers c !! k = Some old /\ id old = i /\
  forall j q, (j < k)%nat -> providers c !! j = Some q -> id q <> i.

(** What [readLiveSettings] finds in [w]: [null] when nothing is at the
    live file's path, the parsed value when the file holds JSON. *)
Definition live_value (w : World) (live : json) : Prop :=
  (absent w CLAUDE_SETTINGS_PATH /\ live = JNull) \/ holds w CLAUDE_SETTINGS_PATH live.

(** The configuration a switch to [i] persists from [c] when the live
    settings read as [live]: the current provider, if it is another one
    and [live] is truthy, takes [live] as its [settingsConfig]; [i] becomes
    current. *)
Definition switched (c : ProvidersConfig) (live : json) (i : string) : ProvidersConfig :=
  {| providers :=
       match currentProviderId c with
       | Some cur =>
           if bool_decide (cur = "" \/ cur = i) then providers c
           else
             match find_ref (has_id cur) (providers c) with
             | Some k =>
                 if truthy live
                 then alter (set_settingsConfig live) k (providers c)
                 else providers c
             | None => providers c
             end
       | None => providers c
       end;
     currentProviderId := Some i |}.

(** The configuration [removeProvider i] persists from [c]. *)
Definition removed (c : ProvidersConfig) (i : string) : ProvidersConfig :=
  {| providers := filter (fun p => id p <> i) (providers c);
     currentProviderId :=
       if decide (currentProviderId c = Some i) then None else currentProviderId c |}.

(** The record [updateProvider] puts in place of [old]. *)
Definition with_updates (u : ProviderUpdates) (old : Provider) : Provider :=
  {| id := id old;
     name := default (name old) (upd_name u);
     settingsConfig := default (settingsConfig old) (upd_settingsConfig u);
     description := nullish (upd_description u) (description old);
     category := nullish (upd_category u) (category old);
     createdAt := createdAt old;
     icon := nullish (upd_icon u) (icon old);
     iconColor := nullish (upd_iconColor u) (iconColor old) |}.

(** The store file of [w] is the rendering of the configuration [c]. *)
Definition persists (w : World) (c : ProvidersConfig) : Prop :=
  files w !! CONFIG_FILE = Some (JSON_stringify (ProvidersConfig_to_json c)).

(** The ids of the stored providers, in order. *)
Definition ids (c : ProvidersConfig) : list string := map id (providers c).

(** [currentProviderId], when set, is the id of a stored provider. *)
Definition pointer_valid (c : ProvidersConfig) : Prop :=
  forall cur, currentProviderId c = Some cur -> cur ∈ ids c.

End Vocabulary.

(** The commands [Bun.spawn] was called with, in order. *)
Definition launches (t : Start.Terminal) : list (list string) :=
  omap (fun s => match s with Start.ShownSpawn command => Some command | _ => None end)
       (Start.screen t).

(** The command [m] neither starts a process nor stops this one. *)
Definition quiet {A} (m : Start.cmd A) : Prop :=
  forall t w,
    launches (m t w).1.2 = launches t /\
    forall code, (m t w).1.1 <> Start.Exited code.

(** No prompt is answered between [t] and [t']. *)
Definition unprompted (t t' : Start.Terminal) : Prop :=
  Start.selections t' = Start.selections t /\
  Start.entries t' = Start.entries t /\
  Start.confirmations t' = Start.confirmations t.

(** The menu cannot show [p]: reading its endpoint throws. *)
Definition unlistable `{Start.Platform} (p : Provider) : Prop :=
  settingsConfig p = JNull \/
  exists url,
    Start.member "env" (settingsConfig p) ≫= Start.member "ANTHROPIC_BASE_URL" = Some url /\
    truthy url = true /\ Start.URL_host url = None.

(** The exit code of the command after a launch that went as [child]. *)
Definition exit_code (child : Start.Child) : Z :=
  match child with
  | Start.ChildExits exitCode => default 0 exitCode
  | Start.SpawnFails _ => 1
  end.

(** ** A concrete platform

    Hosts of [https://] addresses, trimming of spaces, and short error
    messages; it instantiates [Platform] where the results below are run
    on concrete terminals. *)

Module SamplePlatform.

Fixpoint up_to_slash (s : string) : string :=
  match s with
  | EmptyString => ""
  | String c rest => if Ascii.eqb c "/"%char then "" else String c (up_to_slash rest)
  end.

Definition host (v : json) : option string :=
  match v with
  | JStr s =>
      if String.prefix "https://" s && (8 <? String.length s)%nat
      then Some (up_to_slash (substring 8 (String.length s - 8) s))
      else None
  | _ => None
  end.

Fixpoint trim_start (s : string) : string :=
  match s with
  | String c rest => if Ascii.eqb c " "%char then trim_start rest else s
  | EmptyString => ""
  end.

Definition trim (s : string) : string :=
  String.rev (trim_start (String.rev (trim_start s))).

Definition engine_message (e : error) : string :=
  match e with
  | Error text => text
  | SyntaxError => "Unexpected token"
  | SystemError code => code
  | TypeError => "not a function"
  end.

#[export] Instance platform : Start.Platform :=
  {| Start.URL_host := host;
     Start.String_of := SampleRuntime.stringify;
     Start.trim := trim;
     Start.engine_message := engine_message |}.

End SamplePlatform.

(** ** Sample worlds *)

Module Samples.
Import ClaudeSettings ProviderStorage.

#[local] Existing Instance SampleRuntime.runtime.

Definition home_dirs : list path :=
  [["home"]; ["home"; "user"]; ["home"; "user"; ".cc"]; ["home"; "user"; ".claude"]].

(** A disk with the given files, both store directories in place, the
    clock standing still, and no failure planned. *)
Definition disk (entries : list (path * string)) : World :=
  {| files := list_to_map entries;
     dirs := list_to_set home_dirs;
     now := 1700000000000;
     ticks := [];
     rnd := [];
     faults := [];
     log := [] |}.

(** Both store files hold the JSON text [null]. *)
Definition null_disk : World :=
  disk [(CONFIG_FILE, "null"); (CLAUDE_SETTINGS_PATH, "null")].

(** The provider store holds an object whose [providers] is a string. *)
Definition misshapen : json := JObj [("providers", JStr "oops")].

Definition misshapen_disk : World :=
  disk [(CONFIG_FILE, JSON_stringify misshapen)].

(** The provider store holds a text that is not JSON. *)
Definition garbled_disk : World :=
  disk [(CONFIG_FILE, "{ providers: ")].

(** Both store files hold [{}]; the next write succeeds, the rename is
    rejected, and so is the unlink of the temporary file. *)
Definition rename_fails_disk : World :=
  set_faults
    [None;
     Some {| fault_code := "EXDEV"; fault_partial := None |};
     Some {| fault_code := "EPERM"; fault_partial := None |}]
    (disk [(CONFIG_FILE, "{}"); (CLAUDE_SETTINGS_PATH, "{}")]).

(** The write itself is rejected half way, leaving a partial file. *)
Definition write_fails_disk : World :=
  set_faults
    [Some {| fault_code := "ENOSPC"; fault_partial := Some "{ pro" |}]
    (disk [(CONFIG_FILE, "{}"); (CLAUDE_SETTINGS_PATH, "{}")]).

(** The backfill scenario: [P1] is current with a stale snapshot, the
    live file carries an edit made by hand, [P2] is the switch target. *)
Definition P1 : Provider :=
  {| id := "P1"; name := "work";
     settingsConfig := JObj [("env", JObj [("TOKEN", JStr "old")])];
     description := Some "work account"; category := Some api;
     createdAt := Some 1699999990000; icon := None; iconColor := None |}.

Definition P2 : Provider :=
  {| id := "P2"; name := "home";
     settingsConfig := JObj [("env", JObj [("TOKEN", JStr "new")]); ("model", JStr "opus")];
     description := None; category := Some subscription;
     createdAt := Some 1699999995000; icon := Some "house"; iconColor := None |}.

Definition two_providers : ProvidersConfig :=
  {| providers := [P1; P2]; currentProviderId := Some "P1" |}.

Definition edited_live : json :=
  JObj [("env", JObj [("TOKEN", JStr "old"); ("EXTRA", JStr "user-edit")])].

Definition switch_disk : World :=
  disk [(CONFIG_FILE, JSON_stringify (ProvidersConfig_to_json two_providers));
        (CLAUDE_SETTINGS_PATH, JSON_stringify edited_live)].

(** The same store with no live settings file. *)
Definition no_live_disk : World :=
  disk [(CONFIG_FILE, JSON_stringify (ProvidersConfig_to_json two_providers))].

Definition rename_only : ProviderUpdates :=
  {| upd_name := Some "x"; upd_settingsConfig := None; upd_description := None;
     upd_category := None; upd_createdAt := Some 5; upd_icon := None;
     upd_iconColor := None |}.

(** Two draws of [Math.random()] that agree on their first seven
    base-36 digits, within one millisecond. *)
Definition close_draws_disk : World :=
  {| files := files (disk [(CONFIG_FILE,
                            JSON_stringify (ProvidersConfig_to_json two_providers))]);
     dirs := list_to_set home_dirs;
     now := 1700000000000;
     ticks := [];
     rnd := ["0.4fzyo82mvyr"; "0.4fzyo82m01b"];
     faults := [];
     log := [] |}.

Definition new_work : NewProvider :=
  {| new_name := "work-2"; new_settingsConfig := JObj [];
     new_description := None; new_category := Some api;
     new_icon := None; new_iconColor := None |}.

Definition new_lab : NewProvider :=
  {| new_name := "lab"; new_settingsConfig := JObj [("model", JStr "haiku")];
     new_description := None; new_category := None;
     new_icon := None; new_iconColor := None |}.

(** A first run: no store directory, no store file. *)
Definition fresh_disk : World :=
  {| files := ∅;
     dirs := list_to_set [["home"]; ["home"; "user"]];
     now := 1700000000000; ticks := []; rnd := []; faults := []; log := [] |}.

(** The store is in place but [~/.claude] does not exist. *)
Definition no_claude_disk : World :=
  {| files := list_to_map
                [(CONFIG_FILE, JSON_stringify (ProvidersConfig_to_json two_providers))];
     dirs := list_to_set [["home"]; ["home"; "user"]; ["home"; "user"; ".cc"]];
     now := 1700000000000; ticks := []; rnd := []; faults := []; log := [] |}.

(** The backfill scenario in which the last rename, that of the live
    file, is rejected. *)
Definition live_rename_fails_disk : World :=
  set_faults
    [None; None; None; None; None;
     Some {| fault_code := "EXDEV"; fault_partial := None |}]
    switch_disk.

(** The live file holds the JSON text [null]. *)
Definition null_live_disk : World :=
  disk [(CONFIG_FILE, JSON_stringify (ProvidersConfig_to_json two_providers));
        (CLAUDE_SETTINGS_PATH, "null")].

(** The live file holds a text that is not JSON. *)
Definition garbled_live_disk : World :=
  disk [(CLAUDE_SETTINGS_PATH, "{ env: ")].

(** The pointer names a provider that is not stored. *)
Definition dangling : ProvidersConfig :=
  {| providers := [P1; P2]; currentProviderId := Some "gone" |}.

Definition dangling_disk : World :=
  disk [(CONFIG_FILE, JSON_stringify (ProvidersConfig_to_json dangling));
        (CLAUDE_SETTINGS_PATH, "{ env: ")].

(** A provider whose name is another provider's id. *)
Definition P3 : Provider :=
  {| id := "P3"; name := "P2";
     settingsConfig := JObj [];
     description := None; category := None;
     createdAt := None; icon := None; iconColor := None |}.

Definition three_providers : ProvidersConfig :=
  {| providers := [P3; P1; P2]; currentProviderId := Some "P1" |}.

(** The dangling pointer with no live settings file. *)
Definition dangling_no_live_disk : World :=
  disk [(CONFIG_FILE, JSON_stringify (ProvidersConfig_to_json dangling))].

Definition three_disk : World :=
  disk [(CONFIG_FILE, JSON_stringify (ProvidersConfig_to_json three_providers))].

(** The record made from [new_lab] on a disk of [disk], where the clock
    reads 1700000000000 and no random draw is planned. *)
Definition lab : Provider :=
  {| id := "1700000000000-"; name := "lab";
     settingsConfig := JObj [("model", JStr "haiku")];
     description := None; category := None;
     createdAt := Some 1700000000000; icon := None; iconColor := None |}.

(** The record a capture of [edited_live] under the name "snap" makes
    there. *)
Definition snap : Provider :=
  {| id := "1700000000000-"; name := "snap";
     settingsConfig := edited_live;
     description := None; category := Some subscription;
     createdAt := Some 1700000000000; icon := None; iconColor := None |}.

(** A user who will give these answers, at a terminal that has shown
    nothing yet, and a Claude Code that will exit with code 3. *)
Definition user (selections entries : list string) (confirmations : list bool)
  : Start.Terminal :=
  {| Start.selections := selections; Start.entries := entries;
     Start.confirmations := confirmations;
     Start.children := [Start.ChildExits (Some 3)];
     Start.screen := [] |}.

(** A provider whose endpoint is not an address. *)
Definition P4 : Provider :=
  {| id := "P4"; name := "broken";
     settingsConfig := JObj [("env", JObj [("ANTHROPIC_BASE_URL", JStr "localhost")])];
     description := None; category := Some api;
     createdAt := Some 1699999999000; icon := None; iconColor := None |}.

Definition broken_menu : ProvidersConfig :=
  {| providers := [P1; P4]; currentProviderId := Some "P1" |}.

Definition broken_menu_disk : World :=
  disk [(CONFIG_FILE, JSON_stringify (ProvidersConfig_to_json broken_menu))].



(** A world whose clock reads [t] and whose next random draw is [r]. *)
Definition drawing (t : Z) (r : string) : World :=
  {| files := ∅; dirs := ∅; now := t; ticks := []; rnd := [r]; faults := []; log := [] |}.

End Samples.

(** ** Sanity of the sample runtime *)

Example stringify_sample :
  SampleRuntime.parse
    (SampleRuntime.stringify
       (JObj [("env", JObj [("TOKEN", JStr "old"); ("N", JNum (-12))]);
              ("list", JArr [JNull; JBool true; JArr []; JObj []])]))
  = Some (JObj [("env", JObj [("TOKEN", JStr "old"); ("N", JNum (-12))]);
              ("list", JArr [JNull; JBool true; JArr []; JObj []])]).
Proof. vm_compute. reflexivity. Qed.

(** ** System calls in a calm world *)

Section Calls.

Lemma thrown_final {A} (o : outcome A) e : thrown o = Some e -> o = Throw e (final o).
Proof. destruct o; simpl; congruence. Qed.

Lemma returned_final {A} (o : outcome A) a : returned o = Some a -> o = Return a (final o).
Proof. destruct o; simpl; congruence. Qed.

Lemma next_fault_calm w : calm w -> next_fault w = (None, w).
Proof. unfold calm, next_fault. intros ->. reflexivity. Qed.

Lemma readFile_calm p w content :
  calm w -> files w !! p = Some content -> readFile p w = Return content w.
Proof.
  intros Hc Hf. unfold readFile. rewrite (next_fault_calm w Hc). now rewrite Hf.
Qed.

Lemma writeFile_calm p data w :
  calm w -> is_dir w (dirname p) = true ->
  writeFile p data w =
    Return tt (record (SysWriteFile p data) true
                 (set_files (<[p := data]> (files w)) w)).
Proof.
  intros Hc Hd. unfold writeFile. rewrite (next_fault_calm w Hc). now rewrite Hd.
Qed.

Lemma rename_calm src dst w content :
  calm w -> files w !! src = Some content -> is_dir w (dirname dst) = true ->
  rename src dst w =
    Return tt (record (SysRename src dst) true
                 (set_files (<[dst := content]> (delete src (files w))) w)).
Proof.
  intros Hc Hs Hd. unfold rename. rewrite (next_fault_calm w Hc).
  rewrite Hs. now rewrite Hd.
Qed.

Lemma dirname_join dir name : dirname (join dir [name]) = dir.
Proof. unfold dirname, join. apply removelast_last. Qed.

Lemma prefixes_self (p : path) : p <> [] -> p ∈ prefixes p.
Proof.
  intros Hp. unfold prefixes. apply list_elem_of_fmap.
  exists (length p). split.
  - now rewrite firstn_all.
  - apply list_elem_of_In, in_seq. destruct p; [congruence | simpl; lia].
Qed.

End Calls.

(** ** Loading and saving *)

Section Stores.
Context `{Runtime}.
Import ClaudeSettings ProviderStorage.

Lemma CONFIG_FILE_dirname : dirname CONFIG_FILE = CONFIG_DIR.
Proof. unfold CONFIG_FILE. apply dirname_join. Qed.

Lemma CONFIG_DIR_nonempty : CONFIG_DIR <> [].
Proof. unfold CONFIG_DIR, join. destruct homedir; discriminate. Qed.

Lemma ensureConfigDir_present w :
  is_dir w CONFIG_DIR = true -> ensureConfigDir w = Return tt w.
Proof.
  intros Hd. unfold ensureConfigDir, bind, existsSync.
  rewrite Hd, orb_true_r. reflexivity.
Qed.

Lemma loadProviders_present w content :
  calm w -> is_dir w CONFIG_DIR = true -> files w !! CONFIG_FILE = Some content ->
  loadProviders w =
    match JSON_parse content with
    | Some v => Return v w
    | None => Throw SyntaxError w
    end.
Proof.
  intros Hc Hd Hf. unfold loadProviders, bind.
  rewrite (ensureConfigDir_present w Hd). unfold existsSync, is_file.
  rewrite Hf, bool_decide_eq_true_2 by eauto. simpl.
  rewrite (readFile_calm _ _ _ Hc Hf). now destruct (JSON_parse content).
Qed.

Lemma loadClaudeSettings_present w content :
  calm w -> files w !! CLAUDE_SETTINGS_PATH = Some content ->
  loadClaudeSettings w =
    match JSON_parse content with
    | Some v => Return v w
    | None => Throw SyntaxError w
    end.
Proof.
  intros Hc Hf. unfold loadClaudeSettings, bind, existsSync, is_file.
  rewrite Hf, bool_decide_eq_true_2 by eauto. simpl.
  rewrite (readFile_calm _ _ _ Hc Hf). now destruct (JSON_parse content).
Qed.

Lemma loadClaudeSettings_absent w :
  absent w CLAUDE_SETTINGS_PATH -> loadClaudeSettings w = Return JNull w.
Proof.
  intros [Hf Hd]. unfold loadClaudeSettings, bind, existsSync, is_file.
  rewrite Hf, Hd, bool_decide_eq_false_2 by (intros [? ?]; discriminate).
  reflexivity.
Qed.

Lemma loadProviders_stored w c :
  calm w -> stored w c ->
  exists v, loadProviders w = Return v w /\ as_ProvidersConfig v = Some c.
Proof.
  intros Hc (Hd & v & (content & Hf & Hp) & Hv). exists v. split; [|exact Hv].
  rewrite (loadProviders_present w content Hc Hd Hf). now rewrite Hp.
Qed.

(** A write-then-rename with no failure along the way. *)
Lemma write_rename_calm tmp p data w :
  calm w -> is_dir w (dirname tmp) = true -> is_dir w (dirname p) = true ->
  (writeFile tmp data ;;; rename tmp p) w =
    Return tt
      {| files := <[p := data]> (delete tmp (<[tmp := data]> (files w)));
         dirs := dirs w; now := now w; ticks := ticks w; rnd := rnd w;
         faults := faults w;
         log := log w ++ [(SysWriteFile tmp data, true); (SysRename tmp p, true)] |}.
Proof.
  intros Hc Ht Hp. unfold bind. rewrite (writeFile_calm _ _ _ Hc Ht).
  erewrite rename_calm; [| exact Hc | apply lookup_insert_eq | exact Hp].
  unfold record, set_files. simpl. now rewrite <- app_assoc.
Qed.

Lemma providers_atomicWrite_calm p data w :
  calm w -> is_dir w (dirname p) = true ->
  ProviderStorage.atomicWrite p data w =
    Return tt (replaced (join (dirname p) [ProviderStorage.tmpName (now w)]) p data w).
Proof.
  intros Hc Hd. unfold ProviderStorage.atomicWrite, bind at 1, Date_now, try_catch.
  rewrite write_rename_calm; try assumption.
  - reflexivity.
  - now rewrite dirname_join.
Qed.

Lemma settings_atomicWrite_calm p data w :
  calm w -> is_dir w (dirname p) = true ->
  ClaudeSettings.atomicWrite p data w =
    Return tt (replaced (join (dirname p) [ClaudeSettings.tmpName (now w)]) p data w).
Proof.
  intros Hc Hd. unfold ClaudeSettings.atomicWrite, bind at 1, Date_now, try_catch.
  rewrite write_rename_calm; try assumption.
  - reflexivity.
  - now rewrite dirname_join.
Qed.

Lemma saveProviders_calm c w :
  calm w -> is_dir w CONFIG_DIR = true ->
  saveProviders c w =
    Return tt (replaced (providers_tmp (now w)) CONFIG_FILE
                 (JSON_stringify (ProvidersConfig_to_json c)) w).
Proof.
  intros Hc Hd. unfold saveProviders, bind.
  rewrite (ensureConfigDir_present w Hd).
  apply providers_atomicWrite_calm; [exact Hc | now rewrite CONFIG_FILE_dirname].
Qed.

Lemma writeLiveSnapshot_calm s w :
  calm w -> is_dir w (dirname CLAUDE_SETTINGS_PATH) = true ->
  writeLiveSnapshot s w =
    Return tt (replaced (settings_tmp (now w)) CLAUDE_SETTINGS_PATH (JSON_stringify s) w).
Proof.
  intros Hc Hd. unfold writeLiveSnapshot, saveClaudeSettings.
  now apply settings_atomicWrite_calm.
Qed.

Lemma replaced_target tmp p data w : files (replaced tmp p data w) !! p = Some data.
Proof. simpl. apply lookup_insert_eq. Qed.

Lemma replaced_other tmp p data w q :
  q <> p -> q <> tmp -> files (replaced tmp p data w) !! q = files w !! q.
Proof.
  intros Hp Ht. simpl.
  rewrite lookup_insert_ne, lookup_delete_ne, lookup_insert_ne; auto.
Qed.

End Stores.

(** ** Loading: shape, first run, malformed text *)

Section Loading.
Context `{Runtime}.
Import ClaudeSettings ProviderStorage.

(** C10. Neither [load] looks at the shape of what it parsed: whenever
    the backing file holds a text that parses, to any value [v] whatever
    (documented shape or not), [loadProviders] and [loadClaudeSettings]
    return [v] itself and raise nothing. *)
Theorem load_returns_parsed_value_unchecked (w : World) (content : string) (v : json) :
  calm w ->
  JSON_parse content = Some v ->
  (is_dir w CONFIG_DIR = true ->
   files w !! CONFIG_FILE = Some content ->
   loadProviders w = Return v w) /\
  (files w !! CLAUDE_SETTINGS_PATH = Some content ->
   loadClaudeSettings w = Return v w).
Proof.
  intros Hc Hp. split.
  - intros Hd Hf. rewrite (loadProviders_present w content Hc Hd Hf). now rewrite Hp.
  - intros Hf. rewrite (loadClaudeSettings_present w content Hc Hf). now rewrite Hp.
Qed.

Lemma prefixes_length (q p : path) : q ∈ prefixes p -> (length q <= length p)%nat.
Proof.
  unfold prefixes. intros Hq. apply list_elem_of_fmap in Hq as (n & -> & _).
  rewrite length_take. lia.
Qed.

Lemma CONFIG_FILE_not_prefix : CONFIG_FILE ∉ prefixes CONFIG_DIR.
Proof.
  intros Hin. apply prefixes_length in Hin. unfold CONFIG_FILE, join in Hin.
  rewrite length_app in Hin. simpl in Hin. lia.
Qed.

Lemma no_file_among (w : World) (ps : list path) :
  Forall (fun q => files w !! q = None) ps -> existsb (is_file w) ps = false.
Proof.
  induction 1 as [|p ps Hp _ IH]; [reflexivity|]. simpl. rewrite IH, orb_false_r.
  unfold is_file. apply bool_decide_eq_false_2. rewrite Hp. intros [? ?]. discriminate.
Qed.

Lemma ensureConfigDir_calm w :
  calm w ->
  Forall (fun q => files w !! q = None) (prefixes CONFIG_DIR) ->
  exists w',
    ensureConfigDir w = Return tt w' /\ calm w' /\ files w' = files w /\
    is_dir w' CONFIG_DIR = true /\
    (forall q, q ∉ prefixes CONFIG_DIR -> is_dir w' q = is_dir w q).
Proof.
  intros Hc Hno. destruct (is_dir w CONFIG_DIR) eqn:Hd.
  - exists w. rewrite (ensureConfigDir_present w Hd). auto.
  - unfold ensureConfigDir, bind, existsSync. rewrite Hd, orb_false_r.
    assert (is_file w CONFIG_DIR = false) as ->.
    { apply bool_decide_eq_false_2. intros [c Hf].
      rewrite Forall_forall in Hno.
      rewrite (Hno CONFIG_DIR) in Hf; [discriminate|].
      apply prefixes_self, CONFIG_DIR_nonempty. }
    simpl. unfold mkdir_recursive. rewrite (next_fault_calm w Hc).
    rewrite (no_file_among w _ Hno).
    eexists. split; [reflexivity|]. repeat split.
    + exact Hc.
    + unfold is_dir. simpl. apply bool_decide_eq_true_2. right.
      apply elem_of_union_l, elem_of_list_to_set, prefixes_self, CONFIG_DIR_nonempty.
    + intros q Hq. unfold is_dir. simpl. apply bool_decide_ext.
      rewrite elem_of_union, elem_of_list_to_set. tauto.
Qed.

(** C8. On a first run (nothing at the store file's path, and no regular
    file standing where the store directory or one of its ancestors should
    be), [loadProviders] makes sure the store directory exists, returns
    [{providers: []}] without throwing and leaves the file uncreated; the
    first [saveProviders] creates it. When the file exists and its text is
    not JSON, [loadProviders] throws the parser's [SyntaxError]. *)
Theorem loadProviders_first_run_and_malformed (w : World) :
  calm w ->
  (absent w CONFIG_FILE ->
   Forall (fun q => files w !! q = None) (prefixes CONFIG_DIR) ->
   exists w',
     loadProviders w = Return (JObj [("providers", JArr [])]) w' /\
     as_ProvidersConfig (JObj [("providers", JArr [])])
       = Some {| providers := []; currentProviderId := None |} /\
     is_dir w' CONFIG_DIR = true /\
     files w' = files w /\
     absent w' CONFIG_FILE /\
     forall c, exists w'',
       saveProviders c w' = Return tt w'' /\
       files w'' !! CONFIG_FILE = Some (JSON_stringify (ProvidersConfig_to_json c))) /\
  (forall content,
     is_dir w CONFIG_DIR = true ->
     files w !! CONFIG_FILE = Some content ->
     JSON_parse content = None ->
     loadProviders w = Throw SyntaxError w).
Proof.
  intros Hc. split.
  - intros [Hf Hnd] Hno.
    destruct (ensureConfigDir_calm w Hc Hno) as (w' & He & Hc' & Hfiles & Hd' & Hdirs).
    exists w'. unfold loadProviders, bind. rewrite He.
    assert (absent w' CONFIG_FILE) as Habs.
    { split; [now rewrite Hfiles|].
      rewrite Hdirs; [exact Hnd | apply CONFIG_FILE_not_prefix]. }
    destruct Habs as [Hf' Hnd'].
    unfold existsSync, is_file. rewrite Hf', Hnd'.
    rewrite bool_decide_eq_false_2 by (intros [? ?]; discriminate). simpl.
    repeat split; try assumption.
    intros c. eexists. split; [apply (saveProviders_calm c w' Hc' Hd')|].
    apply replaced_target.
  - intros content Hd Hf Hp.
    rewrite (loadProviders_present w content Hc Hd Hf). now rewrite Hp.
Qed.

End Loading.

Lemma load_returns_parsed_value_unchecked_witness :
  as_ProvidersConfig JNull = None /\
  ProviderStorage.loadProviders (H := SampleRuntime.runtime) Samples.null_disk
    = Return JNull Samples.null_disk /\
  ClaudeSettings.loadClaudeSettings (H := SampleRuntime.runtime) Samples.null_disk
    = Return JNull Samples.null_disk.
Proof.
  destruct (load_returns_parsed_value_unchecked (H := SampleRuntime.runtime)
              Samples.null_disk "null" JNull eq_refl eq_refl) as [Hp Hs].
  split; [reflexivity|]. split.
  - apply Hp; vm_compute; reflexivity.
  - apply Hs; vm_compute; reflexivity.
Defined.

(** A store whose [providers] is not an array is loaded as it is. *)
Example load_misshapen :
  returned (ProviderStorage.loadProviders (H := SampleRuntime.runtime)
              Samples.misshapen_disk)
  = Some Samples.misshapen /\
  as_ProvidersConfig Samples.misshapen = None.
Proof. vm_compute. split; reflexivity. Qed.

Lemma loadProviders_first_run_and_malformed_witness :
  (exists w',
     ProviderStorage.loadProviders (H := SampleRuntime.runtime) Samples.fresh_disk
       = Return (JObj [("providers", JArr [])]) w' /\
     is_dir w' ["home"; "user"; ".cc"] = true /\
     files w' !! ["home"; "user"; ".cc"; "providers.json"] = None) /\
  ProviderStorage.loadProviders (H := SampleRuntime.runtime) Samples.garbled_disk
    = Throw SyntaxError Samples.garbled_disk.
Proof.
  destruct (loadProviders_first_run_and_malformed (H := SampleRuntime.runtime)
              Samples.fresh_disk eq_refl) as [Hfresh _].
  destruct (loadProviders_first_run_and_malformed (H := SampleRuntime.runtime)
              Samples.garbled_disk eq_refl) as [_ Hgarbled].
  split.
  - destruct Hfresh as (w' & Hl & _ & Hd & Hf & _).
    + split; vm_compute; reflexivity.
    + repeat constructor.
    + exists w'. split; [exact Hl|]. split; [exact Hd|]. rewrite Hf. reflexivity.
  - apply (Hgarbled "{ providers: "); vm_compute; reflexivity.
Defined.

(** ** The atomic write when a step fails *)

Section AtomicWrite.
Context `{Runtime}.
Import ClaudeSettings ProviderStorage.

Lemma next_fault_keeps w :
  files (next_fault w).2 = files w /\ log (next_fault w).2 = log w /\
  dirs (next_fault w).2 = dirs w.
Proof. unfold next_fault. destruct (faults w); simpl; auto. Qed.

(** Whatever [unlink p] does, it logs itself last, touches no other
    path, and has removed [p] when it reports success. *)
Lemma unlink_effect p w :
  exists ok,
    log (final (unlink p w)) = log w ++ [(SysUnlink p, ok)] /\
    (ok = true -> files (final (unlink p w)) !! p = None) /\
    (forall q, q <> p -> files (final (unlink p w)) !! q = files w !! q).
Proof.
  unfold unlink. destruct (next_fault_keeps w) as (Hf & Hl & _).
  destruct (next_fault w) as [[flt|] w1]; simpl in *.
  - exists false. rewrite Hl, Hf. split; [reflexivity|]. split; [discriminate|auto].
  - destruct (files w1 !! p) eqn:Hp; simpl.
    + exists true. rewrite Hl. split; [reflexivity|]. split.
      * intros _. apply lookup_delete_eq.
      * intros q Hq. rewrite lookup_delete_ne by auto. now rewrite Hf.
    + exists false. rewrite Hl, Hf. split; [reflexivity|]. split; [discriminate|auto].
Qed.

(** A write that rejects changes nothing but, possibly, its own path. *)
Lemma writeFile_throw p data w e w1 q :
  writeFile p data w = Throw e w1 -> q <> p -> files w1 !! q = files w !! q.
Proof.
  unfold writeFile. destruct (next_fault_keeps w) as (Hf & _ & _).
  destruct (next_fault w) as [[flt|] w0]; simpl in *.
  - intros [= _ <-] Hq. simpl.
    destruct (fault_partial flt); [destruct (is_dir w0 (dirname p))|]; simpl;
      rewrite ?lookup_insert_ne by auto; now rewrite Hf.
  - destruct (is_dir w0 (dirname p)); intros [= _ <-] _. simpl. now rewrite Hf.
Qed.

Lemma writeFile_return p data w w1 q :
  writeFile p data w = Return tt w1 -> q <> p -> files w1 !! q = files w !! q.
Proof.
  unfold writeFile. destruct (next_fault_keeps w) as (Hf & _ & _).
  destruct (next_fault w) as [[flt|] w0]; simpl in *; [discriminate|].
  destruct (is_dir w0 (dirname p)); intros [= <-] Hq. simpl.
  rewrite lookup_insert_ne by auto. now rewrite Hf.
Qed.

(** A rename that rejects changes no file at all. *)
Lemma rename_throw src dst w e w1 :
  rename src dst w = Throw e w1 -> files w1 = files w.
Proof.
  unfold rename. destruct (next_fault_keeps w) as (Hf & _ & _).
  destruct (next_fault w) as [[flt|] w0]; simpl in *.
  - now intros [= _ <-].
  - destruct (files w0 !! src); [destruct (is_dir w0 (dirname dst))|];
      intros [= _ <-]; assumption.
Qed.

Lemma write_rename_throw tmp p data w e w1 q :
  (writeFile tmp data ;;; rename tmp p) w = Throw e w1 ->
  q <> tmp -> files w1 !! q = files w !! q.
Proof.
  unfold bind. destruct (writeFile tmp data w) as [[] w0|e0 w0] eqn:Hw.
  - intros Hr Hq. rewrite (rename_throw _ _ _ _ _ Hr).
    eapply writeFile_return; eauto.
  - intros [= _ <-] Hq. eapply writeFile_throw; eauto.
Qed.

(** The shape both [atomicWrite] functions share once the clock is read. *)
Lemma guarded_write_failure tmp p data w0 e w1 :
  tmp <> p ->
  (writeFile tmp data ;;; rename tmp p) w0 = Throw e w1 ->
  exists w',
    try_catch
      (writeFile tmp data ;;; rename tmp p)
      (fun error =>
         try_catch
           (present <- existsSync tmp ;;
            if present then unlink tmp else ret tt)
           (fun _ => ret tt) ;;;
         throw error) w0 = Throw e w' /\
    files w' !! p = files w0 !! p /\
    cleaned_up tmp w1 w'.
Proof.
  intros Hne Hbody. unfold try_catch at 1. rewrite Hbody.
  pose proof (write_rename_throw _ _ _ _ _ _ p Hbody (not_eq_sym Hne)) as Hp.
  unfold bind at 1, try_catch, bind, existsSync, throw, ret, cleaned_up.
  destruct (is_file w1 tmp || is_dir w1 tmp) eqn:Hex.
  - destruct (unlink_effect tmp w1) as (ok & Hlog & Hgone & Hrest).
    destruct (unlink tmp w1) as [[] w2|e2 w2] eqn:Hu; simpl in *;
      exists w2; (split; [reflexivity|]);
      (split; [rewrite Hrest by auto; exact Hp|]); eauto.
  - exists w1. auto.
Qed.

(** Conversely, an atomic write throws only what one of its two steps
    threw: the clean-up never raises an error of its own. *)
Lemma guarded_write_throws_from_steps tmp p data w0 e w' :
  try_catch
    (writeFile tmp data ;;; rename tmp p)
    (fun error =>
       try_catch
         (present <- existsSync tmp ;;
          if present then unlink tmp else ret tt)
         (fun _ => ret tt) ;;;
       throw error) w0 = Throw e w' ->
  exists w1, (writeFile tmp data ;;; rename tmp p) w0 = Throw e w1.
Proof.
  unfold try_catch at 1.
  destruct ((writeFile tmp data;;; rename tmp p) w0) as [[] w1|e1 w1];
    [discriminate|].
  unfold bind at 1, try_catch, bind, existsSync, throw, ret.
  destruct (is_file w1 tmp || is_dir w1 tmp).
  - destruct (unlink tmp w1) as [[] w2|e2 w2]; intros [= <- _]; eauto.
  - intros [= <- _]. eauto.
Qed.

(** C3. Let the write step or the rename step of either [atomicWrite]
    fail with error [e]. Then [atomicWrite] throws that same [e], whatever
    becomes of the clean-up; the target path reads exactly as before (same
    contents, or still absent); and the temporary file, if it exists, has
    had its [unlink] attempted as the last call. The target is assumed not
    to be the temporary path itself, as is the case of both stores. *)
Theorem atomicWrite_failure_leaves_target
    (p : path) (data : string) (w w1 : World) (e : error) :
  let steps (tmp : path) : outcome unit :=
    (writeFile tmp data ;;; rename tmp p) (final (Date_now w)) in
  let tmpP := join (dirname p) [ProviderStorage.tmpName (now w)] in
  let tmpS := join (dirname p) [ClaudeSettings.tmpName (now w)] in
  (tmpP <> p ->
   steps tmpP = Throw e w1 ->
   exists w',
     ProviderStorage.atomicWrite p data w = Throw e w' /\
     files w' !! p = files w !! p /\
     cleaned_up tmpP w1 w') /\
  (tmpS <> p ->
   steps tmpS = Throw e w1 ->
   exists w',
     ClaudeSettings.atomicWrite p data w = Throw e w' /\
     files w' !! p = files w !! p /\
     cleaned_up tmpS w1 w').
Proof.
  intros steps tmpP tmpS.
  split; intros Hne Hsteps;
    destruct (guarded_write_failure _ _ _ _ _ _ Hne Hsteps) as (w' & Hrun & Hp & Hclean);
    exists w'; (split; [exact Hrun|]); split; assumption.
Qed.

(** An [atomicWrite] that throws does so because a step failed. *)
Lemma atomicWrite_throws_from_steps (p : path) (data : string) (w w' : World) (e : error) :
  (ProviderStorage.atomicWrite p data w = Throw e w' ->
   exists w1,
     (writeFile (join (dirname p) [ProviderStorage.tmpName (now w)]) data ;;;
      rename (join (dirname p) [ProviderStorage.tmpName (now w)]) p)
       (final (Date_now w)) = Throw e w1) /\
  (ClaudeSettings.atomicWrite p data w = Throw e w' ->
   exists w1,
     (writeFile (join (dirname p) [ClaudeSettings.tmpName (now w)]) data ;;;
      rename (join (dirname p) [ClaudeSettings.tmpName (now w)]) p)
       (final (Date_now w)) = Throw e w1).
Proof.
  split; intros Hthrow; eapply guarded_write_throws_from_steps; exact Hthrow.
Qed.

(** Both stores' files differ from every temporary path. *)
Lemma providers_tmp_fresh t : providers_tmp t <> CONFIG_FILE.
Proof.
  unfold providers_tmp. rewrite CONFIG_FILE_dirname. unfold CONFIG_FILE, join.
  intros Heq. apply app_inv_head in Heq. discriminate.
Qed.

Lemma settings_tmp_fresh t : settings_tmp t <> CLAUDE_SETTINGS_PATH.
Proof.
  unfold settings_tmp, CLAUDE_SETTINGS_PATH, dirname, join.
  change [".claude"; "settings.json"] with ([".claude"] ++ ["settings.json"]).
  rewrite app_assoc, removelast_last.
  intros Heq. apply app_inv_head in Heq. discriminate.
Qed.

(** Reading never changes a file, whatever fails. *)
Lemma readFile_files p w : files (final (readFile p w)) = files w.
Proof.
  unfold readFile. destruct (next_fault_keeps w) as (Hf & _ & _).
  destruct (next_fault w) as [[flt|] w1]; simpl in *; [exact Hf|].
  destruct (files w1 !! p); exact Hf.
Qed.

Lemma mkdir_recursive_files p w : files (final (mkdir_recursive p w)) = files w.
Proof.
  unfold mkdir_recursive. destruct (next_fault_keeps w) as (Hf & _ & _).
  destruct (next_fault w) as [[flt|] w1]; simpl in *; [exact Hf|].
  destruct (existsb (is_file w1) (prefixes p)); exact Hf.
Qed.

Lemma ensureConfigDir_files w : files (final (ensureConfigDir w)) = files w.
Proof.
  unfold ensureConfigDir, bind, existsSync.
  destruct (negb (is_file w CONFIG_DIR || is_dir w CONFIG_DIR)); [|reflexivity].
  apply mkdir_recursive_files.
Qed.

Lemma loadProviders_files w : files (final (loadProviders w)) = files w.
Proof.
  unfold loadProviders, bind at 1. pose proof (ensureConfigDir_files w) as He.
  destruct (ensureConfigDir w) as [[] w0|e w0]; simpl in *; [|exact He].
  unfold bind, existsSync.
  destruct (negb (is_file w0 CONFIG_FILE || is_dir w0 CONFIG_FILE)); [exact He|].
  pose proof (readFile_files CONFIG_FILE w0) as Hr.
  destruct (readFile CONFIG_FILE w0) as [content w1|e w1]; simpl in *;
    [|congruence].
  destruct (JSON_parse content); simpl; congruence.
Qed.

Lemma loadClaudeSettings_files w : files (final (loadClaudeSettings w)) = files w.
Proof.
  unfold loadClaudeSettings, bind, existsSync.
  destruct (negb (is_file w CLAUDE_SETTINGS_PATH || is_dir w CLAUDE_SETTINGS_PATH));
    [reflexivity|].
  pose proof (readFile_files CLAUDE_SETTINGS_PATH w) as Hr.
  destruct (readFile CLAUDE_SETTINGS_PATH w) as [content w1|e w1]; simpl in *;
    [|exact Hr].
  destruct (JSON_parse content); exact Hr.
Qed.

(** The two stores' own saves: a save that throws leaves its file as it
    was, whichever call failed and whatever the clean-up did. *)
Lemma saveClaudeSettings_failure_keeps_file settings w e w' :
  saveClaudeSettings settings w = Throw e w' ->
  files w' !! CLAUDE_SETTINGS_PATH = files w !! CLAUDE_SETTINGS_PATH.
Proof.
  unfold saveClaudeSettings, ClaudeSettings.atomicWrite, bind at 1, Date_now.
  intros Hthrow.
  destruct (guarded_write_throws_from_steps _ _ _ _ _ _ Hthrow) as (w1 & Hsteps).
  destruct (guarded_write_failure _ _ _ _ _ _ (settings_tmp_fresh (now w)) Hsteps)
    as (w'' & Hrun & Hfile & _).
  unfold settings_tmp in Hrun. rewrite Hrun in Hthrow. now inversion Hthrow; subst.
Qed.

Lemma saveProviders_failure_keeps_file config w e w' :
  saveProviders config w = Throw e w' ->
  files w' !! CONFIG_FILE = files w !! CONFIG_FILE.
Proof.
  unfold saveProviders, bind at 1. pose proof (ensureConfigDir_files w) as He.
  destruct (ensureConfigDir w) as [[] w0|e0 w0]; simpl in He.
  - unfold ProviderStorage.atomicWrite, bind at 1, Date_now. intros Hthrow.
    destruct (guarded_write_throws_from_steps _ _ _ _ _ _ Hthrow) as (w1 & Hsteps).
    destruct (guarded_write_failure _ _ _ _ _ _ (providers_tmp_fresh (now w0)) Hsteps)
      as (w'' & Hrun & Hfile & _).
    unfold providers_tmp in Hrun. rewrite Hrun in Hthrow.
    inversion Hthrow; subst. simpl in Hfile. now rewrite Hfile, He.
  - intros [= _ <-]. now rewrite He.
Qed.

End AtomicWrite.

Lemma atomicWrite_failure_leaves_target_witness :
  exists w',
    ProviderStorage.atomicWrite (ProviderStorage.CONFIG_FILE (H := SampleRuntime.runtime))
      "{ }" Samples.rename_fails_disk
    = Throw (SystemError "EXDEV") w' /\
    files w' !! ProviderStorage.CONFIG_FILE (H := SampleRuntime.runtime) = Some "{}".
Proof.
  destruct (atomicWrite_failure_leaves_target
              (ProviderStorage.CONFIG_FILE (H := SampleRuntime.runtime)) "{ }"
              Samples.rename_fails_disk
              (final ((writeFile (providers_tmp (H := SampleRuntime.runtime) 1700000000000)
                         "{ }" ;;;
                       rename (providers_tmp (H := SampleRuntime.runtime) 1700000000000)
                         (ProviderStorage.CONFIG_FILE (H := SampleRuntime.runtime)))
                        (final (Date_now Samples.rename_fails_disk))))
              (SystemError "EXDEV")) as [Hp _].
  destruct Hp as (w' & Hrun & Htarget & _).
  - apply (providers_tmp_fresh (H := SampleRuntime.runtime)).
  - apply thrown_final. vm_compute. reflexivity.
  - exists w'. split; [exact Hrun|]. rewrite Htarget. vm_compute. reflexivity.
Defined.

(** The calls of that run: the write succeeds, the rename is rejected,
    the unlink of the temporary file is attempted and rejected too, and
    the error thrown is the rename's. *)
Example rename_failure_trace :
  let outcome :=
    ProviderStorage.atomicWrite (ProviderStorage.CONFIG_FILE (H := SampleRuntime.runtime))
      "{ }" Samples.rename_fails_disk in
  let tmp := ["home"; "user"; ".cc"; ".providers.json.tmp.1700000000000"] in
  thrown outcome = Some (SystemError "EXDEV") /\
  log (final outcome)
  = [(SysWriteFile tmp "{ }", true);
     (SysRename tmp ["home"; "user"; ".cc"; "providers.json"], false);
     (SysUnlink tmp, false)] /\
  files (final outcome) !! tmp = Some "{ }" /\
  files (final outcome) !! ["home"; "user"; ".cc"; "providers.json"] = Some "{}".
Proof. vm_compute. repeat split; reflexivity. Qed.

(** A write rejected half way: the partial temporary file is unlinked, the
    store file is as before. *)
Example write_failure_trace :
  let outcome :=
    ProviderStorage.saveProviders (H := SampleRuntime.runtime)
      Samples.two_providers Samples.write_fails_disk in
  let tmp := ["home"; "user"; ".cc"; ".providers.json.tmp.1700000000000"] in
  thrown outcome = Some (SystemError "ENOSPC") /\
  map snd (log (final outcome)) = [false; true] /\
  last (map fst (log (final outcome))) = Some (SysUnlink tmp) /\
  files (final outcome) !! tmp = None /\
  files (final outcome) !! ["home"; "user"; ".cc"; "providers.json"] = Some "{}".
Proof. vm_compute. repeat split; reflexivity. Qed.

(** ** The typed view of the store *)

Section TypedView.

Lemma as_Provider_to_json p : as_Provider (Provider_to_json p) = Some p.
Proof.
  destruct p as [i n sc d c t ic col].
  destruct d, c as [[]|], t, ic, col; reflexivity.
Qed.

Lemma as_Providers_to_json ps : as_Providers (map Provider_to_json ps) = Some ps.
Proof.
  induction ps as [|p ps IH]; [reflexivity|].
  cbn [map as_Providers]. rewrite as_Provider_to_json, IH. reflexivity.
Qed.

(** A configuration is read back from its own JSON value. *)
Lemma as_ProvidersConfig_to_json c :
  as_ProvidersConfig (ProvidersConfig_to_json c) = Some c.
Proof.
  destruct c as [ps [cur|]]; unfold ProvidersConfig_to_json, as_ProvidersConfig;
    cbn -[as_Providers]; rewrite as_Providers_to_json; reflexivity.
Qed.

Lemma find_ref_None {A} (pred : A -> bool) (l : list A) :
  find_ref pred l = None <-> forall x, x ∈ l -> pred x = false.
Proof.
  induction l as [|a l IH]; simpl.
  - split; [intros _ x Hx; inversion Hx | reflexivity].
  - destruct (pred a) eqn:Ha.
    + split; [discriminate|]. intros Hall. rewrite Hall in Ha; [discriminate|].
      apply list_elem_of_here.
    + destruct (find_ref pred l) eqn:Hf; simpl.
      * split; [discriminate|]. intros Hall.
        assert (Some n = None) as Hn; [|discriminate].
        apply IH. intros x Hx. apply Hall. now apply list_elem_of_further.
      * split; [|reflexivity]. intros _ x Hx.
        apply elem_of_cons in Hx as [->|Hx]; [exact Ha|].
        now apply IH.
Qed.

(** [find] answers the first element satisfying the predicate. *)
Lemma find_ref_Some {A} (pred : A -> bool) (l : list A) (k : nat) :
  find_ref pred l = Some k <->
  exists x, l !! k = Some x /\ pred x = true /\
            forall j y, (j < k)%nat -> l !! j = Some y -> pred y = false.
Proof.
  revert k. induction l as [|a l IH]; intros k; simpl.
  - split; [discriminate|]. intros (x & Hx & _). discriminate.
  - destruct (pred a) eqn:Ha.
    + split.
      * intros [= <-]. exists a. repeat split; auto. intros j y Hj. lia.
      * intros (x & Hx & Hp & Hfirst). destruct k as [|k]; [reflexivity|].
        rewrite (Hfirst 0%nat a) in Ha; [discriminate|lia|reflexivity].
    + destruct (find_ref pred l) as [n|] eqn:Hf; simpl.
      * split.
        -- intros [= <-]. destruct (proj1 (IH n) eq_refl) as (x & Hx & Hp & Hfirst).
           exists x. repeat split; auto. intros [|j] y Hj Hy.
           ++ simpl in Hy. now inversion Hy; subst.
           ++ apply (Hfirst j); [lia|exact Hy].
        -- intros (x & Hx & Hp & Hfirst). destruct k as [|k].
           ++ simpl in Hx. inversion Hx; subst. congruence.
           ++ f_equal. assert (Some n = Some k) as [= ->]; [|reflexivity].
              apply IH. exists x. repeat split; auto.
              intros j y Hj Hy. apply (Hfirst (S j)); [lia|exact Hy].
      * split; [discriminate|]. intros (x & Hx & Hp & Hfirst).
        destruct k as [|k].
        -- simpl in Hx. inversion Hx; subst. congruence.
        -- assert (@None nat = Some k) as Hn; [|discriminate].
           apply IH. exists x. repeat split; auto.
           intros j y Hj Hy. apply (Hfirst (S j)); [lia|exact Hy].
Qed.

Lemma findIndex_find_ref {A} (pred : A -> bool) (l : list A) :
  findIndex pred l =
    match find_ref pred l with
    | Some k => Z.of_nat k
    | None => -1
    end.
Proof.
  induction l as [|a l IH]; simpl; [reflexivity|].
  destruct (pred a); [reflexivity|]. rewrite IH.
  destruct (find_ref pred l) as [k|]; simpl; [|reflexivity].
  destruct (Z.eqb_spec (Z.of_nat k) (-1)); lia.
Qed.

Lemma has_id_true i p : has_id i p = true <-> id p = i.
Proof. unfold has_id. apply String.eqb_eq. Qed.

Lemma has_id_false i p : has_id i p = false <-> id p <> i.
Proof. unfold has_id. apply String.eqb_neq. Qed.

End TypedView.

Section TypedLoad.
Context `{Runtime}.
Import ClaudeSettings ProviderStorage.

(** Every operation starts by loading the store and reading it as a
    [ProvidersConfig]. *)
Lemma with_stored_config {A} (k : ProvidersConfig -> io A) w c :
  calm w -> stored w c ->
  (parsed <- loadProviders ;;
   config <- typed as_ProvidersConfig parsed ;;
   k config) w = k c w.
Proof.
  intros Hc Hs. destruct (loadProviders_stored w c Hc Hs) as (v & Hl & Hv).
  unfold bind at 1. rewrite Hl. unfold bind, typed. rewrite Hv. reflexivity.
Qed.

End TypedLoad.

(** ** Switching to an unknown provider *)

Section SwitchUnknown.
Context `{Runtime}.
Import ClaudeSettings ProviderStorage.

(** C2. When no stored provider has the requested id, [switchProvider]
    throws [Error("Provider <id> not found")] and the world it leaves is
    the world it found: neither the provider store nor the live settings
    file, nor anything else, has changed. *)
Theorem switchProvider_unknown_id (w : World) (c : ProvidersConfig) (i : string) :
  calm w ->
  stored w c ->
  (forall p, p ∈ providers c -> id p <> i) ->
  switchProvider i w = Throw (Error ("Provider " +:+ i +:+ " not found")) w.
Proof.
  intros Hc Hs Hnone. unfold switchProvider. rewrite (with_stored_config _ w c Hc Hs).
  replace (find_ref (has_id i) (providers c)) with (@None nat); [reflexivity|].
  symmetry. apply find_ref_None. intros p Hp. now apply has_id_false, Hnone.
Qed.

End SwitchUnknown.

Lemma sample_store_holds (live : list (path * string)) (w : World) :
  files w = files (Samples.disk
       ((ProviderStorage.CONFIG_FILE (H := SampleRuntime.runtime),
         SampleRuntime.stringify (ProvidersConfig_to_json Samples.two_providers))
        :: live)) ->
  dirs w = list_to_set Samples.home_dirs ->
  stored (H := SampleRuntime.runtime) w Samples.two_providers.
Proof.
  intros Hf Hd. split.
  - unfold is_dir. rewrite Hd. vm_compute. reflexivity.
  - exists (ProvidersConfig_to_json Samples.two_providers). split.
    + eexists. split; [rewrite Hf; apply (lookup_insert_eq (M := gmap path))|].
      vm_compute. reflexivity.
    + apply as_ProvidersConfig_to_json.
Defined.

Lemma switchProvider_unknown_id_witness :
  ProviderStorage.switchProvider (H := SampleRuntime.runtime) "ghost" Samples.switch_disk
  = Throw (Error "Provider ghost not found") Samples.switch_disk.
Proof.
  apply (switchProvider_unknown_id (H := SampleRuntime.runtime)
           Samples.switch_disk Samples.two_providers "ghost").
  - reflexivity.
  - apply (sample_store_holds _ _ eq_refl eq_refl).
  - intros p Hp. vm_compute in Hp.
    apply elem_of_cons in Hp as [->|Hp]; [discriminate|].
    apply elem_of_cons in Hp as [->|Hp]; [discriminate|].
    inversion Hp.
Defined.

(** ** Updating a provider *)

Section Update.
Context `{Runtime}.
Import ClaudeSettings ProviderStorage.

Lemma first_with_id_find c i k old :
  first_with_id c i k old -> find_ref (has_id i) (providers c) = Some k.
Proof.
  intros (Hk & Hid & Hfirst). apply find_ref_Some. exists old.
  split; [exact Hk|]. split; [now apply has_id_true|].
  intros j q Hj Hq. apply has_id_false. eauto.
Qed.

Lemma no_id_find c i :
  (forall p, p ∈ providers c -> id p <> i) -> find_ref (has_id i) (providers c) = None.
Proof. intros Hnone. apply find_ref_None. intros p Hp. now apply has_id_false, Hnone. Qed.

(** C5. [updateProvider i u] on a stored provider [old] with id [i]
    returns [true] and persists the configuration in which [old] alone is
    replaced, at its place, by a record [new] whose [id] and [createdAt]
    are those of [old] (even when [u] carries a [createdAt]) and whose
    every other field is the value given in [u] when there is one and the
    value of [old] otherwise. When no stored provider has id [i] it
    returns [false] and the world is unchanged. *)
Theorem updateProvider_replaces_only_given_fields
    (w : World) (c : ProvidersConfig) (i : string) (u : ProviderUpdates) :
  calm w ->
  stored w c ->
  (forall k old,
     first_with_id c i k old ->
     exists new w',
       updateProvider i u w = Return true w' /\
       files w' !! CONFIG_FILE
         = Some (JSON_stringify
                   (ProvidersConfig_to_json
                      {| providers := <[k := new]> (providers c);
                         currentProviderId := currentProviderId c |})) /\
       id new = id old /\
       createdAt new = createdAt old /\
       field_after (upd_name u) (name old) (name new) /\
       field_after (upd_settingsConfig u) (settingsConfig old) (settingsConfig new) /\
       optional_field_after (upd_description u) (description old) (description new) /\
       optional_field_after (upd_category u) (category old) (category new) /\
       optional_field_after (upd_icon u) (icon old) (icon new) /\
       optional_field_after (upd_iconColor u) (iconColor old) (iconColor new)) /\
  ((forall p, p ∈ providers c -> id p <> i) ->
   updateProvider i u w = Return false w).
Proof.
  intros Hc Hs. split.
  - intros k old Hfirst. pose proof (first_with_id_find _ _ _ _ Hfirst) as Hfind.
    destruct Hfirst as (Hk & _ & _).
    unfold updateProvider. rewrite (with_stored_config _ w c Hc Hs).
    rewrite findIndex_find_ref, Hfind.
    destruct (Z.eqb_spec (Z.of_nat k) (-1)) as [Hneg|_]; [lia|].
    rewrite Nat2Z.id, Hk. unfold bind.
    rewrite saveProviders_calm; [|exact Hc|apply Hs].
    eexists. eexists. split; [reflexivity|]. split; [apply replaced_target|].
    simpl. repeat split.
    + now destruct (upd_name u).
    + now destruct (upd_settingsConfig u).
    + now destruct (upd_description u).
    + now destruct (upd_category u).
    + now destruct (upd_icon u).
    + now destruct (upd_iconColor u).
  - intros Hnone. unfold updateProvider. rewrite (with_stored_config _ w c Hc Hs).
    rewrite findIndex_find_ref, (no_id_find c i Hnone). reflexivity.
Qed.

End Update.

Lemma updateProvider_replaces_only_given_fields_witness :
  (exists w',
     ProviderStorage.updateProvider (H := SampleRuntime.runtime)
       "P2" Samples.rename_only Samples.switch_disk = Return true w' /\
     SampleRuntime.parse
       <$> files w' !! ProviderStorage.CONFIG_FILE (H := SampleRuntime.runtime)
     = Some (Some (ProvidersConfig_to_json
                     {| providers :=
                          [Samples.P1;
                           {| id := "P2"; name := "x";
                              settingsConfig := settingsConfig Samples.P2;
                              description := None; category := Some subscription;
                              createdAt := Some 1699999995000;
                              icon := Some "house"; iconColor := None |}];
                        currentProviderId := Some "P1" |}))) /\
  ProviderStorage.updateProvider (H := SampleRuntime.runtime)
    "ghost" Samples.rename_only Samples.switch_disk = Return false Samples.switch_disk.
Proof.
  destruct (updateProvider_replaces_only_given_fields (H := SampleRuntime.runtime)
              Samples.switch_disk Samples.two_providers "P2" Samples.rename_only
              eq_refl (sample_store_holds _ _ eq_refl eq_refl)) as [Hfound _].
  destruct (updateProvider_replaces_only_given_fields (H := SampleRuntime.runtime)
              Samples.switch_disk Samples.two_providers "ghost" Samples.rename_only
              eq_refl (sample_store_holds _ _ eq_refl eq_refl)) as [_ Hmissing].
  split.
  - destruct (Hfound 1%nat Samples.P2) as (new & w' & Hrun & _).
    + split; [reflexivity|]. split; [reflexivity|].
      intros [|j] q Hj Hq; [|lia]. inversion Hq. discriminate.
    + exists (final (ProviderStorage.updateProvider (H := SampleRuntime.runtime)
                       "P2" Samples.rename_only Samples.switch_disk)).
      split; [rewrite Hrun; reflexivity|]. vm_compute. reflexivity.
  - apply Hmissing. intros p Hp. vm_compute in Hp.
    apply elem_of_cons in Hp as [->|Hp]; [discriminate|].
    apply elem_of_cons in Hp as [->|Hp]; [discriminate|].
    inversion Hp.
Defined.

(** ** Removing a provider *)

Section Remove.
Context `{Runtime}.
Import ClaudeSettings ProviderStorage.

Lemma filter_length_le {A} (f : A -> bool) (l : list A) :
  (length (List.filter f l) <= length l)%nat.
Proof. induction l as [|a l IH]; simpl; [lia|]. destruct (f a); simpl; lia. Qed.

Lemma filter_length_lt {A} (f : A -> bool) (l : list A) :
  (exists x, x ∈ l /\ f x = false) -> (length (List.filter f l) < length l)%nat.
Proof.
  intros (x & Hx & Hf). induction Hx as [x l|x y l Hx IH]; simpl.
  - rewrite Hf. pose proof (filter_length_le f l). lia.
  - specialize (IH Hf). destruct (f y); simpl; lia.
Qed.

Lemma filter_keeps_all {A} (f : A -> bool) (l : list A) :
  (forall x, x ∈ l -> f x = true) -> List.filter f l = l.
Proof.
  induction l as [|a l IH]; intros Hall; simpl; [reflexivity|].
  rewrite (Hall a) by apply list_elem_of_here. f_equal. apply IH.
  intros x Hx. apply Hall. now apply list_elem_of_further.
Qed.

(** The source's filter keeps exactly the providers with another id. *)
Lemma filter_other_ids i (l : list Provider) :
  List.filter (fun p => negb (has_id i p)) l = filter (fun p => id p <> i) l.
Proof.
  induction l as [|a l IH]; [reflexivity|]. simpl. rewrite filter_cons, IH.
  destruct (has_id i a) eqn:Ha; simpl.
  - apply has_id_true in Ha. now rewrite decide_False by auto.
  - apply has_id_false in Ha. now rewrite decide_True by auto.
Qed.

Lemma removeProvider_none (w : World) (c : ProvidersConfig) (i : string) :
  calm w -> stored w c ->
  (forall p, p ∈ providers c -> id p <> i) ->
  removeProvider i w = Return false w.
Proof.
  intros Hc Hs Hnone. unfold removeProvider. rewrite (with_stored_config _ w c Hc Hs).
  simpl. rewrite filter_keeps_all.
  - now rewrite Nat.ltb_irrefl.
  - intros p Hp. apply negb_true_iff, has_id_false. auto.
Qed.

(** C4. [removeProvider i] returns [true] exactly when some stored
    provider has id [i]. It then persists the configuration without the
    providers of that id, the others in their order, with
    [currentProviderId] cleared if it was [i] and kept otherwise; a second
    [removeProvider i], on a store that reads back what was written,
    returns [false] and leaves the world as it is. When no stored provider
    has id [i], it returns [false] and writes nothing. *)
Theorem removeProvider_removes_and_clears
    (w : World) (c : ProvidersConfig) (i : string) :
  calm w ->
  stored w c ->
  ((exists p, p ∈ providers c /\ id p = i) ->
   exists c' w',
     removeProvider i w = Return true w' /\
     files w' !! CONFIG_FILE = Some (JSON_stringify (ProvidersConfig_to_json c')) /\
     providers c' = filter (fun p => id p <> i) (providers c) /\
     currentProviderId c'
       = (if decide (currentProviderId c = Some i) then None else currentProviderId c) /\
     (reads_back (ProvidersConfig_to_json c') ->
      removeProvider i w' = Return false w')) /\
  ((forall p, p ∈ providers c -> id p <> i) ->
   removeProvider i w = Return false w).
Proof.
  intros Hc Hs. split; [|now apply removeProvider_none].
  intros (p & Hp & Hid).
  set (c' := {| providers := filter (fun p => id p <> i) (providers c);
                currentProviderId :=
                  if decide (currentProviderId c = Some i)
                  then None else currentProviderId c |}).
  set (w' := replaced (providers_tmp (now w)) CONFIG_FILE
               (JSON_stringify (ProvidersConfig_to_json c')) w).
  assert (removeProvider i w = Return true w') as Hrun.
  { unfold removeProvider. rewrite (with_stored_config _ w c Hc Hs). simpl.
    rewrite (proj2 (Nat.ltb_lt _ _)).
    2:{ apply filter_length_lt. exists p. split; [exact Hp|].
        apply negb_false_iff. now apply has_id_true. }
    unfold bind. rewrite saveProviders_calm; [|exact Hc|apply Hs].
    unfold w', c'. rewrite filter_other_ids.
    destruct (decide (currentProviderId c = Some i)) as [Hcur|Hcur].
    - rewrite bool_decide_eq_true_2 by exact Hcur. reflexivity.
    - rewrite bool_decide_eq_false_2 by exact Hcur. now destruct c. }
  exists c', w'. split; [exact Hrun|]. split; [apply replaced_target|].
  split; [reflexivity|]. split; [reflexivity|].
  intros Hback. apply (removeProvider_none w' c').
  - exact Hc.
  - split; [apply Hs|]. exists (ProvidersConfig_to_json c'). split.
    + eexists. split; [apply replaced_target|exact Hback].
    + apply as_ProvidersConfig_to_json.
  - intros q Hq. simpl in Hq. now apply list_elem_of_filter in Hq as [Hq _].
Qed.

End Remove.

Lemma removeProvider_removes_and_clears_witness :
  let first := ProviderStorage.removeProvider (H := SampleRuntime.runtime)
                 "P1" Samples.switch_disk in
  first = Return true (final first) /\
  SampleRuntime.parse
    <$> files (final first) !! ProviderStorage.CONFIG_FILE (H := SampleRuntime.runtime)
  = Some (Some (ProvidersConfig_to_json
                  {| providers := [Samples.P2]; currentProviderId := None |})) /\
  ProviderStorage.removeProvider (H := SampleRuntime.runtime) "P1" (final first)
  = Return false (final first) /\
  ProviderStorage.removeProvider (H := SampleRuntime.runtime) "ghost" Samples.switch_disk
  = Return false Samples.switch_disk.
Proof.
  intros first.
  destruct (removeProvider_removes_and_clears (H := SampleRuntime.runtime)
              Samples.switch_disk Samples.two_providers "P1"
              eq_refl (sample_store_holds _ _ eq_refl eq_refl)) as [Hfound _].
  destruct (removeProvider_removes_and_clears (H := SampleRuntime.runtime)
              Samples.switch_disk Samples.two_providers "ghost"
              eq_refl (sample_store_holds _ _ eq_refl eq_refl)) as [_ Hmissing].
  destruct Hfound as (c' & w' & Hrun & _ & Hps & Hcur & Hagain).
  { exists Samples.P1. split; [apply list_elem_of_here|reflexivity]. }
  assert (c' = {| providers := [Samples.P2]; currentProviderId := None |}) as ->.
  { destruct c' as [ps cur]. simpl in Hps, Hcur. subst ps cur. reflexivity. }
  assert (final first = w') as Hw by (unfold first; now rewrite Hrun).
  rewrite Hw. split; [exact Hrun|]. split.
  - rewrite <- Hw. vm_compute. reflexivity.
  - split.
    + apply Hagain. vm_compute. reflexivity.
    + apply Hmissing. intros p Hp. vm_compute in Hp.
      apply elem_of_cons in Hp as [->|Hp]; [discriminate|].
      apply elem_of_cons in Hp as [->|Hp]; [discriminate|].
      inversion Hp.
Defined.

(** ** Switching *)

Section Switch.
Context `{Runtime}.
Import ClaudeSettings ProviderStorage.

Lemma CLAUDE_SETTINGS_dirname : dirname CLAUDE_SETTINGS_PATH = join homedir [".claude"].
Proof.
  unfold CLAUDE_SETTINGS_PATH, dirname, join.
  change [".claude"; "settings.json"] with ([".claude"] ++ ["settings.json"]).
  now rewrite app_assoc, removelast_last.
Qed.

Lemma stores_apart : CONFIG_FILE <> CLAUDE_SETTINGS_PATH.
Proof.
  unfold CONFIG_FILE, CONFIG_DIR, CLAUDE_SETTINGS_PATH, join.
  rewrite <- app_assoc. intros Heq. apply app_inv_head in Heq. discriminate.
Qed.

Lemma settings_tmp_apart t : CONFIG_FILE <> settings_tmp t.
Proof.
  unfold settings_tmp. rewrite CLAUDE_SETTINGS_dirname.
  unfold CONFIG_FILE, CONFIG_DIR, join. rewrite <- !app_assoc.
  intros Heq. apply app_inv_head in Heq. discriminate.
Qed.

Lemma alter_insert {A} (f : A -> A) (l : list A) (k : nat) (x : A) :
  l !! k = Some x -> alter f k l = <[k := f x]> l.
Proof.
  revert k. induction l as [|a l IH]; intros [|k] Hk; try discriminate.
  - now inversion Hk.
  - simpl. f_equal. now apply IH.
Qed.

(** What [switchProvider] does once the configuration [c'] to persist is
    settled: one atomic write of the store, then one of the live file. *)
Lemma persist_then_overwrite (w : World) (c' : ProvidersConfig) (k : nat) (target : Provider) :
  calm w ->
  is_dir w CONFIG_DIR = true ->
  is_dir w (dirname CLAUDE_SETTINGS_PATH) = true ->
  providers c' !! k = Some target ->
  exists w',
    (saveProviders c' ;;;
     match providers c' !! k with
     | None => throw TypeError
     | Some target => writeLiveSnapshot (settingsConfig target) ;;; ret target
     end) w = Return target w' /\
    files w' !! CONFIG_FILE = Some (JSON_stringify (ProvidersConfig_to_json c')) /\
    files w' !! CLAUDE_SETTINGS_PATH = Some (JSON_stringify (settingsConfig target)) /\
    log w' = log w ++
      [(SysWriteFile (providers_tmp (now w))
          (JSON_stringify (ProvidersConfig_to_json c')), true);
       (SysRename (providers_tmp (now w)) CONFIG_FILE, true);
       (SysWriteFile (settings_tmp (now w + hd 0 (ticks w)))
          (JSON_stringify (settingsConfig target)), true);
       (SysRename (settings_tmp (now w + hd 0 (ticks w))) CLAUDE_SETTINGS_PATH, true)].
Proof.
  intros Hc Hd Hs Hk. unfold bind at 1. rewrite (saveProviders_calm c' w Hc Hd).
  rewrite Hk. unfold bind.
  rewrite writeLiveSnapshot_calm; [|exact Hc|exact Hs].
  eexists. split; [reflexivity|]. split; [|split].
  - rewrite replaced_other; [apply replaced_target | apply stores_apart |
                             apply settings_tmp_apart].
  - apply replaced_target.
  - simpl. now rewrite <- app_assoc.
Qed.

(** *** What a switch that fails leaves behind *)

Lemma keeps_ret {A} q (a : A) : keeps q (ret a).
Proof. intros w. reflexivity. Qed.

Lemma keeps_throw {A} q e : keeps q (@throw A e).
Proof. intros w. reflexivity. Qed.

Lemma keeps_bind {A B} q (m : io A) (k : A -> io B) :
  keeps q m -> (forall a, keeps q (k a)) -> keeps q (bind m k).
Proof.
  intros Hm Hk w. unfold bind. specialize (Hm w).
  destruct (m w) as [a w1|e w1]; simpl in *; [|exact Hm].
  now rewrite Hk.
Qed.

Lemma keeps_all {A} (m : io A) q : (forall w, files (final (m w)) = files w) -> keeps q m.
Proof. intros Hm w. now rewrite Hm. Qed.

Lemma bind_throw {A B} (m : io A) (k : A -> io B) w e w' :
  bind m k w = Throw e w' ->
  m w = Throw e w' \/ exists a w1, m w = Return a w1 /\ k a w1 = Throw e w'.
Proof.
  unfold bind. destruct (m w) as [a w1|e1 w1]; intros Hk; [right; eauto|left; now inversion Hk].
Qed.

Lemma writeFile_keeps p data q : q <> p -> keeps q (writeFile p data).
Proof.
  intros Hq w. destruct (writeFile p data w) as [[] w1|e w1] eqn:Hw; simpl.
  - eapply writeFile_return; eauto.
  - eapply writeFile_throw; eauto.
Qed.

Lemma rename_keeps src dst q : q <> src -> q <> dst -> keeps q (rename src dst).
Proof.
  intros Hs Hd w. unfold rename. destruct (next_fault_keeps w) as (Hf & _ & _).
  destruct (next_fault w) as [[flt|] w0]; simpl in *; [now rewrite Hf|].
  destruct (files w0 !! src); [destruct (is_dir w0 (dirname dst))|]; simpl;
    rewrite ?lookup_insert_ne, ?lookup_delete_ne by auto; now rewrite Hf.
Qed.

Lemma unlink_keeps p q : q <> p -> keeps q (unlink p).
Proof.
  intros Hq w. destruct (unlink_effect p w) as (ok & _ & _ & Hrest). now apply Hrest.
Qed.

(** An atomic write touches its target and its temporary path only. *)
Lemma guarded_write_keeps tmp p data q :
  q <> p -> q <> tmp ->
  keeps q
    (try_catch
       (writeFile tmp data ;;; rename tmp p)
       (fun error =>
          try_catch
            (present <- existsSync tmp ;;
             if present then unlink tmp else ret tt)
            (fun _ => ret tt) ;;;
          throw error)).
Proof.
  intros Hp Ht w. unfold try_catch at 1.
  assert (keeps q (writeFile tmp data ;;; rename tmp p)) as Hsteps.
  { apply keeps_bind; [now apply writeFile_keeps|]. intros _. now apply rename_keeps. }
  specialize (Hsteps w).
  destruct ((writeFile tmp data;;; rename tmp p) w) as [[] w1|e w1]; simpl in *;
    [exact Hsteps|].
  rewrite <- Hsteps. unfold bind at 1, try_catch, bind, existsSync, throw, ret.
  destruct (is_file w1 tmp || is_dir w1 tmp); [|reflexivity].
  pose proof (unlink_keeps tmp q Ht w1) as Hu.
  destruct (unlink tmp w1) as [[] w2|e2 w2]; exact Hu.
Qed.

Lemma settings_apart_from_providers_tmp t : CLAUDE_SETTINGS_PATH <> providers_tmp t.
Proof.
  unfold providers_tmp. rewrite CONFIG_FILE_dirname.
  unfold CLAUDE_SETTINGS_PATH, CONFIG_DIR, join. rewrite <- !app_assoc.
  intros Heq. apply app_inv_head in Heq. discriminate.
Qed.

Lemma saveProviders_keeps_live c : keeps CLAUDE_SETTINGS_PATH (saveProviders c).
Proof.
  unfold saveProviders. apply keeps_bind.
  - apply keeps_all, ensureConfigDir_files.
  - intros _. unfold ProviderStorage.atomicWrite. apply keeps_bind.
    + intros w. reflexivity.
    + intros t. apply guarded_write_keeps.
      * apply not_eq_sym, stores_apart.
      * apply (settings_apart_from_providers_tmp t).
Qed.

Lemma backfillCurrentProvider_keeps c q : keeps q (backfillCurrentProvider c).
Proof.
  unfold backfillCurrentProvider.
  destruct (unset (currentProviderId c)); [apply keeps_ret|].
  destruct (find_ref _ _); [|apply keeps_ret].
  apply keeps_bind; [apply keeps_all, loadClaudeSettings_files|].
  intros live. destruct (negb (truthy live)); apply keeps_ret.
Qed.

Lemma typed_keeps {A} (dec : json -> option A) v q : keeps q (typed dec v).
Proof. unfold typed. destruct (dec v); [apply keeps_ret|apply keeps_throw]. Qed.

(** X6. Whenever [switchProvider] throws, under any plan of failures and on
    any store, the live settings file is as it was: a failure to load, to
    find the target or to persist the configuration comes before the live
    file is touched, and a failed write of the live file itself leaves it
    unchanged. *)
Lemma switchProvider_failure_keeps_live (i : string) (w w' : World) (e : error) :
  switchProvider i w = Throw e w' ->
  files w' !! CLAUDE_SETTINGS_PATH = files w !! CLAUDE_SETTINGS_PATH.
Proof.
  unfold switchProvider. intros Hthrow.
  apply bind_throw in Hthrow as [Hload|(parsed & w1 & Hload & Hthrow)];
    pose proof (loadProviders_files w) as Hfiles; rewrite Hload in Hfiles;
    simpl in Hfiles; [now rewrite Hfiles|].
  rewrite <- Hfiles. clear Hload Hfiles w.
  apply bind_throw in Hthrow as [Htyped|(c & w2 & Htyped & Hthrow)];
    pose proof (typed_keeps as_ProvidersConfig parsed CLAUDE_SETTINGS_PATH w1) as Hk;
    rewrite Htyped in Hk; simpl in Hk; [exact Hk|].
  rewrite <- Hk. clear Htyped Hk w1 parsed.
  destruct (find_ref (has_id i) (providers c)) as [target|];
    [|now inversion Hthrow].
  apply bind_throw in Hthrow as [Hback|(c' & w3 & Hback & Hthrow)].
  - destruct (_ && _) in Hback; [|discriminate].
    pose proof (backfillCurrentProvider_keeps c CLAUDE_SETTINGS_PATH w2) as Hb.
    now rewrite Hback in Hb.
  - assert (files w3 !! CLAUDE_SETTINGS_PATH = files w2 !! CLAUDE_SETTINGS_PATH) as <-.
    { destruct (_ && _) in Hback.
      - pose proof (backfillCurrentProvider_keeps c CLAUDE_SETTINGS_PATH w2) as Hb.
        now rewrite Hback in Hb.
      - now inversion Hback. }
    clear Hback.
    apply bind_throw in Hthrow as [Hsave|([] & w4 & Hsave & Hthrow)];
      pose proof (saveProviders_keeps_live (set_currentProviderId (Some i) c') w3) as Hs;
      rewrite Hsave in Hs; simpl in Hs; [exact Hs|].
    rewrite <- Hs.
    destruct (providers (set_currentProviderId (Some i) c') !! target) as [t|];
      [|now inversion Hthrow].
    apply bind_throw in Hthrow as [Hlive|([] & w5 & _ & Hret)]; [|discriminate].
    now apply saveClaudeSettings_failure_keeps_file in Hlive.
Qed.

(** C1. While [P1] is current and another stored provider [P2] is the
    target, [switchProvider] succeeds and returns [P2], having issued
    exactly four mutating calls in this order: the write and the rename
    that persist the whole configuration, then the write and the rename
    that replace the live file. If the live file held a JSON object (or
    any truthy value) [live], the persisted configuration has [live] as
    [P1]'s [settingsConfig], everything else of [P1] and every other
    provider as before, and [P2]'s id as [currentProviderId]; if nothing
    is at the live file's path, the persisted providers are unchanged.
    Either way the live file ends up holding [P2]'s [settingsConfig].
    Preconditions: no system call fails, [~/.claude] exists, the current
    id is a non-empty string (as generated ids are; the empty string
    counts as no current provider), and a live file that is present holds
    a truthy JSON value, as every settings object is. *)
Theorem switchProvider_backfills_then_overwrites
    (w : World) (c : ProvidersConfig) (cur i : string)
    (k1 k2 : nat) (P1 P2 : Provider) :
  calm w ->
  stored w c ->
  is_dir w (dirname CLAUDE_SETTINGS_PATH) = true ->
  currentProviderId c = Some cur ->
  cur <> "" ->
  cur <> i ->
  first_with_id c cur k1 P1 ->
  first_with_id c i k2 P2 ->
  let outcome (ps : list Provider) : Prop :=
    let c' := {| providers := ps; currentProviderId := Some i |} in
    exists w',
      switchProvider i w = Return P2 w' /\
      files w' !! CONFIG_FILE = Some (JSON_stringify (ProvidersConfig_to_json c')) /\
      files w' !! CLAUDE_SETTINGS_PATH = Some (JSON_stringify (settingsConfig P2)) /\
      log w' = log w ++
        [(SysWriteFile (providers_tmp (now w))
            (JSON_stringify (ProvidersConfig_to_json c')), true);
         (SysRename (providers_tmp (now w)) CONFIG_FILE, true);
         (SysWriteFile (settings_tmp (now w + hd 0 (ticks w)))
            (JSON_stringify (settingsConfig P2)), true);
         (SysRename (settings_tmp (now w + hd 0 (ticks w))) CLAUDE_SETTINGS_PATH, true)]
  in
  (forall live,
     holds w CLAUDE_SETTINGS_PATH live -> truthy live = true ->
     outcome (<[k1 := {| id := id P1; name := name P1; settingsConfig := live;
                         description := description P1; category := category P1;
                         createdAt := createdAt P1; icon := icon P1;
                         iconColor := iconColor P1 |}]> (providers c))) /\
  (absent w CLAUDE_SETTINGS_PATH -> outcome (providers c)).
Proof.
  intros Hc Hs Hd Hcur Hne Hdiff H1 H2 outcome.
  change (forall live,
            holds w CLAUDE_SETTINGS_PATH live -> truthy live = true ->
            outcome (<[k1 := set_settingsConfig live P1]> (providers c)))
    with (forall live,
            holds w CLAUDE_SETTINGS_PATH live -> truthy live = true ->
            outcome (<[k1 := {| id := id P1; name := name P1; settingsConfig := live;
                                description := description P1; category := category P1;
                                createdAt := createdAt P1; icon := icon P1;
                                iconColor := iconColor P1 |}]> (providers c))).
  pose proof (first_with_id_find _ _ _ _ H1) as Hf1.
  pose proof (first_with_id_find _ _ _ _ H2) as Hf2.
  destruct H1 as (Hk1 & Hid1 & _). destruct H2 as (Hk2 & Hid2 & _).
  assert (k1 <> k2) as Hk by (intros ->; congruence).
  assert (unset (currentProviderId c) = false) as Hset.
  { rewrite Hcur. simpl. now apply String.eqb_neq. }
  assert (forall backfilled,
            backfillCurrentProvider c w = Return backfilled w ->
            switchProvider i w =
              (config <- ret backfilled ;;
               saveProviders (set_currentProviderId (Some i) config) ;;;
               match providers (set_currentProviderId (Some i) config) !! k2 with
               | None => throw TypeError
               | Some target => writeLiveSnapshot (settingsConfig target) ;;; ret target
               end) w) as Hswitch.
  { intros backfilled Hb. unfold switchProvider.
    rewrite (with_stored_config _ w c Hc Hs). rewrite Hf2, Hset, Hcur.
    rewrite bool_decide_eq_false_2 by congruence. simpl.
    unfold bind at 1. rewrite Hb. reflexivity. }
  split.
  - intros live (content & Hfile & Hparse) Htruthy. unfold outcome.
    rewrite (Hswitch
               (set_providers (<[k1 := set_settingsConfig live P1]> (providers c)) c)).
    + apply persist_then_overwrite; try assumption; [apply Hs|].
      simpl. now rewrite list_lookup_insert_ne.
    + unfold backfillCurrentProvider. rewrite Hset, Hcur. simpl. rewrite Hf1.
      unfold bind, readLiveSettings.
      rewrite (loadClaudeSettings_present w content Hc Hfile), Hparse, Htruthy.
      simpl. now rewrite (alter_insert _ _ _ _ Hk1).
  - intros Habs. unfold outcome.
    rewrite (Hswitch c).
    + apply persist_then_overwrite; try assumption; apply Hs.
    + unfold backfillCurrentProvider. rewrite Hset, Hcur. simpl. rewrite Hf1.
      unfold bind, readLiveSettings.
      now rewrite (loadClaudeSettings_absent w Habs).
Qed.

(** C9. When the target is already the current provider, [switchProvider]
    reads nothing back from the live file: whatever that file held, edits
    made by hand included, the configuration persisted is the stored one
    unchanged, and the live file is overwritten with the target's stored
    [settingsConfig]. *)
Theorem switchProvider_to_current_discards_live_edits
    (w : World) (c : ProvidersConfig) (i : string) (k : nat) (P : Provider) :
  calm w ->
  stored w c ->
  is_dir w (dirname CLAUDE_SETTINGS_PATH) = true ->
  currentProviderId c = Some i ->
  first_with_id c i k P ->
  exists w',
    switchProvider i w = Return P w' /\
    files w' !! CONFIG_FILE = Some (JSON_stringify (ProvidersConfig_to_json c)) /\
    files w' !! CLAUDE_SETTINGS_PATH = Some (JSON_stringify (settingsConfig P)) /\
    log w' = log w ++
      [(SysWriteFile (providers_tmp (now w))
          (JSON_stringify (ProvidersConfig_to_json c)), true);
       (SysRename (providers_tmp (now w)) CONFIG_FILE, true);
       (SysWriteFile (settings_tmp (now w + hd 0 (ticks w)))
          (JSON_stringify (settingsConfig P)), true);
       (SysRename (settings_tmp (now w + hd 0 (ticks w))) CLAUDE_SETTINGS_PATH, true)].
Proof.
  intros Hc Hs Hd Hcur Hfirst.
  pose proof (first_with_id_find _ _ _ _ Hfirst) as Hfind.
  destruct Hfirst as (Hk & _ & _).
  unfold switchProvider. rewrite (with_stored_config _ w c Hc Hs). rewrite Hfind, Hcur.
  rewrite bool_decide_eq_true_2 by reflexivity. rewrite andb_false_r.
  unfold bind at 1, ret.
  replace (set_currentProviderId (Some i) c) with c
    by (destruct c; simpl in *; now subst).
  apply persist_then_overwrite; try assumption. apply Hs.
Qed.

End Switch.

Lemma sample_first_P1 : first_with_id Samples.two_providers "P1" 0 Samples.P1.
Proof. split; [reflexivity|]. split; [reflexivity|]. intros j q Hj. lia. Defined.

Lemma sample_first_P2 : first_with_id Samples.two_providers "P2" 1 Samples.P2.
Proof.
  split; [reflexivity|]. split; [reflexivity|].
  intros [|j] q Hj Hq; [|lia]. inversion Hq. discriminate.
Defined.

Lemma switchProvider_backfills_then_overwrites_witness :
  let run w := ProviderStorage.switchProvider (H := SampleRuntime.runtime) "P2" w in
  let store w := SampleRuntime.parse
    <$> files w !! ProviderStorage.CONFIG_FILE (H := SampleRuntime.runtime) in
  let live w := SampleRuntime.parse
    <$> files w !! ClaudeSettings.CLAUDE_SETTINGS_PATH (H := SampleRuntime.runtime) in
  (run Samples.switch_disk = Return Samples.P2 (final (run Samples.switch_disk)) /\
   store (final (run Samples.switch_disk))
   = Some (Some (ProvidersConfig_to_json
                   {| providers :=
                        [{| id := "P1"; name := "work";
                            settingsConfig :=
                              JObj [("env", JObj [("TOKEN", JStr "old");
                                                  ("EXTRA", JStr "user-edit")])];
                            description := Some "work account"; category := Some api;
                            createdAt := Some 1699999990000;
                            icon := None; iconColor := None |};
                         Samples.P2];
                      currentProviderId := Some "P2" |})) /\
   live (final (run Samples.switch_disk)) = Some (Some (settingsConfig Samples.P2))) /\
  (run Samples.no_live_disk = Return Samples.P2 (final (run Samples.no_live_disk)) /\
   store (final (run Samples.no_live_disk))
   = Some (Some (ProvidersConfig_to_json
                   {| providers := [Samples.P1; Samples.P2];
                      currentProviderId := Some "P2" |})) /\
   live (final (run Samples.no_live_disk)) = Some (Some (settingsConfig Samples.P2))).
Proof.
  intros run store live.
  destruct (switchProvider_backfills_then_overwrites (H := SampleRuntime.runtime)
              Samples.switch_disk Samples.two_providers "P1" "P2" 0 1
              Samples.P1 Samples.P2 eq_refl (sample_store_holds _ _ eq_refl eq_refl) eq_refl eq_refl
              ltac:(discriminate) ltac:(discriminate)
              sample_first_P1 sample_first_P2) as [Hlive _].
  destruct (switchProvider_backfills_then_overwrites (H := SampleRuntime.runtime)
              Samples.no_live_disk Samples.two_providers "P1" "P2" 0 1
              Samples.P1 Samples.P2 eq_refl (sample_store_holds _ _ eq_refl eq_refl) eq_refl eq_refl
              ltac:(discriminate) ltac:(discriminate)
              sample_first_P1 sample_first_P2) as [_ Habsent].
  split.
  - destruct (Hlive Samples.edited_live) as (w' & Hrun & _).
    + exists (SampleRuntime.stringify Samples.edited_live).
      split; vm_compute; reflexivity.
    + reflexivity.
    + split; [unfold run; now rewrite Hrun|]. split; vm_compute; reflexivity.
  - destruct Habsent as (w' & Hrun & _).
    + split; vm_compute; reflexivity.
    + split; [unfold run; now rewrite Hrun|]. split; vm_compute; reflexivity.
Defined.

Lemma switchProvider_to_current_discards_live_edits_witness :
  let run := ProviderStorage.switchProvider (H := SampleRuntime.runtime)
               "P1" Samples.switch_disk in
  run = Return Samples.P1 (final run) /\
  SampleRuntime.parse
    <$> files (final run) !! ProviderStorage.CONFIG_FILE (H := SampleRuntime.runtime)
  = Some (Some (ProvidersConfig_to_json Samples.two_providers)) /\
  SampleRuntime.parse
    <$> files (final run) !! ClaudeSettings.CLAUDE_SETTINGS_PATH (H := SampleRuntime.runtime)
  = Some (Some (settingsConfig Samples.P1)).
Proof.
  intros run.
  destruct (switchProvider_to_current_discards_live_edits (H := SampleRuntime.runtime)
              Samples.switch_disk Samples.two_providers "P1" 0 Samples.P1
              eq_refl (sample_store_holds _ _ eq_refl eq_refl) eq_refl eq_refl sample_first_P1)
    as (w' & Hrun & _).
  split; [unfold run; now rewrite Hrun|]. split; vm_compute; reflexivity.
Defined.

(** ** Lookups and capture *)

Section Lookups.
Context `{Runtime}.
Import ClaudeSettings ProviderStorage.

(** A current id that matches no stored provider is tolerated:
    [getCurrentProvider] answers [undefined]. *)
Lemma getCurrentProvider_dangling (w : World) (c : ProvidersConfig) (cur : string) :
  calm w -> stored w c ->
  currentProviderId c = Some cur ->
  (forall p, p ∈ providers c -> id p <> cur) ->
  getCurrentProvider w = Return None w.
Proof.
  intros Hc Hs Hcur Hnone. unfold getCurrentProvider.
  rewrite (with_stored_config _ w c Hc Hs), Hcur. simpl.
  destruct (String.eqb cur ""); [reflexivity|].
  now rewrite (no_id_find c cur Hnone).
Qed.

(** [getProviderByName] answers the first provider of that name. *)
Lemma getProviderByName_first (w : World) (c : ProvidersConfig) (n : string)
    (k : nat) (p : Provider) :
  calm w -> stored w c ->
  providers c !! k = Some p -> name p = n ->
  (forall j q, (j < k)%nat -> providers c !! j = Some q -> name q <> n) ->
  getProviderByName n w = Return (Some p) w.
Proof.
  intros Hc Hs Hk Hn Hfirst. unfold getProviderByName.
  rewrite (with_stored_config _ w c Hc Hs).
  replace (find_ref (has_name n) (providers c)) with (Some k).
  - simpl. now rewrite Hk.
  - symmetry. apply find_ref_Some. exists p. split; [exact Hk|].
    split; [now apply String.eqb_eq|].
    intros j q Hj Hq. apply String.eqb_neq. eauto.
Qed.

(** With no live settings file, nothing is captured and nothing is
    written. *)
Lemma captureCurrentAsProvider_absent (w : World) n d cat :
  absent w CLAUDE_SETTINGS_PATH ->
  captureCurrentAsProvider n d cat w = Return None w.
Proof.
  intros Habs. unfold captureCurrentAsProvider, bind, readLiveSettings.
  now rewrite (loadClaudeSettings_absent w Habs).
Qed.

End Lookups.

(** ** Generated names: ids and temporary files *)

Section Names.
Context `{Runtime}.
Import ClaudeSettings ProviderStorage.

(** Distinct clock readings give distinct temporary names. *)
Lemma providers_tmpName_inj t1 t2 :
  ProviderStorage.tmpName t1 = ProviderStorage.tmpName t2 -> t1 = t2.
Proof.
  unfold ProviderStorage.tmpName. intros Heq.
  apply (inj (String.append ".providers.json.tmp.")) in Heq.
  now apply (inj pretty) in Heq.
Qed.

Lemma settings_tmpName_inj t1 t2 :
  ClaudeSettings.tmpName t1 = ClaudeSettings.tmpName t2 -> t1 = t2.
Proof.
  unfold ClaudeSettings.tmpName. intros Heq.
  apply (inj (String.append ".settings.json.tmp.")) in Heq.
  now apply (inj pretty) in Heq.
Qed.

(** The two stores never pick the same temporary name. *)
Lemma tmpName_stores_apart t1 t2 :
  ProviderStorage.tmpName t1 <> ClaudeSettings.tmpName t2.
Proof. discriminate. Qed.

(** C7 (as the code behaves). The temporary name is the clock reading
    alone: two atomic writes to the same store between which the clock
    does not advance by a millisecond both succeed, and both go through
    the same temporary path. *)
Theorem atomicWrite_reuses_temporary_name (p : path) (d1 d2 : string) (w : World) :
  calm w ->
  is_dir w (dirname p) = true ->
  hd 0 (ticks w) = 0 ->
  (exists w1 w2 tmp,
     ProviderStorage.atomicWrite p d1 w = Return tt w1 /\
     ProviderStorage.atomicWrite p d2 w1 = Return tt w2 /\
     log w2 = log w ++ [(SysWriteFile tmp d1, true); (SysRename tmp p, true);
                        (SysWriteFile tmp d2, true); (SysRename tmp p, true)]) /\
  (exists w1 w2 tmp,
     ClaudeSettings.atomicWrite p d1 w = Return tt w1 /\
     ClaudeSettings.atomicWrite p d2 w1 = Return tt w2 /\
     log w2 = log w ++ [(SysWriteFile tmp d1, true); (SysRename tmp p, true);
                        (SysWriteFile tmp d2, true); (SysRename tmp p, true)]).
Proof.
  intros Hc Hd Htick; split; do 3 eexists;
    (split; [first [now apply providers_atomicWrite_calm
                   |now apply settings_atomicWrite_calm]|]);
    (split; [first [now apply providers_atomicWrite_calm
                   |now apply settings_atomicWrite_calm]|]);
    simpl; rewrite Htick, Z.add_0_r, <- app_assoc; reflexivity.
Qed.

(** *** What the id scheme does tell apart *)

Lemma pretty_N_go_dash_free (x : N) (s : string) :
  dash_free s -> dash_free (pretty_N_go x s).
Proof.
  revert s. induction (N.lt_wf_0 x) as [x _ IH]; intros s Hs.
  destruct (decide (0 < x)%N) as [Hx|Hx].
  - rewrite pretty_N_go_step by exact Hx. apply IH.
    + apply N.div_lt; lia.
    + split; [|exact Hs]. unfold pretty_N_char. repeat case_match; discriminate.
  - replace x with 0%N by lia. now rewrite pretty_N_go_0.
Qed.

(** The decimal rendering of a clock reading has no dash in it. *)
Lemma pretty_Z_dash_free (t : Z) : 0 <= t -> dash_free (pretty t).
Proof.
  destruct t as [|q|q]; intros Ht; [simpl; split; [discriminate|exact I]| |lia].
  unfold pretty, pretty_Z, pretty, pretty_positive, pretty, pretty_N.
  destruct (decide (N.pos q = 0%N)); [discriminate|].
  now apply pretty_N_go_dash_free.
Qed.

Lemma dash_splits (a b x y : string) :
  dash_free a -> dash_free b ->
  a +:+ "-" +:+ x = b +:+ "-" +:+ y -> a = b /\ x = y.
Proof.
  revert b. induction a as [|c a IH]; intros [|d b] Ha Hb Heq; simpl in *.
  - now inversion Heq.
  - inversion Heq; subst. now destruct Hb.
  - inversion Heq; subst. now destruct Ha.
  - inversion Heq; subst. destruct Ha as [_ Ha], Hb as [_ Hb].
    destruct (IH b Ha Hb) as [-> ->]; auto.
Qed.

Lemma generateId_returns w :
  returned (generateId w)
  = Some (pretty (now w) +:+ "-" +:+ slice 2 9 (hd "0" (rnd w))).
Proof. reflexivity. Qed.

(** Two generated ids are equal exactly when the clock readings are equal
    and the random draws agree on the seven digits kept. *)
Lemma generated_ids_equal_iff (t1 t2 : Z) (r1 r2 : string) :
  0 <= t1 -> 0 <= t2 ->
  pretty t1 +:+ "-" +:+ slice 2 9 r1 = pretty t2 +:+ "-" +:+ slice 2 9 r2
  <-> t1 = t2 /\ slice 2 9 r1 = slice 2 9 r2.
Proof.
  intros H1 H2. split.
  - intros Heq. apply dash_splits in Heq as [Ht Hr];
      try now apply pretty_Z_dash_free.
    split; [now apply (inj pretty)|exact Hr].
  - now intros [-> ->].
Qed.

(** A generated id is never the empty string. *)
Lemma generateId_nonempty w i : returned (generateId w) = Some i -> i <> "".
Proof.
  rewrite generateId_returns. intros [= <-].
  destruct (pretty (now w)); discriminate.
Qed.

(** [addProvider] on a stored configuration, with no failure. *)
Lemma addProvider_calm (n : NewProvider) (w : World) (c : ProvidersConfig) :
  calm w -> stored w c ->
  let p := created n (pretty (now w) +:+ "-" +:+ slice 2 9 (hd "0" (rnd w)))
             (now w + hd 0 (ticks w)) in
  exists w',
    addProvider n w = Return p w' /\
    files w' !! CONFIG_FILE
      = Some (JSON_stringify
                (ProvidersConfig_to_json (set_providers (providers c ++ [p]) c))) /\
    calm w' /\ is_dir w' CONFIG_DIR = true /\
    (ticks w = [] -> now w' = now w /\ ticks w' = []) /\
    rnd w' = tl (rnd w).
Proof.
  intros Hc Hs p. unfold addProvider. rewrite (with_stored_config _ w c Hc Hs).
  unfold generateId, bind, Date_now, Math_random_toString36, ret.
  rewrite saveProviders_calm; [|exact Hc|apply Hs].
  eexists. split; [reflexivity|]. split; [apply replaced_target|].
  split; [exact Hc|]. split; [apply Hs|]. split; [|reflexivity].
  simpl. intros ->. simpl. split; [lia|reflexivity].
Qed.

(** C6 (as the code behaves). An id is the clock reading followed by
    seven base-36 digits of one random draw. Two [addProvider] calls made
    within the same millisecond, whose draws [r1] and [r2] agree on those
    seven digits, both succeed and hand out the same id: the store then
    holds two providers with one id. *)
Theorem addProvider_twice_same_id
    (n1 n2 : NewProvider) (w : World) (c : ProvidersConfig)
    (r1 r2 : string) (rest : list string) :
  calm w ->
  stored w c ->
  ticks w = [] ->
  rnd w = r1 :: r2 :: rest ->
  slice 2 9 r1 = slice 2 9 r2 ->
  let p1 := created n1 (pretty (now w) +:+ "-" +:+ slice 2 9 r1) (now w) in
  let p2 := created n2 (pretty (now w) +:+ "-" +:+ slice 2 9 r2) (now w) in
  reads_back (ProvidersConfig_to_json (set_providers (providers c ++ [p1]) c)) ->
  exists w1 w2,
    addProvider n1 w = Return p1 w1 /\
    addProvider n2 w1 = Return p2 w2 /\
    id p1 = id p2 /\
    files w2 !! CONFIG_FILE
      = Some (JSON_stringify
                (ProvidersConfig_to_json
                   (set_providers (providers c ++ [p1; p2]) c))).
Proof.
  intros Hc Hs Hticks Hrnd Hslice p1 p2 Hback.
  destruct (addProvider_calm n1 w c Hc Hs)
    as (w1 & Hrun1 & Hfile1 & Hc1 & Hd1 & Hclock1 & Hrnd1).
  destruct (Hclock1 Hticks) as [Hnow1 Hticks1].
  rewrite Hticks, Hrnd in Hrun1, Hfile1. simpl in Hrun1, Hfile1.
  rewrite Z.add_0_r in Hrun1, Hfile1. fold p1 in Hrun1, Hfile1.
  assert (stored w1 (set_providers (providers c ++ [p1]) c)) as Hs1.
  { split; [exact Hd1|]. eexists. split.
    - eexists. split; [exact Hfile1|apply Hback].
    - apply as_ProvidersConfig_to_json. }
  destruct (addProvider_calm n2 w1 _ Hc1 Hs1) as (w2 & Hrun2 & Hfile2 & _).
  rewrite Hnow1, Hticks1, Hrnd1, Hrnd in Hrun2, Hfile2. simpl in Hrun2, Hfile2.
  rewrite Z.add_0_r in Hrun2, Hfile2. fold p2 in Hrun2, Hfile2.
  exists w1, w2. split; [exact Hrun1|]. split; [exact Hrun2|]. split.
  - simpl. now rewrite Hslice.
  - rewrite Hfile2. unfold set_providers. simpl. now rewrite <- app_assoc.
Qed.

End Names.

Lemma atomicWrite_reuses_temporary_name_witness :
  let target := ProviderStorage.CONFIG_FILE (H := SampleRuntime.runtime) in
  let first := ProviderStorage.atomicWrite target "{ }" Samples.switch_disk in
  let second := ProviderStorage.atomicWrite target "[ ]" (final first) in
  map fst (log (final second))
  = [SysWriteFile ["home"; "user"; ".cc"; ".providers.json.tmp.1700000000000"] "{ }";
     SysRename ["home"; "user"; ".cc"; ".providers.json.tmp.1700000000000"] target;
     SysWriteFile ["home"; "user"; ".cc"; ".providers.json.tmp.1700000000000"] "[ ]";
     SysRename ["home"; "user"; ".cc"; ".providers.json.tmp.1700000000000"] target].
Proof.
  intros target first second.
  destruct (atomicWrite_reuses_temporary_name target "{ }" "[ ]" Samples.switch_disk
              eq_refl eq_refl eq_refl) as [(w1 & w2 & tmp & H1 & H2 & _) _].
  vm_compute. reflexivity.
Defined.

Lemma addProvider_twice_same_id_witness :
  let first := ProviderStorage.addProvider (H := SampleRuntime.runtime)
                 Samples.new_work Samples.close_draws_disk in
  let second := ProviderStorage.addProvider (H := SampleRuntime.runtime)
                  Samples.new_lab (final first) in
  exists p1 p2,
    first = Return p1 (final first) /\ second = Return p2 (final second) /\
    id p1 = "1700000000000-4fzyo82" /\ id p2 = "1700000000000-4fzyo82".
Proof.
  intros first second.
  destruct (addProvider_twice_same_id (H := SampleRuntime.runtime)
              Samples.new_work Samples.new_lab Samples.close_draws_disk
              Samples.two_providers "0.4fzyo82mvyr" "0.4fzyo82m01b" []
              eq_refl (sample_store_holds _ _ eq_refl eq_refl) eq_refl eq_refl eq_refl)
    as (w1 & w2 & H1 & H2 & _).
  { vm_compute. reflexivity. }
  assert (final first = w1) as Hw1 by (unfold first; now rewrite H1).
  do 2 eexists. split; [unfold first; rewrite H1; reflexivity|].
  split; [unfold second; rewrite Hw1, H2; reflexivity|].
  split; vm_compute; reflexivity.
Defined.

(** ** Saving and loading, composed *)

Section SaveLoad.
Context `{Runtime}.
Import ClaudeSettings ProviderStorage.

(** Making sure of the directory reads neither clock nor random source. *)
Lemma ensureConfigDir_clock w :
  now (final (ensureConfigDir w)) = now w /\
  ticks (final (ensureConfigDir w)) = ticks w /\
  rnd (final (ensureConfigDir w)) = rnd w.
Proof.
  unfold ensureConfigDir, bind, existsSync.
  destruct (negb (is_file w CONFIG_DIR || is_dir w CONFIG_DIR)); [|auto].
  unfold mkdir_recursive, next_fault.
  destruct (faults w) as [|[flt|] rest]; simpl;
    try destruct (existsb _ _); simpl; auto.
Qed.

Lemma replaced_files tmp p data w :
  files (replaced tmp p data w) = <[p := data]> (delete tmp (files w)).
Proof. simpl. now rewrite delete_insert_eq. Qed.

(** A save of the store that meets no failure, the directory being there
    or not. *)
Lemma saveProviders_creating c w :
  calm w ->
  Forall (fun q => files w !! q = None) (prefixes CONFIG_DIR) ->
  exists w',
    saveProviders c w = Return tt w' /\
    calm w' /\ is_dir w' CONFIG_DIR = true /\
    files w' = <[CONFIG_FILE := JSON_stringify (ProvidersConfig_to_json c)]>
                 (delete (providers_tmp (now w)) (files w)).
Proof.
  intros Hc Hno.
  destruct (ensureConfigDir_calm w Hc Hno) as (w0 & He & Hc0 & Hf0 & Hd0 & _).
  destruct (ensureConfigDir_clock w) as (Hnow & _). rewrite He in Hnow. simpl in Hnow.
  unfold saveProviders, bind. rewrite He.
  rewrite providers_atomicWrite_calm; [|exact Hc0|now rewrite CONFIG_FILE_dirname].
  eexists. split; [reflexivity|]. split; [exact Hc0|]. split; [exact Hd0|].
  rewrite replaced_files, Hf0, Hnow. reflexivity.
Qed.

(** X1. What [saveProviders] writes, [loadProviders] reads: after a save
    of [c] that meets no failure (the store directory being created if it
    was missing), the store holds [c], provided the runtime parses its own
    rendering of [c]. *)
Theorem saveProviders_then_loadProviders (c : ProvidersConfig) (w : World) :
  calm w ->
  Forall (fun q => files w !! q = None) (prefixes CONFIG_DIR) ->
  reads_back (ProvidersConfig_to_json c) ->
  exists w',
    saveProviders c w = Return tt w' /\
    loadProviders w' = Return (ProvidersConfig_to_json c) w' /\
    stored w' c.
Proof.
  intros Hc Hno Hback.
  destruct (saveProviders_creating c w Hc Hno) as (w' & Hsave & Hc' & Hd' & Hfiles).
  assert (files w' !! CONFIG_FILE = Some (JSON_stringify (ProvidersConfig_to_json c)))
    as Hfile by (rewrite Hfiles; apply lookup_insert_eq).
  exists w'. split; [exact Hsave|]. split.
  - rewrite (loadProviders_present w' _ Hc' Hd' Hfile). now rewrite Hback.
  - split; [exact Hd'|]. exists (ProvidersConfig_to_json c). split.
    + eexists. split; [exact Hfile|exact Hback].
    + apply as_ProvidersConfig_to_json.
Qed.

(** The store directory, created with its ancestors when it is missing. *)
Lemma ensureConfigDir_creates w :
  calm w ->
  Forall (fun q => files w !! q = None) (prefixes CONFIG_DIR) ->
  is_dir w CONFIG_DIR = false ->
  ensureConfigDir w
  = Return tt (record (SysMkdir CONFIG_DIR) true
                 (set_dirs (list_to_set (prefixes CONFIG_DIR) ∪ dirs w) w)).
Proof.
  intros Hc Hno Hd. unfold ensureConfigDir, bind, existsSync. rewrite Hd, orb_false_r.
  assert (is_file w CONFIG_DIR = false) as ->.
  { apply bool_decide_eq_false_2. intros [c Hf].
    rewrite Forall_forall in Hno.
    rewrite (Hno CONFIG_DIR) in Hf; [discriminate|].
    apply prefixes_self, CONFIG_DIR_nonempty. }
  simpl. unfold mkdir_recursive. rewrite (next_fault_calm w Hc).
  now rewrite (no_file_among w _ Hno).
Qed.

(** X2. A save that succeeds changes, among the files, its own target
    and nothing else: the temporary file it went through is gone and every
    other file is as before. [saveProviders] succeeds whether or not its
    directory exists (no regular file standing at [~/.cc] or at one of its
    ancestors): the directories are as before when [~/.cc] exists, and
    otherwise [~/.cc] and its ancestors are added to them.
    [saveClaudeSettings] succeeds when [~/.claude] exists and creates no
    directory. *)
Theorem save_leaves_only_its_file (w : World) :
  calm w ->
  (forall c,
     Forall (fun q => files w !! q = None) (prefixes CONFIG_DIR) ->
     exists w',
       saveProviders c w = Return tt w' /\
       files w' = <[CONFIG_FILE := JSON_stringify (ProvidersConfig_to_json c)]>
                    (delete (providers_tmp (now w)) (files w)) /\
       dirs w' = (if is_dir w CONFIG_DIR then dirs w
                  else list_to_set (prefixes CONFIG_DIR) ∪ dirs w)) /\
  (forall settings,
     is_dir w (dirname CLAUDE_SETTINGS_PATH) = true ->
     exists w',
       saveClaudeSettings settings w = Return tt w' /\
       files w' = <[CLAUDE_SETTINGS_PATH := JSON_stringify settings]>
                    (delete (settings_tmp (now w)) (files w)) /\
       dirs w' = dirs w).
Proof.
  intros Hc. split.
  - intros c Hno. destruct (is_dir w CONFIG_DIR) eqn:Hd.
    + eexists. split; [apply (saveProviders_calm c w Hc Hd)|].
      split; [apply replaced_files|reflexivity].
    + unfold saveProviders, bind. rewrite (ensureConfigDir_creates w Hc Hno Hd).
      rewrite providers_atomicWrite_calm.
      * eexists. split; [reflexivity|].
        split; [rewrite replaced_files; reflexivity|reflexivity].
      * exact Hc.
      * rewrite CONFIG_FILE_dirname. unfold is_dir. simpl.
        apply bool_decide_eq_true_2. right.
        apply elem_of_union_l, elem_of_list_to_set, prefixes_self, CONFIG_DIR_nonempty.
  - intros settings Hd. eexists.
    split; [apply (writeLiveSnapshot_calm settings w Hc Hd)|].
    split; [apply replaced_files|reflexivity].
Qed.

Lemma saveClaudeSettings_no_directory (settings : ClaudeSettings) (w : World) :
  calm w ->
  is_dir w (dirname CLAUDE_SETTINGS_PATH) = false ->
  absent w (settings_tmp (now w)) ->
  exists w',
    saveClaudeSettings settings w = Throw (SystemError "ENOENT") w' /\
    files w' = files w /\ dirs w' = dirs w.
Proof.
  intros Hc Hd [Hf Hnd].
  unfold saveClaudeSettings, ClaudeSettings.atomicWrite, bind at 1, Date_now, try_catch.
  unfold bind at 1, writeFile. simpl.
  unfold next_fault. simpl. rewrite Hc. simpl.
  rewrite dirname_join.
  replace (is_dir _ (dirname CLAUDE_SETTINGS_PATH)) with false by (symmetry; exact Hd).
  unfold bind, try_catch, existsSync, is_file. simpl.
  unfold settings_tmp in Hf, Hnd. rewrite Hf.
  rewrite bool_decide_eq_false_2 by (intros [? ?]; discriminate). simpl.
  replace (is_dir _ (join (dirname CLAUDE_SETTINGS_PATH) [ClaudeSettings.tmpName (now w)]))
    with false by (symmetry; exact Hnd).
  eexists. split; [reflexivity|]. split; reflexivity.
Qed.

(** X3. [saveClaudeSettings] does not create its directory: when
    [~/.claude] is missing (and so nothing is at the temporary path), it
    throws [ENOENT] and leaves no file and no directory behind. *)
Theorem saveClaudeSettings_needs_directory (settings : ClaudeSettings) (w : World) :
  calm w ->
  is_dir w (dirname CLAUDE_SETTINGS_PATH) = false ->
  absent w (settings_tmp (now w)) ->
  exists w',
    saveClaudeSettings settings w = Throw (SystemError "ENOENT") w' /\
    files w' = files w /\ dirs w' = dirs w.
Proof. apply saveClaudeSettings_no_directory. Qed.

(** X4. [loadClaudeSettings] treats a missing file as [null] and a
    malformed one as an error, and in neither case changes the world: no
    directory is created, unlike [loadProviders]. *)
Theorem loadClaudeSettings_absent_or_malformed (w : World) :
  (absent w CLAUDE_SETTINGS_PATH -> loadClaudeSettings w = Return JNull w) /\
  (forall content,
     calm w ->
     files w !! CLAUDE_SETTINGS_PATH = Some content ->
     JSON_parse content = None ->
     loadClaudeSettings w = Throw SyntaxError w).
Proof.
  split.
  - apply loadClaudeSettings_absent.
  - intros content Hc Hf Hp. rewrite (loadClaudeSettings_present w content Hc Hf).
    now rewrite Hp.
Qed.

End SaveLoad.

(** ** Switching, in general *)

Section SwitchGeneral.
Context `{Runtime}.
Import ClaudeSettings ProviderStorage.

(** A backfill changes no id. *)
Lemma ids_alter_settings (s : ClaudeSettings) (k : nat) (ps : list Provider) :
  map id (alter (set_settingsConfig s) k ps) = map id ps.
Proof.
  revert k. induction ps as [|p ps IH]; intros [|k]; try reflexivity.
  change (id p :: map id (alter (set_settingsConfig s) k ps) = id p :: map id ps).
  f_equal. apply IH.
Qed.

Lemma first_with_id_alter c i k P s k1 :
  first_with_id c i k P -> k1 <> k ->
  first_with_id (set_providers (alter (set_settingsConfig s) k1 (providers c)) c) i k P.
Proof.
  intros (Hk & Hid & Hfirst) Hne. split; [|split; [exact Hid|]].
  - simpl. now rewrite list_lookup_alter_ne.
  - simpl. intros j q Hj Hq. rewrite list_lookup_alter in Hq.
    destruct (decide (k1 = j)) as [->|_]; [|now apply (Hfirst j q)].
    destruct (providers c !! j) as [q0|] eqn:Hq0; [|discriminate].
    simpl in Hq. inversion Hq; subst. simpl. now apply (Hfirst j q0).
Qed.

Lemma first_with_id_same_providers c c' i k P :
  providers c' = providers c -> first_with_id c i k P -> first_with_id c' i k P.
Proof. unfold first_with_id. now intros ->. Qed.

Lemma first_with_id_apart c i1 i2 k1 k2 P1 P2 :
  first_with_id c i1 k1 P1 -> first_with_id c i2 k2 P2 -> i1 <> i2 -> k1 <> k2.
Proof. intros (H1 & <- & _) (H2 & <- & _) Hne ->. congruence. Qed.

(** The target of a switch is still the first provider of its id in the
    configuration the switch persists. *)
Lemma switched_target c live i k P :
  first_with_id c i k P -> first_with_id (switched c live i) i k P.
Proof.
  intros Hfirst. unfold switched.
  destruct (currentProviderId c) as [cur|];
    [|now apply (first_with_id_same_providers c)].
  destruct (bool_decide (cur = "" \/ cur = i)) eqn:Hcur;
    [now apply (first_with_id_same_providers c)|].
  apply bool_decide_eq_false in Hcur.
  destruct (find_ref (has_id cur) (providers c)) as [k1|] eqn:Hfind;
    [|now apply (first_with_id_same_providers c)].
  destruct (truthy live); [|now apply (first_with_id_same_providers c)].
  apply find_ref_Some in Hfind as (P1 & Hk1 & Hid1 & _). apply has_id_true in Hid1.
  apply (first_with_id_alter c i k P live k1 Hfirst).
  destruct Hfirst as (Hk & Hid & _). intros ->. apply Hcur. right. congruence.
Qed.

Lemma switched_ids c live i : ids (switched c live i) = ids c.
Proof.
  unfold ids, switched. simpl. destruct (currentProviderId c); [|reflexivity].
  destruct (bool_decide _); [reflexivity|]. destruct (find_ref _ _); [|reflexivity].
  destruct (truthy live); [apply ids_alter_settings|reflexivity].
Qed.

(** What the backfill returns when the live settings can be read. *)
Lemma backfill_then_point c live i w :
  calm w -> live_value w live ->
  exists c',
    (if negb (unset (currentProviderId c))
        && negb (bool_decide (currentProviderId c = Some i))
     then backfillCurrentProvider c
     else ret c) w = Return c' w /\
    set_currentProviderId (Some i) c' = switched c live i.
Proof.
  intros Hc Hlive. unfold switched.
  destruct (currentProviderId c) as [cur|] eqn:Hcur; simpl;
    [|exists c; split; reflexivity].
  destruct (String.eqb_spec cur "") as [->|Hne]; simpl.
  { exists c. split; reflexivity. }
  destruct (decide (cur = i)) as [->|Hdiff].
  { rewrite !bool_decide_eq_true_2 by auto. exists c. split; reflexivity. }
  rewrite (bool_decide_eq_false_2 (Some cur = Some i)) by congruence.
  rewrite bool_decide_eq_false_2 by tauto. simpl.
  unfold backfillCurrentProvider. rewrite Hcur. simpl.
  destruct (String.eqb_spec cur ""); [contradiction|].
  destruct (find_ref (has_id cur) (providers c)) as [k1|];
    [|exists c; split; reflexivity].
  unfold bind, readLiveSettings.
  assert (loadClaudeSettings w = Return live w) as ->.
  { destruct Hlive as [[Habs ->]|(content & Hf & Hp)].
    - now apply loadClaudeSettings_absent.
    - rewrite (loadClaudeSettings_present w content Hc Hf). now rewrite Hp. }
  destruct (truthy live); simpl; eexists; split; reflexivity.
Qed.

Lemma persist_then_overwrite_world (w : World) (c' : ProvidersConfig) (k : nat)
    (target : Provider) :
  calm w ->
  is_dir w CONFIG_DIR = true ->
  is_dir w (dirname CLAUDE_SETTINGS_PATH) = true ->
  providers c' !! k = Some target ->
  exists w',
    (saveProviders c' ;;;
     match providers c' !! k with
     | None => throw TypeError
     | Some target => writeLiveSnapshot (settingsConfig target) ;;; ret target
     end) w = Return target w' /\
    calm w' /\ dirs w' = dirs w /\
    files w' !! CONFIG_FILE = Some (JSON_stringify (ProvidersConfig_to_json c')) /\
    files w' !! CLAUDE_SETTINGS_PATH = Some (JSON_stringify (settingsConfig target)).
Proof.
  intros Hc Hd Hs Hk. unfold bind at 1. rewrite (saveProviders_calm c' w Hc Hd).
  rewrite Hk. unfold bind.
  rewrite writeLiveSnapshot_calm; [|exact Hc|exact Hs].
  eexists. split; [reflexivity|]. split; [exact Hc|]. split; [reflexivity|]. split.
  - rewrite replaced_other; [apply replaced_target | apply stores_apart |
                             apply settings_tmp_apart].
  - apply replaced_target.
Qed.

(** A switch that meets no failure, whatever the current provider: it
    returns the target, persists [switched c live i] and overwrites the
    live file with the target's settings. *)
Lemma switchProvider_calm (w : World) (c : ProvidersConfig) (live : json)
    (i : string) (k : nat) (P : Provider) :
  calm w ->
  stored w c ->
  is_dir w (dirname CLAUDE_SETTINGS_PATH) = true ->
  live_value w live ->
  first_with_id c i k P ->
  exists w',
    switchProvider i w = Return P w' /\
    calm w' /\ dirs w' = dirs w /\
    files w' !! CONFIG_FILE
      = Some (JSON_stringify (ProvidersConfig_to_json (switched c live i))) /\
    files w' !! CLAUDE_SETTINGS_PATH = Some (JSON_stringify (settingsConfig P)).
Proof.
  intros Hc Hs Hd Hlive Hfirst.
  destruct (backfill_then_point c live i w Hc Hlive) as (c' & Hback & Hc').
  pose proof (switched_target c live i k P Hfirst) as (Hk' & _).
  unfold switchProvider. rewrite (with_stored_config _ w c Hc Hs).
  rewrite (first_with_id_find _ _ _ _ Hfirst).
  unfold bind at 1. rewrite Hback. rewrite Hc'.
  apply persist_then_overwrite_world; try assumption. apply Hs.
Qed.

(** The store a calm switch leaves holds the configuration it persisted. *)
Lemma stored_after w w' c' :
  calm w' -> is_dir w' CONFIG_DIR = true ->
  files w' !! CONFIG_FILE = Some (JSON_stringify (ProvidersConfig_to_json c')) ->
  reads_back (ProvidersConfig_to_json c') ->
  w = w' -> stored w c'.
Proof.
  intros Hc Hd Hf Hback ->. split; [exact Hd|].
  exists (ProvidersConfig_to_json c'). split.
  - eexists. split; [exact Hf|exact Hback].
  - apply as_ProvidersConfig_to_json.
Qed.

End SwitchGeneral.

(** ** Switching: edges and compositions *)

Section SwitchEdges.
Context `{Runtime}.
Import ClaudeSettings ProviderStorage.

Lemma switched_falsy c live i :
  truthy live = false -> switched c live i = set_currentProviderId (Some i) c.
Proof.
  intros Hfalsy. unfold switched, set_currentProviderId. f_equal.
  destruct (currentProviderId c); [|reflexivity].
  destruct (bool_decide _); [reflexivity|].
  destruct (find_ref _ _); [|reflexivity]. now rewrite Hfalsy.
Qed.

Lemma tmps_apart t1 t2 : settings_tmp t1 <> providers_tmp t2.
Proof.
  unfold settings_tmp, providers_tmp.
  rewrite CLAUDE_SETTINGS_dirname, CONFIG_FILE_dirname.
  unfold CONFIG_DIR, join. rewrite <- !app_assoc.
  intros Heq. apply app_inv_head in Heq. discriminate.
Qed.

(** X5. On a machine where [~/.claude] does not exist, [switchProvider]
    persists the configuration with the target as current, then fails
    with [ENOENT] on the live file, which is not created: the pointer has
    moved although no live settings were written. *)
Theorem switchProvider_without_live_directory
    (w : World) (c : ProvidersConfig) (i : string) (k : nat) (P : Provider) :
  calm w ->
  stored w c ->
  is_dir w (dirname CLAUDE_SETTINGS_PATH) = false ->
  absent w CLAUDE_SETTINGS_PATH ->
  absent w (settings_tmp (now w + hd 0 (ticks w))) ->
  first_with_id c i k P ->
  exists w',
    switchProvider i w = Throw (SystemError "ENOENT") w' /\
    files w' !! CONFIG_FILE
      = Some (JSON_stringify
                (ProvidersConfig_to_json
                   {| providers := providers c; currentProviderId := Some i |})) /\
    files w' !! CLAUDE_SETTINGS_PATH = None.
Proof.
  intros Hc Hs Hd Habs [Htf Htd] Hfirst.
  change {| providers := providers c; currentProviderId := Some i |}
    with (set_currentProviderId (Some i) c).
  destruct (backfill_then_point c JNull i w Hc (or_introl (conj Habs eq_refl)))
    as (c' & Hback & Hc').
  rewrite (switched_falsy c JNull i eq_refl) in Hc'.
  unfold switchProvider. rewrite (with_stored_config _ w c Hc Hs).
  rewrite (first_with_id_find _ _ _ _ Hfirst).
  unfold bind at 1. rewrite Hback, Hc'.
  unfold bind at 1. rewrite saveProviders_calm; [|exact Hc|apply Hs].
  destruct Hfirst as (Hk & _ & _).
  change (providers (set_currentProviderId (Some i) c)) with (providers c).
  rewrite Hk.
  set (w1 := replaced _ _ _ w).
  destruct (saveClaudeSettings_no_directory (settingsConfig P) w1) as (w2 & Hlive & Hf2 & _).
  - exact Hc.
  - exact Hd.
  - split; [|exact Htd]. unfold w1. rewrite replaced_other.
    + exact Htf.
    + apply not_eq_sym, settings_tmp_apart.
    + apply tmps_apart.
  - unfold bind, writeLiveSnapshot. rewrite Hlive.
    exists w2. split; [reflexivity|]. rewrite Hf2. unfold w1. split.
    + apply replaced_target.
    + rewrite replaced_other.
      * apply Habs.
      * apply not_eq_sym, stores_apart.
      * apply settings_apart_from_providers_tmp.
Qed.

(** X7. No backfill takes place, and the live file is not even read
    (it may hold anything), when no provider is current, when the current
    id is the empty string, or when it matches no stored provider; nor
    when the live file holds a falsy JSON value such as [null]. In each
    case the providers are persisted as they were, the target becomes
    current and the live file is overwritten with the target's settings. *)
Theorem switchProvider_skips_backfill
    (w : World) (c : ProvidersConfig) (i : string) (k : nat) (P : Provider) :
  calm w ->
  stored w c ->
  is_dir w (dirname CLAUDE_SETTINGS_PATH) = true ->
  first_with_id c i k P ->
  currentProviderId c = None \/
  currentProviderId c = Some "" \/
  (exists cur, currentProviderId c = Some cur /\
               forall p, p ∈ providers c -> id p <> cur) \/
  (exists live, holds w CLAUDE_SETTINGS_PATH live /\ truthy live = false) ->
  exists w',
    switchProvider i w = Return P w' /\
    files w' !! CONFIG_FILE
      = Some (JSON_stringify
                (ProvidersConfig_to_json
                   {| providers := providers c; currentProviderId := Some i |})) /\
    files w' !! CLAUDE_SETTINGS_PATH = Some (JSON_stringify (settingsConfig P)).
Proof.
  intros Hc Hs Hd Hfirst Hcase.
  change {| providers := providers c; currentProviderId := Some i |}
    with (set_currentProviderId (Some i) c).
  assert (forall m : io ProvidersConfig,
            m w = Return c w ->
            exists w',
              (config <- m ;;
               saveProviders (set_currentProviderId (Some i) config) ;;;
               match providers (set_currentProviderId (Some i) config) !! k with
               | None => throw TypeError
               | Some target => writeLiveSnapshot (settingsConfig target) ;;; ret target
               end) w = Return P w' /\
              files w' !! CONFIG_FILE
                = Some (JSON_stringify
                          (ProvidersConfig_to_json (set_currentProviderId (Some i) c))) /\
              files w' !! CLAUDE_SETTINGS_PATH
                = Some (JSON_stringify (settingsConfig P))) as Hrest.
  { intros m Hm. unfold bind at 1. rewrite Hm.
    destruct (persist_then_overwrite_world w (set_currentProviderId (Some i) c) k P)
      as (w' & Hrun & _ & _ & Hstore & Hlive); try assumption; [apply Hs|apply Hfirst|].
    exists w'. auto. }
  unfold switchProvider. rewrite (with_stored_config _ w c Hc Hs).
  rewrite (first_with_id_find _ _ _ _ Hfirst).
  destruct Hcase as [Hcur|[Hcur|[(cur & Hcur & Hnone)|(live & Hlive & Hfalsy)]]].
  - apply Hrest. now rewrite Hcur.
  - apply Hrest. now rewrite Hcur.
  - apply Hrest. rewrite Hcur.
    destruct (negb (unset (Some cur)) && negb (bool_decide (Some cur = Some i)));
      [|reflexivity].
    unfold backfillCurrentProvider. rewrite Hcur.
    destruct (unset (Some cur)); [reflexivity|]. simpl.
    now rewrite (no_id_find c cur Hnone).
  - destruct (switchProvider_calm w c live i k P Hc Hs Hd (or_intror Hlive) Hfirst)
      as (w' & Hrun & _ & _ & Hstore & Hlivefile).
    unfold switchProvider in Hrun. rewrite (with_stored_config _ w c Hc Hs) in Hrun.
    rewrite (first_with_id_find _ _ _ _ Hfirst) in Hrun.
    rewrite (switched_falsy c live i Hfalsy) in Hstore.
    exists w'. auto.
Qed.

(** The current provider, when the pointer is a non-empty id that
    matches. *)
Lemma getCurrentProvider_found (w : World) (c : ProvidersConfig) (cur : string)
    (k : nat) (P : Provider) :
  calm w -> stored w c ->
  currentProviderId c = Some cur -> cur <> "" ->
  first_with_id c cur k P ->
  getCurrentProvider w = Return (Some P) w.
Proof.
  intros Hc Hs Hcur Hne Hfirst. unfold getCurrentProvider.
  rewrite (with_stored_config _ w c Hc Hs), Hcur. simpl.
  destruct (String.eqb_spec cur ""); [contradiction|].
  rewrite (first_with_id_find _ _ _ _ Hfirst). simpl.
  destruct Hfirst as (-> & _). reflexivity.
Qed.

(** X8. After a switch, [getCurrentProvider] answers the provider
    switched to, provided its id is not the empty string (an empty
    [currentProviderId] counts as unset). *)
Theorem switchProvider_then_getCurrentProvider
    (w : World) (c : ProvidersConfig) (live : json) (i : string) (k : nat)
    (P : Provider) :
  calm w ->
  stored w c ->
  is_dir w (dirname CLAUDE_SETTINGS_PATH) = true ->
  live_value w live ->
  first_with_id c i k P ->
  i <> "" ->
  reads_back (ProvidersConfig_to_json (switched c live i)) ->
  exists w',
    switchProvider i w = Return P w' /\
    getCurrentProvider w' = Return (Some P) w'.
Proof.
  intros Hc Hs Hd Hlive Hfirst Hne Hback.
  destruct (switchProvider_calm w c live i k P Hc Hs Hd Hlive Hfirst)
    as (w' & Hrun & Hc' & Hdirs & Hstore & _).
  exists w'. split; [exact Hrun|].
  apply (getCurrentProvider_found w' (switched c live i) i k P); auto.
  - apply (stored_after w' w'); auto.
    unfold is_dir. rewrite Hdirs. apply Hs.
  - now apply switched_target.
Qed.

(** X9. Switching away and back brings back the live settings that were
    in place, edits made by hand included: with [a] current and the live
    file holding [live], a switch to [b] followed by a switch to [a]
    leaves the live file holding [live] again. The runtime is assumed to
    parse what it printed for the configuration persisted in between and
    for [b]'s settings. *)
Theorem switchProvider_there_and_back
    (w : World) (c : ProvidersConfig) (live : json) (a b : string)
    (ka kb : nat) (Pa Pb : Provider) :
  calm w ->
  stored w c ->
  is_dir w (dirname CLAUDE_SETTINGS_PATH) = true ->
  currentProviderId c = Some a ->
  a <> "" ->
  a <> b ->
  first_with_id c a ka Pa ->
  first_with_id c b kb Pb ->
  holds w CLAUDE_SETTINGS_PATH live ->
  truthy live = true ->
  reads_back (ProvidersConfig_to_json (switched c live b)) ->
  reads_back (settingsConfig Pb) ->
  exists w1 w2,
    switchProvider b w = Return Pb w1 /\
    switchProvider a w1 = Return (set_settingsConfig live Pa) w2 /\
    files w2 !! CLAUDE_SETTINGS_PATH = Some (JSON_stringify live).
Proof.
  intros Hc Hs Hd Hcur Hne Hdiff Ha Hb Hlive Htruthy Hback1 Hback2.
  destruct (switchProvider_calm w c live b kb Pb Hc Hs Hd (or_intror Hlive) Hb)
    as (w1 & Hrun1 & Hc1 & Hdirs1 & Hstore1 & Hlive1).
  assert (is_dir w1 CONFIG_DIR = true) as Hd1
    by (unfold is_dir; rewrite Hdirs1; apply Hs).
  assert (is_dir w1 (dirname CLAUDE_SETTINGS_PATH) = true) as Hd1'
    by (unfold is_dir; rewrite Hdirs1; exact Hd).
  assert (first_with_id (switched c live b) a ka (set_settingsConfig live Pa)) as Ha1.
  { pose proof (first_with_id_find _ _ _ _ Ha) as Hfind.
    destruct Ha as (Hka & Hida & Hfirst).
    unfold switched, first_with_id. simpl. rewrite Hcur.
    rewrite bool_decide_eq_false_2 by tauto. rewrite Hfind, Htruthy.
    split; [|split; [exact Hida|]].
    - rewrite list_lookup_alter_eq, Hka. reflexivity.
    - intros j q Hj Hq. rewrite list_lookup_alter_ne in Hq by lia.
      now apply (Hfirst j q). }
  destruct (switchProvider_calm w1 (switched c live b) (settingsConfig Pb) a ka
              (set_settingsConfig live Pa) Hc1)
    as (w2 & Hrun2 & _ & _ & _ & Hlive2); auto.
  - apply (stored_after w1 w1); auto.
  - right. eexists. split; [exact Hlive1|exact Hback2].
  - exists w1, w2. auto.
Qed.

(** X10. Switching again to the provider just switched to rewrites both
    files with the contents they already have. *)
Theorem switchProvider_twice
    (w : World) (c : ProvidersConfig) (live : json) (i : string) (k : nat)
    (P : Provider) :
  calm w ->
  stored w c ->
  is_dir w (dirname CLAUDE_SETTINGS_PATH) = true ->
  live_value w live ->
  first_with_id c i k P ->
  reads_back (ProvidersConfig_to_json (switched c live i)) ->
  exists w1 w2,
    switchProvider i w = Return P w1 /\
    switchProvider i w1 = Return P w2 /\
    files w2 !! CONFIG_FILE = files w1 !! CONFIG_FILE /\
    files w2 !! CLAUDE_SETTINGS_PATH = files w1 !! CLAUDE_SETTINGS_PATH.
Proof.
  intros Hc Hs Hd Hlive Hfirst Hback.
  destruct (switchProvider_calm w c live i k P Hc Hs Hd Hlive Hfirst)
    as (w1 & Hrun1 & Hc1 & Hdirs1 & Hstore1 & Hlive1).
  assert (stored w1 (switched c live i)) as Hs1.
  { apply (stored_after w1 w1); auto. unfold is_dir. rewrite Hdirs1. apply Hs. }
  destruct (persist_then_overwrite_world w1 (switched c live i) k P)
    as (w2 & Hrun2 & _ & _ & Hstore2 & Hlive2); auto.
  { apply Hs1. }
  { unfold is_dir. rewrite Hdirs1. exact Hd. }
  { apply (switched_target c live i k P Hfirst). }
  exists w1, w2. split; [exact Hrun1|]. split.
  - unfold switchProvider. rewrite (with_stored_config _ w1 _ Hc1 Hs1).
    rewrite (first_with_id_find _ _ _ _ (switched_target c live i k P Hfirst)).
    simpl currentProviderId. rewrite bool_decide_eq_true_2 by reflexivity.
    rewrite andb_false_r. unfold bind at 1, ret. exact Hrun2.
  - now rewrite Hstore2, Hlive2, Hstore1, Hlive1.
Qed.

End SwitchEdges.

(** ** What the operations never touch *)

Section Frames.
Context `{Runtime}.
Import ClaudeSettings ProviderStorage.

Lemma Date_now_keeps q : keeps q Date_now.
Proof. intros w. reflexivity. Qed.

Lemma generateId_keeps q : keeps q generateId.
Proof. intros w. reflexivity. Qed.

Lemma loadProviders_keeps q : keeps q loadProviders.
Proof. apply keeps_all, loadProviders_files. Qed.

(** The start of every store operation. *)
Lemma loading_keeps {A} q (k : ProvidersConfig -> io A) :
  (forall c, keeps q (k c)) ->
  keeps q (parsed <- loadProviders ;;
           config <- typed as_ProvidersConfig parsed ;;
           k config).
Proof.
  intros Hk. apply keeps_bind; [apply loadProviders_keeps|]. intros parsed.
  apply keeps_bind; [apply typed_keeps|exact Hk].
Qed.

Lemma addProvider_keeps_live n : keeps CLAUDE_SETTINGS_PATH (addProvider n).
Proof.
  unfold addProvider. apply loading_keeps. intros c.
  apply keeps_bind; [apply generateId_keeps|]. intros newId.
  apply keeps_bind; [apply Date_now_keeps|]. intros t.
  apply keeps_bind; [apply saveProviders_keeps_live|]. intros _. apply keeps_ret.
Qed.

(** X11. No operation of the provider store other than [switchProvider]
    ever changes the live settings file, whatever fails along the way:
    adding, updating, removing (the current provider included), capturing
    and looking up all leave it as it is. *)
Theorem store_operations_keep_live_file (w : World) :
  (forall n, files (final (addProvider n w)) !! CLAUDE_SETTINGS_PATH
             = files w !! CLAUDE_SETTINGS_PATH) /\
  (forall i u, files (final (updateProvider i u w)) !! CLAUDE_SETTINGS_PATH
               = files w !! CLAUDE_SETTINGS_PATH) /\
  (forall i, files (final (removeProvider i w)) !! CLAUDE_SETTINGS_PATH
             = files w !! CLAUDE_SETTINGS_PATH) /\
  (forall n d cat,
     files (final (captureCurrentAsProvider n d cat w)) !! CLAUDE_SETTINGS_PATH
     = files w !! CLAUDE_SETTINGS_PATH) /\
  (forall i, files (final (getProvider i w)) = files w) /\
  (forall n, files (final (getProviderByName n w)) = files w) /\
  files (final (getCurrentProvider w)) = files w.
Proof.
  assert (forall A (k : ProvidersConfig -> io A),
            (forall c w0, files (final (k c w0)) = files w0) ->
            forall w0,
              files (final ((parsed <- loadProviders ;;
                             config <- typed as_ProvidersConfig parsed ;;
                             k config) w0)) = files w0) as Hread.
  { intros A k Hk w0. unfold bind at 1. pose proof (loadProviders_files w0) as Hl.
    destruct (loadProviders w0) as [parsed w1|e w1]; simpl in *; [|exact Hl].
    unfold bind, typed. destruct (as_ProvidersConfig parsed); simpl; [|exact Hl].
    now rewrite Hk. }
  split; [|split; [|split; [|split; [|split; [|split]]]]].
  - intros n. apply addProvider_keeps_live.
  - intros i u. revert w. change (keeps CLAUDE_SETTINGS_PATH (updateProvider i u)).
    unfold updateProvider. apply loading_keeps. intros c.
    destruct (_ =? _); [apply keeps_ret|].
    destruct (providers c !! _); [|apply keeps_throw].
    apply keeps_bind; [apply saveProviders_keeps_live|]. intros _. apply keeps_ret.
  - intros i. revert w. change (keeps CLAUDE_SETTINGS_PATH (removeProvider i)).
    unfold removeProvider. apply loading_keeps. intros c.
    destruct (_ <? _)%nat; [|apply keeps_ret].
    apply keeps_bind; [apply saveProviders_keeps_live|]. intros _. apply keeps_ret.
  - intros n d cat. revert w.
    change (keeps CLAUDE_SETTINGS_PATH (captureCurrentAsProvider n d cat)).
    unfold captureCurrentAsProvider.
    apply keeps_bind; [apply keeps_all, loadClaudeSettings_files|]. intros live.
    destruct (negb (truthy live)); [apply keeps_ret|].
    apply keeps_bind; [apply addProvider_keeps_live|]. intros p. apply keeps_ret.
  - intros i. apply Hread. reflexivity.
  - intros n. apply Hread. reflexivity.
  - apply Hread. intros c w0. destruct (unset (currentProviderId c)); reflexivity.
Qed.

Lemma next_fault_dirs w : dirs (next_fault w).2 = dirs w.
Proof. apply next_fault_keeps. Qed.

Lemma writeFile_dirs p data w : dirs (final (writeFile p data w)) = dirs w.
Proof.
  unfold writeFile. pose proof (next_fault_dirs w) as Hd.
  destruct (next_fault w) as [[flt|] w1]; simpl in *.
  - destruct (fault_partial flt); [destruct (is_dir w1 (dirname p))|]; exact Hd.
  - destruct (is_dir w1 (dirname p)); exact Hd.
Qed.

Lemma rename_dirs src dst w : dirs (final (rename src dst w)) = dirs w.
Proof.
  unfold rename. pose proof (next_fault_dirs w) as Hd.
  destruct (next_fault w) as [[flt|] w1]; simpl in *; [exact Hd|].
  destruct (files w1 !! src); [destruct (is_dir w1 (dirname dst))|]; exact Hd.
Qed.

Lemma unlink_dirs p w : dirs (final (unlink p w)) = dirs w.
Proof.
  unfold unlink. pose proof (next_fault_dirs w) as Hd.
  destruct (next_fault w) as [[flt|] w1]; simpl in *; [exact Hd|].
  destruct (files w1 !! p); exact Hd.
Qed.

Lemma readFile_dirs p w : dirs (final (readFile p w)) = dirs w.
Proof.
  unfold readFile. pose proof (next_fault_dirs w) as Hd.
  destruct (next_fault w) as [[flt|] w1]; simpl in *; [exact Hd|].
  destruct (files w1 !! p); exact Hd.
Qed.

Lemma saveClaudeSettings_dirs settings w :
  dirs (final (saveClaudeSettings settings w)) = dirs w.
Proof.
  unfold saveClaudeSettings, ClaudeSettings.atomicWrite, bind at 1, Date_now.
  set (w0 := {| files := files w |}).
  change (dirs w) with (dirs w0). generalize w0. clear w0. intros w0.
  set (tmp := join _ _).
  unfold try_catch at 1, bind at 1.
  pose proof (writeFile_dirs tmp (JSON_stringify settings) w0) as Hw.
  destruct (writeFile tmp (JSON_stringify settings) w0) as [[] w1|e w1]; simpl in Hw.
  - pose proof (rename_dirs tmp CLAUDE_SETTINGS_PATH w1) as Hr.
    destruct (rename tmp CLAUDE_SETTINGS_PATH w1) as [[] w2|e w2]; simpl in Hr;
      [simpl; congruence|].
    unfold bind at 1, try_catch, bind, existsSync, throw, ret.
    destruct (is_file w2 tmp || is_dir w2 tmp); [|simpl; congruence].
    pose proof (unlink_dirs tmp w2) as Hu.
    destruct (unlink tmp w2) as [[] w3|e3 w3]; simpl in *; congruence.
  - unfold bind at 1, try_catch, bind, existsSync, throw, ret.
    destruct (is_file w1 tmp || is_dir w1 tmp); [|simpl; congruence].
    pose proof (unlink_dirs tmp w1) as Hu.
    destruct (unlink tmp w1) as [[] w3|e3 w3]; simpl in *; congruence.
Qed.

(** X12. Conversely, the live settings store never changes the provider
    store's file and never creates a directory, whatever fails: loading
    changes no file at all, saving changes at most the live file and its
    temporary file. *)
Theorem live_operations_keep_provider_store (w : World) :
  (files (final (loadClaudeSettings w)) = files w /\
   dirs (final (loadClaudeSettings w)) = dirs w) /\
  (forall settings,
     files (final (saveClaudeSettings settings w)) !! CONFIG_FILE
     = files w !! CONFIG_FILE /\
     dirs (final (saveClaudeSettings settings w)) = dirs w).
Proof.
  split.
  - split; [apply loadClaudeSettings_files|].
    unfold loadClaudeSettings, bind, existsSync.
    destruct (negb _); [reflexivity|].
    pose proof (readFile_dirs CLAUDE_SETTINGS_PATH w) as Hr.
    destruct (readFile CLAUDE_SETTINGS_PATH w) as [content w1|e w1]; simpl in *;
      [|exact Hr].
    destruct (JSON_parse content); exact Hr.
  - intros settings. split; [|apply saveClaudeSettings_dirs].
    revert w. change (keeps CONFIG_FILE (saveClaudeSettings settings)).
    unfold saveClaudeSettings, ClaudeSettings.atomicWrite.
    apply keeps_bind; [apply Date_now_keeps|]. intros t.
    apply guarded_write_keeps; [apply stores_apart|apply (settings_tmp_apart t)].
Qed.

End Frames.

(** ** Adding, updating, removing, looking up: how they compose *)

Section Compose.
Context `{Runtime}.
Import ClaudeSettings ProviderStorage.

(** A store file just written holds what was written, when the runtime
    reads it back. *)
Lemma stored_written w c :
  calm w -> is_dir w CONFIG_DIR = true ->
  files w !! CONFIG_FILE = Some (JSON_stringify (ProvidersConfig_to_json c)) ->
  reads_back (ProvidersConfig_to_json c) ->
  stored w c.
Proof. intros Hc Hd Hf Hback. now apply (stored_after w w). Qed.

Lemma updateProvider_found (w : World) (c : ProvidersConfig) (i : string)
    (u : ProviderUpdates) (k : nat) (old : Provider) :
  calm w -> stored w c -> first_with_id c i k old ->
  exists w',
    updateProvider i u w = Return true w' /\
    calm w' /\ dirs w' = dirs w /\
    files w' !! CONFIG_FILE
      = Some (JSON_stringify
                (ProvidersConfig_to_json
                   (set_providers (<[k := with_updates u old]> (providers c)) c))).
Proof.
  intros Hc Hs Hfirst. pose proof (first_with_id_find _ _ _ _ Hfirst) as Hfind.
  destruct Hfirst as (Hk & _ & _).
  unfold updateProvider. rewrite (with_stored_config _ w c Hc Hs).
  rewrite findIndex_find_ref, Hfind.
  destruct (Z.eqb_spec (Z.of_nat k) (-1)) as [Hneg|_]; [lia|].
  rewrite Nat2Z.id, Hk. unfold bind.
  rewrite saveProviders_calm; [|exact Hc|apply Hs].
  eexists. split; [reflexivity|]. split; [exact Hc|]. split; [reflexivity|].
  apply replaced_target.
Qed.

Lemma removeProvider_found (w : World) (c : ProvidersConfig) (i : string) :
  calm w -> stored w c ->
  (exists p, p ∈ providers c /\ id p = i) ->
  exists w',
    removeProvider i w = Return true w' /\
    calm w' /\ dirs w' = dirs w /\
    files w' !! CONFIG_FILE
      = Some (JSON_stringify (ProvidersConfig_to_json (removed c i))).
Proof.
  intros Hc Hs (p & Hp & Hid).
  unfold removeProvider. rewrite (with_stored_config _ w c Hc Hs). simpl.
  rewrite (proj2 (Nat.ltb_lt _ _)).
  2:{ apply filter_length_lt. exists p. split; [exact Hp|].
      apply negb_false_iff. now apply has_id_true. }
  unfold bind. rewrite saveProviders_calm; [|exact Hc|apply Hs].
  eexists. split; [reflexivity|]. split; [exact Hc|]. split; [reflexivity|].
  rewrite replaced_target. do 3 f_equal. unfold removed. rewrite filter_other_ids.
  destruct (decide (currentProviderId c = Some i)) as [Hcur|Hcur].
  - rewrite bool_decide_eq_true_2 by exact Hcur. reflexivity.
  - rewrite bool_decide_eq_false_2 by exact Hcur. now destruct c.
Qed.

Lemma getProvider_found (w : World) (c : ProvidersConfig) (i : string)
    (k : nat) (P : Provider) :
  calm w -> stored w c -> first_with_id c i k P ->
  getProvider i w = Return (Some P) w.
Proof.
  intros Hc Hs Hfirst. unfold getProvider. rewrite (with_stored_config _ w c Hc Hs).
  rewrite (first_with_id_find _ _ _ _ Hfirst). simpl.
  destruct Hfirst as (-> & _). reflexivity.
Qed.

Lemma getProvider_missing (w : World) (c : ProvidersConfig) (i : string) :
  calm w -> stored w c ->
  (forall p, p ∈ providers c -> id p <> i) ->
  getProvider i w = Return None w.
Proof.
  intros Hc Hs Hnone. unfold getProvider. rewrite (with_stored_config _ w c Hc Hs).
  now rewrite (no_id_find c i Hnone).
Qed.

(** X13. [addProvider] puts the new provider last, keeps the providers
    already stored, in their order, and [currentProviderId] as they were,
    and returns the record it stored: the given fields, the generated id
    and, as [createdAt], a clock reading taken after the id's. *)
Theorem addProvider_appends (n : NewProvider) (w : World) (c : ProvidersConfig) :
  calm w ->
  stored w c ->
  let p := created n (pretty (now w) +:+ "-" +:+ slice 2 9 (hd "0" (rnd w)))
             (now w + hd 0 (ticks w)) in
  exists w',
    addProvider n w = Return p w' /\
    files w' !! CONFIG_FILE
      = Some (JSON_stringify
                (ProvidersConfig_to_json
                   {| providers := providers c ++ [p];
                      currentProviderId := currentProviderId c |})).
Proof.
  intros Hc Hs p.
  destruct (addProvider_calm n w c Hc Hs) as (w' & Hrun & Hfile & _).
  exists w'. split; [exact Hrun|exact Hfile].
Qed.

Lemma first_with_id_app_l c (p : Provider) i k q :
  first_with_id c i k q ->
  first_with_id (set_providers (providers c ++ [p]) c) i k q.
Proof.
  intros (Hk & Hid & Hfirst). split; [|split; [exact Hid|]].
  - simpl. rewrite lookup_app_l; [exact Hk|]. now apply lookup_lt_Some in Hk.
  - simpl. intros j q' Hj Hq'. apply lookup_lt_Some in Hk.
    rewrite lookup_app_l in Hq' by lia. now apply (Hfirst j q').
Qed.

Lemma first_with_id_app_new c (p : Provider) :
  (forall q, q ∈ providers c -> id q <> id p) ->
  first_with_id (set_providers (providers c ++ [p]) c) (id p)
    (length (providers c)) p.
Proof.
  intros Hfresh. split; [|split; [reflexivity|]].
  - simpl. rewrite lookup_app_r by lia. now rewrite Nat.sub_diag.
  - simpl. intros j q Hj Hq. rewrite lookup_app_l in Hq by lia.
    apply Hfresh. apply list_elem_of_lookup. eauto.
Qed.

(** X14. A provider just added is the one [getProvider] answers for its
    id, as long as no provider already stored has that id. If one has, as
    can happen when two ids are generated alike, [getProvider] keeps
    answering the older provider and the new one cannot be reached by id. *)
Theorem addProvider_then_getProvider (n : NewProvider) (w : World) (c : ProvidersConfig) :
  calm w ->
  stored w c ->
  let p := created n (pretty (now w) +:+ "-" +:+ slice 2 9 (hd "0" (rnd w)))
             (now w + hd 0 (ticks w)) in
  reads_back (ProvidersConfig_to_json (set_providers (providers c ++ [p]) c)) ->
  exists w',
    addProvider n w = Return p w' /\
    ((forall q, q ∈ providers c -> id q <> id p) ->
     getProvider (id p) w' = Return (Some p) w') /\
    (forall k q, first_with_id c (id p) k q ->
                 getProvider (id p) w' = Return (Some q) w').
Proof.
  intros Hc Hs p Hback.
  destruct (addProvider_calm n w c Hc Hs) as (w' & Hrun & Hfile & Hc' & Hd' & _).
  fold p in Hrun, Hfile.
  assert (stored w' (set_providers (providers c ++ [p]) c)) as Hs'
    by now apply stored_written.
  exists w'. split; [exact Hrun|]. split.
  - intros Hfresh.
    apply (getProvider_found w' _ (id p) (length (providers c)) p Hc' Hs').
    now apply first_with_id_app_new.
  - intros k q Hfirst. apply (getProvider_found w' _ (id p) k q Hc' Hs').
    now apply first_with_id_app_l.
Qed.

(** X15. Lookups answer the first match in storage order and [undefined]
    when there is none, by id and by name alike, and leave the world as
    it is. *)
Theorem lookups_answer_first_match (w : World) (c : ProvidersConfig) (key : string) :
  calm w ->
  stored w c ->
  (forall k P, first_with_id c key k P -> getProvider key w = Return (Some P) w) /\
  ((forall p, p ∈ providers c -> id p <> key) -> getProvider key w = Return None w) /\
  (forall k P,
     providers c !! k = Some P -> name P = key ->
     (forall j q, (j < k)%nat -> providers c !! j = Some q -> name q <> key) ->
     getProviderByName key w = Return (Some P) w) /\
  ((forall p, p ∈ providers c -> name p <> key) ->
   getProviderByName key w = Return None w).
Proof.
  intros Hc Hs. split; [|split; [|split]].
  - intros k P. now apply getProvider_found.
  - now apply getProvider_missing.
  - intros k P Hk Hn Hfirst. unfold getProviderByName.
    rewrite (with_stored_config _ w c Hc Hs).
    replace (find_ref (has_name key) (providers c)) with (Some k).
    + simpl. now rewrite Hk.
    + symmetry. apply find_ref_Some. exists P. split; [exact Hk|].
      split; [now apply String.eqb_eq|].
      intros j q Hj Hq. apply String.eqb_neq. eauto.
  - intros Hnone. unfold getProviderByName. rewrite (with_stored_config _ w c Hc Hs).
    replace (find_ref (has_name key) (providers c)) with (@None nat); [reflexivity|].
    symmetry. apply find_ref_None. intros p Hp. apply String.eqb_neq. auto.
Qed.

(** X16. [getCurrentProvider] answers the first provider whose id is
    [currentProviderId] and tolerates every other state of the pointer:
    unset, the empty string, or an id no stored provider has all give
    [undefined], never an error. *)
Theorem getCurrentProvider_resolves_or_undefined (w : World) (c : ProvidersConfig) :
  calm w ->
  stored w c ->
  (currentProviderId c = None -> getCurrentProvider w = Return None w) /\
  (currentProviderId c = Some "" -> getCurrentProvider w = Return None w) /\
  (forall cur,
     currentProviderId c = Some cur ->
     (forall p, p ∈ providers c -> id p <> cur) ->
     getCurrentProvider w = Return None w) /\
  (forall cur k P,
     currentProviderId c = Some cur -> cur <> "" ->
     first_with_id c cur k P ->
     getCurrentProvider w = Return (Some P) w).
Proof.
  intros Hc Hs. split; [|split; [|split]].
  - intros Hcur. unfold getCurrentProvider.
    now rewrite (with_stored_config _ w c Hc Hs), Hcur.
  - intros Hcur. unfold getCurrentProvider.
    now rewrite (with_stored_config _ w c Hc Hs), Hcur.
  - intros cur Hcur Hnone. now apply (getCurrentProvider_dangling w c cur).
  - intros cur k P. now apply getCurrentProvider_found.
Qed.

Lemma first_with_id_filter (l : list Provider) (cur i : string) (k : nat) (P : Provider) :
  l !! k = Some P -> id P = cur -> cur <> i ->
  (forall j q, (j < k)%nat -> l !! j = Some q -> id q <> cur) ->
  exists k',
    filter (fun p => id p <> i) l !! k' = Some P /\
    forall j q, (j < k')%nat ->
                filter (fun p => id p <> i) l !! j = Some q -> id q <> cur.
Proof.
  intros Hk Hid Hne. revert k Hk.
  induction l as [|a l IH]; intros k Hk Hfirst; [discriminate|].
  rewrite filter_cons. destruct k as [|k].
  - inversion Hk; subst a. rewrite decide_True by congruence.
    exists 0%nat. split; [reflexivity|]. intros j q Hj. lia.
  - destruct (IH k Hk) as (k' & Hk' & Hfirst').
    { intros j q Hj Hq. apply (Hfirst (S j) q); [lia|exact Hq]. }
    destruct (decide (id a <> i)).
    + exists (S k'). split; [exact Hk'|]. intros [|j] q Hj Hq.
      * inversion Hq; subst q. apply (Hfirst 0%nat a); [lia|reflexivity].
      * apply (Hfirst' j q); [lia|exact Hq].
    + exists k'. split; [exact Hk'|exact Hfirst'].
Qed.

(** X17. Removing the current provider leaves no current provider:
    [getCurrentProvider] then answers [undefined]. Removing another one
    leaves the current provider what it was. *)
Theorem removeProvider_then_getCurrentProvider
    (w : World) (c : ProvidersConfig) (i : string) :
  calm w ->
  stored w c ->
  (exists p, p ∈ providers c /\ id p = i) ->
  reads_back (ProvidersConfig_to_json (removed c i)) ->
  exists w',
    removeProvider i w = Return true w' /\
    (currentProviderId c = Some i -> getCurrentProvider w' = Return None w') /\
    (forall cur k P,
       currentProviderId c = Some cur -> cur <> i -> cur <> "" ->
       first_with_id c cur k P ->
       getCurrentProvider w' = Return (Some P) w').
Proof.
  intros Hc Hs Hsome Hback.
  destruct (removeProvider_found w c i Hc Hs Hsome) as (w' & Hrun & Hc' & Hdirs & Hfile).
  assert (stored w' (removed c i)) as Hs'.
  { apply stored_written; auto. unfold is_dir. rewrite Hdirs. apply Hs. }
  exists w'. split; [exact Hrun|]. split.
  - intros Hcur. unfold getCurrentProvider.
    rewrite (with_stored_config _ w' _ Hc' Hs'). simpl.
    now rewrite decide_True by exact Hcur.
  - intros cur k P Hcur Hne Hnonempty (Hk & Hid & Hfirst).
    destruct (first_with_id_filter _ cur i k P Hk Hid Hne Hfirst) as (k' & Hk' & Hfirst').
    apply (getCurrentProvider_found w' (removed c i) cur k' P); auto.
    + simpl. rewrite decide_False by congruence. exact Hcur.
    + split; [exact Hk'|]. split; [exact Hid|exact Hfirst'].
Qed.


End Compose.

(** ** Capture, ids and the invariants of the store *)

Section Invariants.
Context `{Runtime}.
Import ClaudeSettings ProviderStorage.

(** X19. [captureCurrentAsProvider] stores the live settings, as they
    are, as the [settingsConfig] of a new provider put last, with no icon,
    and changes neither [currentProviderId] nor the live file. When the
    live file is missing, or holds a falsy JSON value, it answers [null]
    and the world is unchanged. *)
Theorem captureCurrentAsProvider_snapshots
    (n : string) (d : option string) (cat : option Category)
    (w : World) (c : ProvidersConfig) (live : json) :
  calm w ->
  (stored w c ->
   holds w CLAUDE_SETTINGS_PATH live ->
   truthy live = true ->
   let p := created {| new_name := n; new_settingsConfig := live;
                       new_description := d; new_category := cat;
                       new_icon := None; new_iconColor := None |}
              (pretty (now w) +:+ "-" +:+ slice 2 9 (hd "0" (rnd w)))
              (now w + hd 0 (ticks w)) in
   exists w',
     captureCurrentAsProvider n d cat w = Return (Some p) w' /\
     persists w' {| providers := providers c ++ [p];
                    currentProviderId := currentProviderId c |} /\
     files w' !! CLAUDE_SETTINGS_PATH = files w !! CLAUDE_SETTINGS_PATH) /\
  (live_value w live ->
   truthy live = false ->
   captureCurrentAsProvider n d cat w = Return None w).
Proof.
  intros Hc. split.
  - intros Hs (content & Hf & Hp) Htruthy p.
    unfold captureCurrentAsProvider, bind at 1, readLiveSettings.
    rewrite (loadClaudeSettings_present w content Hc Hf), Hp, Htruthy. simpl.
    destruct (addProvider_calm
                {| new_name := n; new_settingsConfig := live; new_description := d;
                   new_category := cat; new_icon := None; new_iconColor := None |}
                w c Hc Hs) as (w' & Hrun & Hfile & _).
    pose proof (addProvider_keeps_live
                  {| new_name := n; new_settingsConfig := live; new_description := d;
                     new_category := cat; new_icon := None; new_iconColor := None |}
                  w) as Hkeep.
    unfold bind. rewrite Hrun in Hkeep |- *. simpl in Hkeep.
    exists w'. split; [reflexivity|]. split; [exact Hfile|exact Hkeep].
  - intros Hlive Hfalsy. unfold captureCurrentAsProvider, bind, readLiveSettings.
    assert (loadClaudeSettings w = Return live w) as ->.
    { destruct Hlive as [[Habs ->]|(content & Hf & Hp)].
      - now apply loadClaudeSettings_absent.
      - rewrite (loadClaudeSettings_present w content Hc Hf). now rewrite Hp. }
    now rewrite Hfalsy.
Qed.

(** X20. Two generated ids are the same exactly when both calls read the
    same millisecond and their random draws agree on the seven base-36
    digits kept: ids generated at different clock readings always differ. *)
Theorem generateId_equal_iff (w1 w2 : World) :
  0 <= now w1 ->
  0 <= now w2 ->
  returned (generateId w1) = returned (generateId w2)
  <-> now w1 = now w2 /\
      slice 2 9 (hd "0" (rnd w1)) = slice 2 9 (hd "0" (rnd w2)).
Proof.
  intros H1 H2. rewrite !generateId_returns.
  rewrite <- (generated_ids_equal_iff _ _ _ _ H1 H2).
  split; [now intros [= ->]|now intros ->].
Qed.

Lemma ids_insert_same (ps : list Provider) (k : nat) (old new : Provider) :
  ps !! k = Some old -> id new = id old -> map id (<[k := new]> ps) = map id ps.
Proof.
  intros Hk Hid. rewrite list_fmap_insert, Hid. apply list_insert_id.
  now rewrite list_lookup_fmap, Hk.
Qed.

Lemma ids_removed c i : ids (removed c i) = filter (fun x => x <> i) (ids c).
Proof.
  unfold ids, removed. simpl. induction (providers c) as [|p ps IH]; [reflexivity|].
  simpl. rewrite !filter_cons.
  destruct (decide (id p <> i)); simpl; now rewrite IH.
Qed.

(** What each mutation persists, when nothing fails. *)
Lemma mutations_persist (w : World) (c : ProvidersConfig) :
  calm w ->
  stored w c ->
  (forall i u k old,
     first_with_id c i k old ->
     exists w',
       updateProvider i u w = Return true w' /\
       persists w' (set_providers (<[k := with_updates u old]> (providers c)) c)) /\
  (forall i,
     (exists p, p ∈ providers c /\ id p = i) ->
     exists w', removeProvider i w = Return true w' /\ persists w' (removed c i)) /\
  (forall live i k P,
     is_dir w (dirname CLAUDE_SETTINGS_PATH) = true ->
     live_value w live ->
     first_with_id c i k P ->
     exists w', switchProvider i w = Return P w' /\ persists w' (switched c live i)) /\
  (forall n,
     exists p w',
       addProvider n w = Return p w' /\
       persists w' (set_providers (providers c ++ [p]) c)).
Proof.
  intros Hc Hs. split; [|split; [|split]].
  - intros i u k old Hfirst.
    destruct (updateProvider_found w c i u k old Hc Hs Hfirst) as (w' & Hrun & _ & _ & Hf).
    eauto.
  - intros i Hsome.
    destruct (removeProvider_found w c i Hc Hs Hsome) as (w' & Hrun & _ & _ & Hf).
    eauto.
  - intros live i k P Hd Hlive Hfirst.
    destruct (switchProvider_calm w c live i k P Hc Hs Hd Hlive Hfirst)
      as (w' & Hrun & _ & _ & Hf & _).
    eauto.
  - intros n. destruct (addProvider_calm n w c Hc Hs) as (w' & Hrun & Hf & _). eauto.
Qed.

(** X21. No operation rewrites an id. Updating and switching persist the
    very list of ids they found; removing takes out the occurrences of the
    removed id and nothing else; adding appends the generated id. Hence
    ids that were pairwise distinct stay so under update, remove and
    switch, and under add when the generated id is new. *)
Theorem mutations_keep_ids (w : World) (c : ProvidersConfig) :
  calm w ->
  stored w c ->
  (forall i u k old,
     first_with_id c i k old ->
     exists w' c',
       updateProvider i u w = Return true w' /\ persists w' c' /\
       ids c' = ids c) /\
  (forall i,
     (exists p, p ∈ providers c /\ id p = i) ->
     exists w' c',
       removeProvider i w = Return true w' /\ persists w' c' /\
       ids c' = filter (fun x => x <> i) (ids c) /\
       (NoDup (ids c) -> NoDup (ids c'))) /\
  (forall live i k P,
     is_dir w (dirname CLAUDE_SETTINGS_PATH) = true ->
     live_value w live ->
     first_with_id c i k P ->
     exists w' c',
       switchProvider i w = Return P w' /\ persists w' c' /\
       ids c' = ids c) /\
  (forall n,
     exists p w' c',
       addProvider n w = Return p w' /\ persists w' c' /\
       ids c' = ids c ++ [id p] /\
       (NoDup (ids c) -> id p ∉ ids c -> NoDup (ids c'))).
Proof.
  intros Hc Hs.
  destruct (mutations_persist w c Hc Hs) as (Hupd & Hrem & Hsw & Hadd).
  split; [|split; [|split]].
  - intros i u k old Hfirst. destruct (Hupd i u k old Hfirst) as (w' & Hrun & Hp).
    exists w'. eexists. split; [exact Hrun|]. split; [exact Hp|].
    apply ids_insert_same with (old := old); [apply Hfirst|reflexivity].
  - intros i Hsome. destruct (Hrem i Hsome) as (w' & Hrun & Hp).
    exists w'. eexists. split; [exact Hrun|]. split; [exact Hp|].
    split; [apply ids_removed|]. intros Hnd. rewrite ids_removed.
    now apply NoDup_filter.
  - intros live i k P Hd Hlive Hfirst.
    destruct (Hsw live i k P Hd Hlive Hfirst) as (w' & Hrun & Hp).
    exists w'. eexists. split; [exact Hrun|]. split; [exact Hp|]. apply switched_ids.
  - intros n. destruct (Hadd n) as (p & w' & Hrun & Hp).
    exists p, w'. eexists. split; [exact Hrun|]. split; [exact Hp|].
    assert (ids (set_providers (providers c ++ [p]) c) = ids c ++ [id p]) as Hids
      by (unfold ids; simpl; apply map_app).
    split; [exact Hids|]. intros Hnd Hfresh. rewrite Hids.
    apply NoDup_app. split; [exact Hnd|]. split; [|apply NoDup_singleton].
    intros x Hx Hin. apply list_elem_of_singleton in Hin. congruence.
Qed.

(** X22. No operation leaves a dangling pointer behind: if
    [currentProviderId], when set, names a stored provider, it still does
    in what update, remove and add persist; and after a switch it names
    the target, whatever it named before. *)
Theorem mutations_keep_pointer_valid (w : World) (c : ProvidersConfig) :
  calm w ->
  stored w c ->
  (forall i u k old,
     pointer_valid c ->
     first_with_id c i k old ->
     exists w' c',
       updateProvider i u w = Return true w' /\ persists w' c' /\ pointer_valid c') /\
  (forall i,
     pointer_valid c ->
     (exists p, p ∈ providers c /\ id p = i) ->
     exists w' c',
       removeProvider i w = Return true w' /\ persists w' c' /\ pointer_valid c') /\
  (forall live i k P,
     is_dir w (dirname CLAUDE_SETTINGS_PATH) = true ->
     live_value w live ->
     first_with_id c i k P ->
     exists w' c',
       switchProvider i w = Return P w' /\ persists w' c' /\
       currentProviderId c' = Some i /\ pointer_valid c') /\
  (forall n,
     pointer_valid c ->
     exists p w' c',
       addProvider n w = Return p w' /\ persists w' c' /\ pointer_valid c').
Proof.
  intros Hc Hs.
  destruct (mutations_persist w c Hc Hs) as (Hupd & Hrem & Hsw & Hadd).
  split; [|split; [|split]].
  - intros i u k old Hvalid Hfirst. destruct (Hupd i u k old Hfirst) as (w' & Hrun & Hp).
    exists w'. eexists. split; [exact Hrun|]. split; [exact Hp|].
    intros cur Hcur. unfold ids. simpl.
    rewrite (ids_insert_same _ k old) by (apply Hfirst || reflexivity).
    now apply Hvalid.
  - intros i Hvalid Hsome. destruct (Hrem i Hsome) as (w' & Hrun & Hp).
    exists w'. eexists. split; [exact Hrun|]. split; [exact Hp|].
    intros cur Hcur. simpl in Hcur. rewrite ids_removed.
    destruct (decide (currentProviderId c = Some i)) as [|Hne]; [discriminate|].
    apply list_elem_of_filter. split; [congruence|now apply Hvalid].
  - intros live i k P Hd Hlive Hfirst.
    destruct (Hsw live i k P Hd Hlive Hfirst) as (w' & Hrun & Hp).
    exists w'. eexists. split; [exact Hrun|]. split; [exact Hp|].
    split; [reflexivity|]. intros cur [= <-]. rewrite switched_ids.
    destruct Hfirst as (Hk & <- & _). unfold ids.
    apply list_elem_of_fmap. exists P. split; [reflexivity|].
    apply list_elem_of_lookup. eauto.
  - intros n Hvalid. destruct (Hadd n) as (p & w' & Hrun & Hp).
    exists p, w'. eexists. split; [exact Hrun|]. split; [exact Hp|].
    intros cur Hcur. unfold ids. simpl. rewrite map_app.
    apply elem_of_app. left. now apply Hvalid.
Qed.

End Invariants.

(** ** The command: manual settings, resolution, menu order *)

Section StartFacts.

Lemma get_set_entry key v entries :
  Start.get_entry key (Start.set_entry key v entries) = Some v.
Proof.
  induction entries as [|[k x] rest IH]; simpl.
  - now rewrite String.eqb_refl.
  - destruct (String.eqb key k) eqn:Hk; simpl; now rewrite Hk.
Qed.

Lemma get_set_entry_other key key' v entries :
  key' <> key ->
  Start.get_entry key' (Start.set_entry key v entries) = Start.get_entry key' entries.
Proof.
  intros Hne. induction entries as [|[k x] rest IH]; simpl.
  - now rewrite (proj2 (String.eqb_neq key' key) Hne).
  - destruct (String.eqb key k) eqn:Hk; simpl.
    + apply String.eqb_eq in Hk. subst k.
      now rewrite (proj2 (String.eqb_neq key' key) Hne).
    + destruct (String.eqb key' k); [reflexivity|exact IH].
Qed.

Lemma get_delete_entry key entries :
  Start.get_entry key (Start.delete_entry key entries) = None.
Proof.
  induction entries as [|[k x] rest IH]; simpl; [reflexivity|].
  destruct (String.eqb key k) eqn:Hk; simpl; [exact IH|]. now rewrite Hk.
Qed.

Lemma get_delete_entry_other key key' entries :
  key' <> key ->
  Start.get_entry key' (Start.delete_entry key entries) = Start.get_entry key' entries.
Proof.
  intros Hne. induction entries as [|[k x] rest IH]; simpl; [reflexivity|].
  destruct (String.eqb key k) eqn:Hk; simpl.
  - apply String.eqb_eq in Hk. subst k.
    now rewrite (proj2 (String.eqb_neq key' key) Hne).
  - destruct (String.eqb key' k); [reflexivity|exact IH].
Qed.

(** X23. The settings of a provider added by hand are the live settings
    (the default ones when there are none) with two changes only: in
    [env], the token and the endpoint are the answers typed in, and are
    absent when the answer was empty, whatever the live settings had
    there. Every other entry of [env] and every other top-level entry is
    inherited as it is. *)
Theorem manual_settingsConfig_sets_or_deletes (live : json) (apiKey baseUrl : string) :
  let base := if truthy live then live else Start.default_settings in
  exists top env,
    Start.manual_settingsConfig live apiKey baseUrl = JObj top /\
    Start.get_entry "env" top = Some (JObj env) /\
    Start.get_entry "ANTHROPIC_AUTH_TOKEN" env
      = (if String.eqb apiKey "" then None else Some (JStr apiKey)) /\
    Start.get_entry "ANTHROPIC_BASE_URL" env
      = (if String.eqb baseUrl "" then None else Some (JStr baseUrl)) /\
    (forall key,
       key <> "ANTHROPIC_AUTH_TOKEN" -> key <> "ANTHROPIC_BASE_URL" ->
       Start.get_entry key env
       = Start.get_entry key (Start.spread (Start.member "env" base))) /\
    (forall key,
       key <> "env" ->
       Start.get_entry key top = Start.get_entry key (Start.spread (Some base))).
Proof.
  intros base. unfold Start.manual_settingsConfig.
  replace (if negb (truthy live) then Start.default_settings else live) with base
    by (unfold base; now destruct (truthy live)).
  eexists. eexists. split; [reflexivity|].
  split; [apply get_set_entry|].
  assert ("ANTHROPIC_AUTH_TOKEN" <> "ANTHROPIC_BASE_URL") as Hkeys by discriminate.
  split; [|split; [|split]].
  - destruct (String.eqb apiKey ""), (String.eqb baseUrl ""); simpl.
    + now rewrite get_delete_entry_other, get_delete_entry.
    + now rewrite get_set_entry_other, get_delete_entry.
    + now rewrite get_delete_entry_other, get_set_entry.
    + now rewrite get_set_entry_other, get_set_entry.
  - destruct (String.eqb apiKey ""), (String.eqb baseUrl ""); simpl.
    + apply get_delete_entry.
    + apply get_set_entry.
    + apply get_delete_entry.
    + apply get_set_entry.
  - intros key H1 H2.
    destruct (String.eqb apiKey ""), (String.eqb baseUrl ""); simpl.
    + now rewrite !get_delete_entry_other.
    + now rewrite get_set_entry_other, get_delete_entry_other.
    + now rewrite get_delete_entry_other, get_set_entry_other.
    + now rewrite !get_set_entry_other.
  - intros key Hkey. now apply get_set_entry_other.
Qed.

Lemma no_name_find c n :
  (forall p, p ∈ providers c -> name p <> n) ->
  find_ref (has_name n) (providers c) = None.
Proof.
  intros Hnone. apply find_ref_None. intros p Hp. apply String.eqb_neq. auto.
Qed.

(** X24. A provider asked for on the command line is looked up by id
    first and by name only when no id matches: a name that is also
    another provider's id is shadowed by that id. The answer is always
    the id of a stored provider, and there is none when neither an id nor
    a name matches. *)
Theorem resolve_provider_prefers_ids (c : ProvidersConfig) (selected : string) :
  (forall k P,
     first_with_id c selected k P -> Start.resolve_provider c selected = Some selected) /\
  (forall k P,
     (forall p, p ∈ providers c -> id p <> selected) ->
     providers c !! k = Some P -> name P = selected ->
     (forall j q, (j < k)%nat -> providers c !! j = Some q -> name q <> selected) ->
     Start.resolve_provider c selected = Some (id P)) /\
  ((forall p, p ∈ providers c -> id p <> selected /\ name p <> selected) ->
   Start.resolve_provider c selected = None) /\
  (forall i, Start.resolve_provider c selected = Some i -> i ∈ ids c).
Proof.
  unfold Start.resolve_provider. split; [|split; [|split]].
  - intros k P Hfirst. rewrite (first_with_id_find _ _ _ _ Hfirst). simpl.
    destruct Hfirst as (-> & -> & _). reflexivity.
  - intros k P Hnone Hk Hn Hfirst. rewrite (no_id_find c selected Hnone).
    replace (find_ref (has_name selected) (providers c)) with (Some k).
    + simpl. now rewrite Hk.
    + symmetry. apply find_ref_Some. exists P. split; [exact Hk|].
      split; [now apply String.eqb_eq|].
      intros j q Hj Hq. apply String.eqb_neq. eauto.
  - intros Hnone. rewrite (no_id_find c selected) by (intros p Hp; now apply Hnone).
    rewrite (no_name_find c selected) by (intros p Hp; now apply Hnone).
    reflexivity.
  - intros i.
    destruct (match find_ref (has_id selected) (providers c) with
              | Some r => Some r
              | None => find_ref (has_name selected) (providers c)
              end) as [r|]; simpl; [|discriminate].
    destruct (providers c !! r) as [p|] eqn:Hr; [|discriminate].
    intros [= <-]. unfold ids. apply list_elem_of_fmap. exists p.
    split; [reflexivity|]. apply list_elem_of_lookup. eauto.
Qed.

(** *** The menu *)



Lemma insert_sorted_perm {A} (cmp : A -> A -> Z) x l :
  Start.insert_sorted cmp x l ≡ₚ x :: l.
Proof.
  induction l as [|y l IH]; simpl; [reflexivity|].
  destruct (cmp y x <=? 0); [|reflexivity].
  rewrite IH. apply Permutation_swap.
Qed.

Lemma sort_perm {A} (cmp : A -> A -> Z) l : Start.sort cmp l ≡ₚ l.
Proof.
  unfold Start.sort.
  assert (forall acc, fold_left (fun sorted x => Start.insert_sorted cmp x sorted) l acc
                      ≡ₚ acc ++ l) as Hgen.
  { induction l as [|x l IH]; intros acc; simpl.
    - now rewrite app_nil_r.
    - rewrite IH, insert_sorted_perm. simpl. apply Permutation_middle. }
  apply (Hgen []).
Qed.





End StartFacts.

(** ** The command: what it may do to the stores and when it launches *)

Section CommandFacts.
Context `{Runtime} `{Start.Platform}.
Import ClaudeSettings ProviderStorage.

Lemma launches_show_spawn t command :
  launches (Start.show (Start.ShownSpawn command) t) = launches t ++ [command].
Proof. unfold launches, Start.show. simpl. now rewrite omap_app. Qed.

Lemma launches_show t s :
  (forall command, s <> Start.ShownSpawn command) ->
  launches (Start.show s t) = launches t.
Proof.
  intros Hs. unfold launches, Start.show. simpl. rewrite omap_app. simpl.
  destruct s; try apply app_nil_r. now contradiction (Hs command).
Qed.

Ltac launches_tac :=
  unfold launches, Start.show; simpl; rewrite ?omap_app; simpl;
  rewrite ?app_nil_r; rewrite <- ?app_assoc; try reflexivity.

Lemma quiet_cret {A} (a : A) : quiet (Start.cret a).
Proof. intros t w. split; [reflexivity|discriminate]. Qed.

Lemma quiet_raise {A} (e : error) : quiet (Start.raise (A := A) e).
Proof. intros t w. split; [reflexivity|discriminate]. Qed.

Lemma quiet_lift {A} (m : io A) : quiet (Start.lift m).
Proof.
  intros t w. unfold Start.lift. destruct (m w); split; try reflexivity; discriminate.
Qed.

Lemma quiet_cbind {A B} (m : Start.cmd A) (k : A -> Start.cmd B) :
  quiet m -> (forall a, quiet (k a)) -> quiet (Start.cbind m k).
Proof.
  intros Hm Hk t w. unfold Start.cbind. specialize (Hm t w).
  destruct (m t w) as [[[a|e|code] t1] w1]; simpl in *.
  - destruct (Hk a t1 w1) as [H1 H2]. split; [now rewrite H1, (proj1 Hm)|exact H2].
  - split; [apply Hm|discriminate].
  - destruct Hm as [_ Hm]. now contradiction (Hm code).
Qed.

Lemma quiet_catch {A} (body : Start.cmd A) (handler : error -> Start.cmd A) :
  quiet body -> (forall e, quiet (handler e)) -> quiet (Start.catch body handler).
Proof.
  intros Hm Hk t w. unfold Start.catch. specialize (Hm t w).
  destruct (body t w) as [[[a|e|code] t1] w1]; simpl in *.
  - exact Hm.
  - destruct (Hk e t1 w1) as [H1 H2]. split; [now rewrite H1, (proj1 Hm)|exact H2].
  - exact Hm.
Qed.

Lemma quiet_select prompt options : quiet (Start.select prompt options).
Proof.
  intros t w. split; [|discriminate]. unfold Start.select. simpl.
  now rewrite launches_show by discriminate.
Qed.

Lemma quiet_input prompt placeholder defaultValue :
  quiet (Start.input prompt placeholder defaultValue).
Proof.
  intros t w. split; [|discriminate]. unfold Start.input. simpl.
  now rewrite launches_show by discriminate.
Qed.

Lemma quiet_confirm text defaultValue : quiet (Start.confirm text defaultValue).
Proof.
  intros t w. split; [|discriminate]. unfold Start.confirm. simpl.
  now rewrite launches_show by discriminate.
Qed.

Lemma quiet_output text : quiet (Start.output text).
Proof.
  intros t w. split; [|discriminate]. unfold Start.output. simpl.
  now rewrite launches_show by discriminate.
Qed.

Lemma quiet_error text : quiet (Start.error' text).
Proof.
  intros t w. split; [|discriminate]. unfold Start.error'. simpl.
  now rewrite launches_show by discriminate.
Qed.

Lemma quiet_env_entry key settings : quiet (Start.env_entry key settings).
Proof. destruct settings; (apply quiet_raise || apply quiet_cret). Qed.

Lemma quiet_startsWith prefix token : quiet (Start.startsWith prefix token).
Proof. destruct token as [[]|]; (apply quiet_raise || apply quiet_cret). Qed.

Ltac quiet_step :=
  match goal with
  | |- quiet (Start.cbind _ _) => apply quiet_cbind; [|intros ?]
  | |- quiet (Start.catch _ _) => apply quiet_catch; [|intros ?]
  | |- quiet (Start.lift _) => apply quiet_lift
  | |- quiet (Start.select _ _) => apply quiet_select
  | |- quiet (Start.input _ _ _) => apply quiet_input
  | |- quiet (Start.confirm _ _) => apply quiet_confirm
  | |- quiet (Start.output _) => apply quiet_output
  | |- quiet (Start.error' _) => apply quiet_error
  | |- quiet (Start.env_entry _ _) => apply quiet_env_entry
  | |- quiet (Start.startsWith _ _) => apply quiet_startsWith
  | |- quiet (Start.cret _) => apply quiet_cret
  | |- quiet (Start.raise _) => apply quiet_raise
  | |- quiet (if ?b then _ else _) => destruct b
  | |- quiet (match ?x with _ => _ end) => destruct x
  end.

Lemma executeAdd_quiet : quiet Start.executeAdd.
Proof. unfold Start.executeAdd. repeat quiet_step. Qed.

Lemma executeRemove_quiet : quiet Start.executeRemove.
Proof. unfold Start.executeRemove, Start.loadConfig. repeat quiet_step. Qed.

(** What the menu does when it comes up, and when it cannot. *)
Lemma providerOption_runs c p t w :
  (unlistable p /\ Start.providerOption c p t w = (Start.Raised TypeError, t, w)) \/
  (~ unlistable p /\ exists o, Start.providerOption c p t w = (Start.Finished o, t, w)).
Proof.
  unfold Start.providerOption, Start.cbind, Start.env_entry, unlistable.
  destruct (settingsConfig p) eqn:Hs;
    try (right; split;
         [intros [Hnull|(url & Hurl & _)]; [discriminate Hnull|discriminate Hurl]
         |simpl; eexists; reflexivity]).
  - left. split; [now left|reflexivity].
  - simpl.
    destruct (Start.get_entry "env" entries ≫= Start.member "ANTHROPIC_BASE_URL")
      as [url|] eqn:Hurl; simpl.
    + destruct (truthy url) eqn:Htruthy.
      * destruct (Start.URL_host url) as [host|] eqn:Hhost; simpl.
        -- right. split; [|eexists; reflexivity].
           intros [Hnull|(url' & Hurl' & _ & Hbad)]; [discriminate|].
           simpl in Hurl'. congruence.
        -- left. split; [|reflexivity]. right. exists url. auto.
      * right. split; [|eexists; reflexivity].
        intros [Hnull|(url' & Hurl' & Ht & _)]; [discriminate|].
        simpl in Hurl'. congruence.
    + right. split; [|eexists; reflexivity].
      intros [Hnull|(url' & Hurl' & _)]; [discriminate|].
      simpl in Hurl'. congruence.
Qed.

Lemma map_cmd_runs c (l : list Provider) t w :
  ((exists p, p ∈ l /\ unlistable p) /\
   Start.map_cmd (Start.providerOption c) l t w = (Start.Raised TypeError, t, w)) \/
  ((forall p, p ∈ l -> ~ unlistable p) /\
   exists options,
     Start.map_cmd (Start.providerOption c) l t w = (Start.Finished options, t, w)).
Proof.
  induction l as [|p l IH]; cbn [Start.map_cmd].
  - right. split; [intros p Hp; inversion Hp|]. eexists. reflexivity.
  - unfold Start.cbind.
    destruct (providerOption_runs c p t w) as [[Hbad Hrun]|[Hgood [o Hrun]]];
      rewrite Hrun; cbn beta iota.
    + left. split; [|reflexivity]. exists p. split; [apply elem_of_cons; now left|exact Hbad].
    + destruct IH as [[(q & Hq & Hbad) Hrest]|[Hall [options Hrest]]];
        rewrite Hrest; cbn beta iota.
      * left. split; [|reflexivity]. exists q. split; [|exact Hbad].
        apply elem_of_cons. now right.
      * right. split; [|eexists; reflexivity].
        intros q Hq. apply elem_of_cons in Hq as [->|Hq]; auto.
Qed.

Lemma menu_runs c t w :
  ((exists p, p ∈ providers c /\ unlistable p) /\
   Start.menu c t w = (Start.Raised TypeError, t, w)) \/
  ((forall p, p ∈ providers c -> ~ unlistable p) /\
   exists t',
     Start.menu c t w = (Start.Finished (hd "" (Start.selections t)), t', w) /\
     launches t' = launches t /\
     Start.entries t' = Start.entries t /\
     Start.confirmations t' = Start.confirmations t /\
     Start.children t' = Start.children t).
Proof.
  unfold Start.menu, Start.cbind.
  destruct (map_cmd_runs c (Start.sortedProviders c) t w)
    as [[(p & Hp & Hbad) Hrun]|[Hall [options Hrun]]]; rewrite Hrun; cbn beta iota.
  - left. split; [|reflexivity]. exists p. split; [|exact Hbad].
    unfold Start.sortedProviders in Hp. now rewrite sort_perm in Hp.
  - right. split.
    + intros p Hp. apply Hall. unfold Start.sortedProviders. now rewrite sort_perm.
    + eexists. split; [reflexivity|]. simpl.
      split; [now rewrite launches_show by discriminate|auto].
Qed.

Lemma find_by_id c i p :
  (find_ref (has_id i) (providers c) ≫= fun r => providers c !! r) = Some p ->
  p ∈ providers c /\ id p = i.
Proof.
  destruct (find_ref (has_id i) (providers c)) as [k|] eqn:Hfind; [|discriminate].
  simpl. intros Hk. apply find_ref_Some in Hfind as (q & Hq & Hid & _).
  assert (q = p) as -> by congruence.
  split; [apply list_elem_of_lookup; eauto|now apply String.eqb_eq].
Qed.

(** The switch, then the launch: the process is started when the switch
    and its report went through, and only then. *)
Lemma switch_and_launch_runs p t w :
  let r := Start.switch_and_launch p t w in
  (launches r.1.2 = launches t /\ (forall code, r.1.1 <> Start.Exited code)) \/
  (exists P,
     switchProvider (id p) w = Return P r.2 /\
     settingsConfig p <> JNull /\
     launches r.1.2 = launches t ++ [["sh"; "-c"; "exec claude"]] /\
     r.1.1 = Start.Exited (exit_code (hd (Start.ChildExits None) (Start.children t)))).
Proof.
  unfold Start.switch_and_launch, Start.cbind, Start.catch, Start.lift.
  destruct (switchProvider (id p) w) as [P w'|e w'] eqn:Hswitch; simpl.
  - unfold Start.env_entry, Start.spawn.
    destruct (settingsConfig p) eqn:Hs; simpl;
      try (right; exists P;
           destruct (hd (Start.ChildExits None) (Start.children t)); simpl;
           (split; [reflexivity|]); (split; [discriminate|]);
           (split; [|reflexivity]); launches_tac).
    left. split; [|discriminate]. launches_tac.
  - left. split; [|discriminate]. launches_tac.
Qed.

Lemma proceed_runs c selected t w :
  let r := Start.proceed c selected t w in
  (launches r.1.2 = launches t /\ (forall code, r.1.1 <> Start.Exited code)) \/
  (exists p P,
     p ∈ providers c /\
     switchProvider (id p) w = Return P r.2 /\
     launches r.1.2 = launches t ++ [["sh"; "-c"; "exec claude"]] /\
     exists code, r.1.1 = Start.Exited code).
Proof.
  assert (forall i t1,
            launches t1 = launches t ->
            let r := (if String.eqb i Start.ADD_OPTION then Start.executeAdd
                      else if String.eqb i Start.REMOVE_OPTION then Start.executeRemove
                      else match find_ref (has_id i) (providers c)
                                   ≫= fun r => providers c !! r with
                           | Some provider => Start.switch_and_launch provider
                           | None => Start.error' "Provider not found"
                           end) t1 w in
            (launches r.1.2 = launches t /\ (forall code, r.1.1 <> Start.Exited code)) \/
            (exists p P,
               p ∈ providers c /\
               switchProvider (id p) w = Return P r.2 /\
               launches r.1.2 = launches t ++ [["sh"; "-c"; "exec claude"]] /\
               exists code, r.1.1 = Start.Exited code)) as Hrest.
  { intros i t1 Ht1. cbv zeta.
    destruct (String.eqb i Start.ADD_OPTION).
    { left. rewrite <- Ht1. apply (executeAdd_quiet t1 w). }
    destruct (String.eqb i Start.REMOVE_OPTION).
    { left. rewrite <- Ht1. apply (executeRemove_quiet t1 w). }
    destruct (find_ref (has_id i) (providers c) ≫= fun r => providers c !! r)
      as [p|] eqn:Hfind.
    - apply find_by_id in Hfind as [Hp _].
      destruct (switch_and_launch_runs p t1 w) as [Hquiet|(P & Hswitch & _ & Hl & He)].
      + left. now rewrite <- Ht1.
      + right. exists p, P. rewrite <- Ht1. eauto.
    - left. rewrite <- Ht1. apply (quiet_error _ t1 w). }
  cbv zeta. unfold Start.proceed, Start.cbind. destruct (String.eqb selected "").
  - destruct (menu_runs c t w) as [[_ Hrun]|[_ (t1 & Hrun & Hl & _)]];
      rewrite Hrun; cbn beta iota.
    + left. split; [reflexivity|discriminate].
    + now apply Hrest.
  - unfold Start.cret. cbn beta iota. now apply Hrest.
Qed.

Lemma loadConfig_lift t w :
  Start.loadConfig t w
  = Start.lift (parsed <- loadProviders ;; typed as_ProvidersConfig parsed) t w.
Proof.
  unfold Start.loadConfig, Start.cbind, Start.lift, bind.
  now destruct (loadProviders w).
Qed.

Lemma loadConfig_stored t w c :
  calm w -> stored w c -> Start.loadConfig t w = (Start.Finished c, t, w).
Proof.
  intros Hc Hs. rewrite loadConfig_lift. unfold Start.lift.
  pose proof (with_stored_config ret w c Hc Hs) as Hrun.
  unfold bind in Hrun |- *.
  destruct (loadProviders w) as [v w1|e w1]; [|discriminate].
  destruct (typed as_ProvidersConfig v w1) as [c' w2|e w2]; [|discriminate].
  now inversion Hrun.
Qed.

(** X26. Whatever the stores hold, whatever fails and whatever the user
    answers, [startTool.execute] starts Claude Code at most once, and only
    when [switchProvider] has returned for a provider of the configuration
    it loaded; the stores are then as that switch left them, and the
    command ends by [process.exit]. In every other run nothing is
    started and the process is not stopped: that covers the add and the
    remove flows, an unknown provider, and a switch that failed. *)
Theorem execute_launches_only_after_switch
    (provider : option string) (t t' : Start.Terminal) (w w' : World)
    (e : Start.ending unit) :
  Start.execute provider t w = (e, t', w') ->
  (launches t' = launches t /\ forall code, e <> Start.Exited code) \/
  (exists c w0 p P,
     (parsed <- loadProviders ;; typed as_ProvidersConfig parsed) w = Return c w0 /\
     p ∈ providers c /\
     switchProvider (id p) w0 = Return P w' /\
     launches t' = launches t ++ [["sh"; "-c"; "exec claude"]] /\
     exists code, e = Start.Exited code).
Proof.
  unfold Start.execute, Start.cbind at 1. rewrite loadConfig_lift. unfold Start.lift.
  destruct ((parsed <- loadProviders ;; typed as_ProvidersConfig parsed) w)
    as [c w0|err w0] eqn:Hload.
  - assert (forall selected,
              Start.proceed c selected t w0 = (e, t', w') ->
              (launches t' = launches t /\ forall code, e <> Start.Exited code) \/
              (exists c1 w1 p P,
                 Return c w0 = Return c1 w1 /\
                 p ∈ providers c1 /\
                 switchProvider (id p) w1 = Return P w' /\
                 launches t' = launches t ++ [["sh"; "-c"; "exec claude"]] /\
                 exists code, e = Start.Exited code)) as Hproceed.
    { intros selected Hrun.
      pose proof (proceed_runs c selected t w0) as Hcases. rewrite Hrun in Hcases.
      destruct Hcases as [Hquiet|(p & P & Hp & Hswitch & Hl & Hcode)];
        [now left|right].
      exists c, w0, p, P. auto. }
    destruct (length (providers c) =? 0)%nat.
    + intros Hrun. left.
      assert (quiet (Start.cbind
                       (Start.output ("No providers configured. Let's add one."
                                      +:+ Start.newline))
                       (fun _ => Start.executeAdd))) as Hquiet
        by (apply quiet_cbind; [apply quiet_output|intros _; apply executeAdd_quiet]).
      specialize (Hquiet t w0). now rewrite Hrun in Hquiet.
    + cbv zeta. destruct (negb (String.eqb (default "" provider) "")).
      * destruct (Start.resolve_provider c (default "" provider)) as [found|].
        -- apply Hproceed.
        -- intros Hrun. left.
           pose proof (quiet_error ("Provider '" +:+ default "" provider +:+ "' not found")
                         t w0) as Hquiet.
           now rewrite Hrun in Hquiet.
      * apply Hproceed.
  - intros [= <- <- <-]. left. split; [reflexivity|discriminate].
Qed.

Ltac run_cmd :=
  unfold Start.cbind, Start.catch, Start.lift, Start.select, Start.input,
    Start.confirm, Start.output, Start.error', Start.cret, Start.raise,
    Start.process_exit;
  cbn beta iota zeta delta
    [Start.show Start.selections Start.entries Start.confirmations
     Start.children Start.screen hd tl].


Lemma execute_loaded provider t w c :
  calm w -> stored w c -> providers c <> [] ->
  Start.execute provider t w
  = if negb (String.eqb (default "" provider) "")
    then match Start.resolve_provider c (default "" provider) with
         | Some found => Start.proceed c found t w
         | None =>
             Start.error' ("Provider '" +:+ default "" provider +:+ "' not found") t w
         end
    else Start.proceed c (default "" provider) t w.
Proof.
  intros Hc Hs Hsome. unfold Start.execute, Start.cbind at 1.
  rewrite (loadConfig_stored t w c Hc Hs). cbn beta iota zeta.
  replace (length (providers c) =? 0)%nat with false
    by (destruct (providers c); [contradiction|reflexivity]).
  destruct (negb _); [destruct (Start.resolve_provider _ _)|]; reflexivity.
Qed.

Lemma proceed_chosen c i k P t w :
  i <> "" -> i <> Start.ADD_OPTION -> i <> Start.REMOVE_OPTION ->
  first_with_id c i k P ->
  Start.proceed c i t w = Start.switch_and_launch P t w.
Proof.
  intros Hne Hadd Hremove Hfirst. unfold Start.proceed, Start.cbind at 1.
  rewrite (proj2 (String.eqb_neq i "") Hne). unfold Start.cret. cbn beta iota.
  rewrite (proj2 (String.eqb_neq _ _) Hadd), (proj2 (String.eqb_neq _ _) Hremove).
  rewrite (first_with_id_find _ _ _ _ Hfirst). simpl.
  destruct Hfirst as (-> & _). reflexivity.
Qed.

Lemma switch_and_launch_success p t w P w' :
  switchProvider (id p) w = Return P w' ->
  settingsConfig p <> JNull ->
  exists t',
    Start.switch_and_launch p t w
    = (Start.Exited (exit_code (hd (Start.ChildExits None) (Start.children t))), t', w') /\
    unprompted t t' /\
    launches t' = launches t ++ [["sh"; "-c"; "exec claude"]].
Proof.
  intros Hswitch Hsettings.
  unfold Start.switch_and_launch, Start.cbind, Start.catch, Start.lift.
  rewrite Hswitch. cbn beta iota. unfold Start.env_entry, Start.spawn.
  destruct (settingsConfig p) eqn:Hs; [contradiction| | | | |]; simpl;
    destruct (hd (Start.ChildExits None) (Start.children t)); simpl;
    eexists; (split; [reflexivity|]); (split; [repeat split|]); launches_tac.
Qed.

(** X27. Asked for a provider by its id or by its name,
    [startTool.execute] prompts for nothing, switches to the provider
    resolved (the configuration persisted is the switched one, the live
    file holds that provider's settings) and then launches Claude Code
    once, ending with the child's exit code, 0 when it has none. When the
    launch itself fails the command exits with 1 and the switch stays in
    effect. The provider's id is none of the empty string and the two menu
    actions, and its settings are not [null]. *)
Theorem execute_switches_then_launches
    (t : Start.Terminal) (w : World) (c : ProvidersConfig) (live : json)
    (requested i : string) (k : nat) (P : Provider) :
  calm w ->
  stored w c ->
  is_dir w (dirname CLAUDE_SETTINGS_PATH) = true ->
  live_value w live ->
  requested <> "" ->
  Start.resolve_provider c requested = Some i ->
  i <> "" -> i <> Start.ADD_OPTION -> i <> Start.REMOVE_OPTION ->
  first_with_id c i k P ->
  settingsConfig P <> JNull ->
  exists t' w',
    Start.execute (Some requested) t w
    = (Start.Exited (exit_code (hd (Start.ChildExits None) (Start.children t))), t', w') /\
    unprompted t t' /\
    launches t' = launches t ++ [["sh"; "-c"; "exec claude"]] /\
    persists w' (switched c live i) /\
    files w' !! CLAUDE_SETTINGS_PATH = Some (JSON_stringify (settingsConfig P)).
Proof.
  intros Hc Hs Hd Hlive Hreq Hresolve Hne Hadd Hremove Hfirst Hsettings.
  destruct (switchProvider_calm w c live i k P Hc Hs Hd Hlive Hfirst)
    as (w' & Hswitch & _ & _ & Hstore & Hfile).
  assert (providers c <> []) as Hsome.
  { destruct Hfirst as (Hk & _). intros Hnil. rewrite Hnil in Hk. discriminate. }
  assert (id P = i) as Hid by apply Hfirst.
  rewrite <- Hid in Hswitch.
  destruct (switch_and_launch_success P t w P w' Hswitch Hsettings)
    as (t' & Hrun & Hprompt & Hlaunch).
  exists t', w'. split; [|auto].
  rewrite (execute_loaded _ t w c Hc Hs Hsome). simpl default.
  rewrite (proj2 (String.eqb_neq requested "") Hreq). simpl negb. cbn iota.
  rewrite Hresolve. now rewrite (proceed_chosen c i k P t w Hne Hadd Hremove Hfirst).
Qed.

(** X28. Two runs of [startTool.execute] stop before any prompt and
    leave both stores untouched. Asked for a provider that matches no id
    and no name, it reports that the provider is not found and returns.
    Asked for none, it builds the menu first, and when a stored provider
    cannot be listed (its settings are [null], or its endpoint is not an
    address [new URL] accepts) the [TypeError] escapes: no menu comes up,
    so neither the other providers nor the add and remove actions can be
    reached. *)
Theorem execute_stops_before_any_prompt
    (t : Start.Terminal) (w : World) (c : ProvidersConfig) :
  calm w ->
  stored w c ->
  providers c <> [] ->
  (forall requested,
     requested <> "" ->
     (forall p, p ∈ providers c -> id p <> requested /\ name p <> requested) ->
     Start.execute (Some requested) t w
     = (Start.Finished tt,
        Start.show (Start.ShownError ("Provider '" +:+ requested +:+ "' not found")) t,
        w)) /\
  (forall provider,
     default "" provider = "" ->
     (exists p, p ∈ providers c /\ unlistable p) ->
     Start.execute provider t w = (Start.Raised TypeError, t, w)).
Proof.
  intros Hc Hs Hsome. split.
  - intros requested Hreq Hnone.
    rewrite (execute_loaded _ t w c Hc Hs Hsome). simpl default.
    rewrite (proj2 (String.eqb_neq requested "") Hreq). simpl negb. cbn iota.
    unfold Start.resolve_provider.
    rewrite (no_id_find c requested) by (intros p Hp; now apply Hnone).
    rewrite (no_name_find c requested) by (intros p Hp; now apply Hnone).
    reflexivity.
  - intros provider Hnone Hbad.
    rewrite (execute_loaded _ t w c Hc Hs Hsome), Hnone. simpl.
    unfold Start.proceed, Start.cbind at 1. simpl.
    destruct (menu_runs c t w) as [[_ Hrun]|[Hall _]].
    + now rewrite Hrun.
    + destruct Hbad as (p & Hp & Hbad). now contradiction (Hall p Hp).
Qed.

(** X29. [executeRemove] removes nothing before it is confirmed. When
    the confirmation (whose default is no) is declined, the stores are
    exactly as they were, whoever was selected. When it is given and the
    selection is a stored provider, what is persisted is the
    configuration without the providers of that id, the pointer cleared if
    it named them. When it is given for an id that is not stored, nothing
    is written and the failure is reported. *)
Theorem executeRemove_removes_on_confirmation
    (t : Start.Terminal) (w : World) (c : ProvidersConfig) :
  calm w ->
  stored w c ->
  providers c <> [] ->
  let i := hd "" (Start.selections t) in
  let providerName :=
    Start.name_or_id
      (find_ref (has_id i) (providers c) ≫= fun r => providers c !! r) i in
  (hd false (Start.confirmations t) = false ->
   exists t',
     Start.executeRemove t w = (Start.Finished tt, t', w) /\
     last (Start.screen t') = Some (Start.ShownOutput "Cancelled")) /\
  (hd false (Start.confirmations t) = true ->
   (exists p, p ∈ providers c /\ id p = i) ->
   exists t' w',
     Start.executeRemove t w = (Start.Finished tt, t', w') /\
     persists w' (removed c i) /\
     Start.ShownConfirm ("Remove provider '" +:+ providerName +:+ "'?") false
       ∈ Start.screen t' /\
     last (Start.screen t')
     = Some (Start.ShownOutput ("Provider '" +:+ providerName +:+ "' removed"))) /\
  (hd false (Start.confirmations t) = true ->
   (forall p, p ∈ providers c -> id p <> i) ->
   exists t',
     Start.executeRemove t w = (Start.Finished tt, t', w) /\
     last (Start.screen t')
     = Some (Start.ShownError ("Provider '" +:+ i +:+ "' not found"))).
Proof.
  intros Hc Hs Hsome i providerName.
  assert (forall k : ProvidersConfig -> Start.cmd unit,
            Start.cbind Start.loadConfig k t w = k c t w) as Hload.
  { intros k. unfold Start.cbind. now rewrite (loadConfig_stored t w c Hc Hs). }
  unfold Start.executeRemove. rewrite Hload.
  replace (length (providers c) =? 0)%nat with false
    by (destruct (providers c); [contradiction|reflexivity]).
  split; [|split].
  - intros Hno. run_cmd. rewrite Hno. cbn beta iota delta [negb].
    eexists. split; [reflexivity|]. simpl. apply last_snoc.
  - intros Hyes Hstored.
    destruct (removeProvider_found w c i Hc Hs Hstored) as (w' & Hrun & _ & _ & Hfile).
    run_cmd. rewrite Hyes. cbn beta iota delta [negb]. fold i. rewrite Hrun.
    cbn beta iota.
    eexists. exists w'. split; [reflexivity|]. split; [exact Hfile|].
    simpl. split; [|apply last_snoc].
    fold providerName. rewrite !elem_of_app, !list_elem_of_singleton. auto.
  - intros Hyes Hnone.
    pose proof (removeProvider_none w c i Hc Hs Hnone) as Hrun.
    run_cmd. rewrite Hyes. cbn beta iota delta [negb]. fold i. rewrite Hrun.
    cbn beta iota.
    eexists. split; [reflexivity|]. simpl.
    rewrite (no_id_find c i Hnone). simpl. apply last_snoc.
Qed.




End CommandFacts.

(** ** The results on sample worlds *)

Lemma stored_by_file `{Runtime} (w : World) (c : ProvidersConfig) :
  is_dir w ProviderStorage.CONFIG_DIR = true ->
  files w !! ProviderStorage.CONFIG_FILE
    = Some (JSON_stringify (ProvidersConfig_to_json c)) ->
  reads_back (ProvidersConfig_to_json c) ->
  stored w c.
Proof.
  intros Hd Hf Hback. split; [exact Hd|].
  exists (ProvidersConfig_to_json c). split.
  - eexists. split; [exact Hf|exact Hback].
  - apply as_ProvidersConfig_to_json.
Qed.

Lemma sample_live_holds :
  holds (H := SampleRuntime.runtime) Samples.switch_disk
    (ClaudeSettings.CLAUDE_SETTINGS_PATH (H := SampleRuntime.runtime))
    Samples.edited_live.
Proof.
  exists (SampleRuntime.stringify Samples.edited_live). split; vm_compute; reflexivity.
Qed.

Lemma saveProviders_then_loadProviders_witness :
  exists w',
    ProviderStorage.saveProviders (H := SampleRuntime.runtime)
      Samples.two_providers Samples.fresh_disk = Return tt w' /\
    ProviderStorage.loadProviders (H := SampleRuntime.runtime) w'
    = Return (ProvidersConfig_to_json Samples.two_providers) w'.
Proof.
  destruct (saveProviders_then_loadProviders (H := SampleRuntime.runtime)
              Samples.two_providers Samples.fresh_disk eq_refl)
    as (w' & Hsave & Hload & _).
  - repeat constructor.
  - vm_compute. reflexivity.
  - exists w'. split; assumption.
Defined.

Lemma save_leaves_only_its_file_witness :
  (exists w',
     ProviderStorage.saveProviders (H := SampleRuntime.runtime)
       Samples.dangling Samples.switch_disk = Return tt w' /\
     files w' !! ["home"; "user"; ".cc"; ".providers.json.tmp.1700000000000"] = None /\
     files w' !! ["home"; "user"; ".claude"; "settings.json"]
     = Some (SampleRuntime.stringify Samples.edited_live) /\
     dirs w' = dirs Samples.switch_disk) /\
  (exists w',
     ProviderStorage.saveProviders (H := SampleRuntime.runtime)
       Samples.dangling Samples.fresh_disk = Return tt w' /\
     files w' !! ["home"; "user"; ".cc"; ".providers.json.tmp.1700000000000"] = None /\
     files w' !! ["home"; "user"; ".cc"; "providers.json"]
     = Some (SampleRuntime.stringify (ProvidersConfig_to_json Samples.dangling)) /\
     is_dir Samples.fresh_disk ["home"; "user"; ".cc"] = false /\
     is_dir w' ["home"; "user"; ".cc"] = true /\
     is_dir w' ["home"; "user"; ".claude"] = false).
Proof.
  split.
  - destruct (save_leaves_only_its_file (H := SampleRuntime.runtime)
                Samples.switch_disk eq_refl) as [Hstore _].
    destruct (Hstore Samples.dangling) as (w' & Hsave & Hfiles & Hdirs).
    + repeat constructor.
    + exists w'. split; [exact Hsave|]. rewrite Hfiles.
      split; [vm_compute; reflexivity|]. split; [vm_compute; reflexivity|].
      exact Hdirs.
  - destruct (save_leaves_only_its_file (H := SampleRuntime.runtime)
                Samples.fresh_disk eq_refl) as [Hstore _].
    destruct (Hstore Samples.dangling) as (w' & Hsave & Hfiles & Hdirs).
    + repeat constructor.
    + exists w'. split; [exact Hsave|]. rewrite Hfiles. unfold is_dir. rewrite Hdirs.
      repeat split; vm_compute; reflexivity.
Defined.

Lemma saveClaudeSettings_needs_directory_witness :
  exists w',
    ClaudeSettings.saveClaudeSettings (H := SampleRuntime.runtime)
      Samples.edited_live Samples.fresh_disk
    = Throw (SystemError "ENOENT") w' /\
    files w' = files Samples.fresh_disk /\ dirs w' = dirs Samples.fresh_disk.
Proof.
  apply (saveClaudeSettings_needs_directory (H := SampleRuntime.runtime)
           Samples.edited_live Samples.fresh_disk eq_refl).
  - vm_compute. reflexivity.
  - split; vm_compute; reflexivity.
Defined.

Lemma loadClaudeSettings_absent_or_malformed_witness :
  ClaudeSettings.loadClaudeSettings (H := SampleRuntime.runtime) Samples.fresh_disk
  = Return JNull Samples.fresh_disk /\
  ClaudeSettings.loadClaudeSettings (H := SampleRuntime.runtime) Samples.garbled_live_disk
  = Throw SyntaxError Samples.garbled_live_disk.
Proof.
  destruct (loadClaudeSettings_absent_or_malformed (H := SampleRuntime.runtime)
              Samples.fresh_disk) as [Habsent _].
  destruct (loadClaudeSettings_absent_or_malformed (H := SampleRuntime.runtime)
              Samples.garbled_live_disk) as [_ Hgarbled].
  split.
  - apply Habsent. split; vm_compute; reflexivity.
  - apply (Hgarbled "{ env: "); vm_compute; reflexivity.
Defined.

Lemma sample_stored_two (w : World) :
  is_dir w (ProviderStorage.CONFIG_DIR (H := SampleRuntime.runtime)) = true ->
  files w !! ProviderStorage.CONFIG_FILE (H := SampleRuntime.runtime)
    = Some (SampleRuntime.stringify (ProvidersConfig_to_json Samples.two_providers)) ->
  stored (H := SampleRuntime.runtime) w Samples.two_providers.
Proof.
  intros Hd Hf. apply (stored_by_file (H := SampleRuntime.runtime)); auto.
  vm_compute. reflexivity.
Qed.

Lemma sample_stored_dangling :
  stored (H := SampleRuntime.runtime) Samples.dangling_disk Samples.dangling.
Proof.
  apply (stored_by_file (H := SampleRuntime.runtime)); vm_compute; reflexivity.
Qed.

Lemma sample_first_dangling_P2 : first_with_id Samples.dangling "P2" 1 Samples.P2.
Proof.
  split; [reflexivity|]. split; [reflexivity|].
  intros [|j] q Hj Hq; [|lia]. inversion Hq. discriminate.
Qed.

Lemma switchProvider_without_live_directory_witness :
  exists w',
    ProviderStorage.switchProvider (H := SampleRuntime.runtime) "P2" Samples.no_claude_disk
    = Throw (SystemError "ENOENT") w' /\
    files w' !! ProviderStorage.CONFIG_FILE (H := SampleRuntime.runtime)
    = Some (SampleRuntime.stringify
              (ProvidersConfig_to_json
                 {| providers := [Samples.P1; Samples.P2];
                    currentProviderId := Some "P2" |})) /\
    files w' !! ClaudeSettings.CLAUDE_SETTINGS_PATH (H := SampleRuntime.runtime) = None.
Proof.
  apply (switchProvider_without_live_directory (H := SampleRuntime.runtime)
           Samples.no_claude_disk Samples.two_providers "P2" 1 Samples.P2 eq_refl).
  - apply sample_stored_two; vm_compute; reflexivity.
  - vm_compute. reflexivity.
  - split; vm_compute; reflexivity.
  - split; vm_compute; reflexivity.
  - exact sample_first_P2.
Defined.

Lemma switchProvider_failure_keeps_live_witness :
  thrown (ProviderStorage.switchProvider (H := SampleRuntime.runtime)
            "P2" Samples.live_rename_fails_disk)
  = Some (SystemError "EXDEV") /\
  files (final (ProviderStorage.switchProvider (H := SampleRuntime.runtime)
                  "P2" Samples.live_rename_fails_disk))
    !! ClaudeSettings.CLAUDE_SETTINGS_PATH (H := SampleRuntime.runtime)
  = files Samples.live_rename_fails_disk
      !! ClaudeSettings.CLAUDE_SETTINGS_PATH (H := SampleRuntime.runtime).
Proof.
  assert (thrown (ProviderStorage.switchProvider (H := SampleRuntime.runtime)
                    "P2" Samples.live_rename_fails_disk)
          = Some (SystemError "EXDEV")) as Hthrown
    by (vm_compute; reflexivity).
  split; [exact Hthrown|].
  apply (switchProvider_failure_keeps_live (H := SampleRuntime.runtime)
           "P2" Samples.live_rename_fails_disk _ (SystemError "EXDEV")).
  now apply thrown_final.
Defined.

Lemma switchProvider_skips_backfill_witness :
  (exists w',
     ProviderStorage.switchProvider (H := SampleRuntime.runtime) "P2" Samples.null_live_disk
     = Return Samples.P2 w' /\
     files w' !! ProviderStorage.CONFIG_FILE (H := SampleRuntime.runtime)
     = Some (SampleRuntime.stringify
               (ProvidersConfig_to_json
                  {| providers := [Samples.P1; Samples.P2];
                    currentProviderId := Some "P2" |})) /\
     files w' !! ClaudeSettings.CLAUDE_SETTINGS_PATH (H := SampleRuntime.runtime)
     = Some (SampleRuntime.stringify (settingsConfig Samples.P2))) /\
  (exists w',
     ProviderStorage.switchProvider (H := SampleRuntime.runtime) "P2" Samples.dangling_disk
     = Return Samples.P2 w' /\
     files w' !! ProviderStorage.CONFIG_FILE (H := SampleRuntime.runtime)
     = Some (SampleRuntime.stringify
               (ProvidersConfig_to_json
                  {| providers := [Samples.P1; Samples.P2];
                     currentProviderId := Some "P2" |})) /\
     files w' !! ClaudeSettings.CLAUDE_SETTINGS_PATH (H := SampleRuntime.runtime)
     = Some (SampleRuntime.stringify (settingsConfig Samples.P2))).
Proof.
  split.
  - apply (switchProvider_skips_backfill (H := SampleRuntime.runtime)
             Samples.null_live_disk Samples.two_providers "P2" 1 Samples.P2 eq_refl).
    + apply sample_stored_two; vm_compute; reflexivity.
    + vm_compute. reflexivity.
    + exact sample_first_P2.
    + right. right. right. exists JNull. split; [|reflexivity].
      exists "null". split; vm_compute; reflexivity.
  - apply (switchProvider_skips_backfill (H := SampleRuntime.runtime)
             Samples.dangling_disk Samples.dangling "P2" 1 Samples.P2 eq_refl).
    + exact sample_stored_dangling.
    + vm_compute. reflexivity.
    + exact sample_first_dangling_P2.
    + right. right. left. exists "gone". split; [reflexivity|].
      intros p Hp. vm_compute in Hp.
      apply elem_of_cons in Hp as [->|Hp]; [discriminate|].
      apply elem_of_cons in Hp as [->|Hp]; [discriminate|].
      inversion Hp.
Defined.

Lemma sample_switch_stored :
  stored (H := SampleRuntime.runtime) Samples.switch_disk Samples.two_providers.
Proof. apply sample_stored_two; vm_compute; reflexivity. Qed.

Lemma sample_switch_live_dir :
  is_dir Samples.switch_disk
    (dirname (ClaudeSettings.CLAUDE_SETTINGS_PATH (H := SampleRuntime.runtime))) = true.
Proof. vm_compute. reflexivity. Qed.

Lemma switchProvider_then_getCurrentProvider_witness :
  exists w',
    ProviderStorage.switchProvider (H := SampleRuntime.runtime) "P2" Samples.switch_disk
    = Return Samples.P2 w' /\
    ProviderStorage.getCurrentProvider (H := SampleRuntime.runtime) w'
    = Return (Some Samples.P2) w'.
Proof.
  apply (switchProvider_then_getCurrentProvider (H := SampleRuntime.runtime)
           Samples.switch_disk Samples.two_providers Samples.edited_live "P2" 1
           Samples.P2 eq_refl sample_switch_stored sample_switch_live_dir
           (or_intror sample_live_holds) sample_first_P2).
  - discriminate.
  - vm_compute. reflexivity.
Defined.

Lemma switchProvider_there_and_back_witness :
  exists w1 w2,
    ProviderStorage.switchProvider (H := SampleRuntime.runtime) "P2" Samples.switch_disk
    = Return Samples.P2 w1 /\
    ProviderStorage.switchProvider (H := SampleRuntime.runtime) "P1" w1
    = Return (set_settingsConfig Samples.edited_live Samples.P1) w2 /\
    files w2 !! ClaudeSettings.CLAUDE_SETTINGS_PATH (H := SampleRuntime.runtime)
    = Some (SampleRuntime.stringify Samples.edited_live).
Proof.
  apply (switchProvider_there_and_back (H := SampleRuntime.runtime)
           Samples.switch_disk Samples.two_providers Samples.edited_live "P1" "P2" 0 1
           Samples.P1 Samples.P2 eq_refl sample_switch_stored sample_switch_live_dir
           eq_refl).
  - discriminate.
  - discriminate.
  - exact sample_first_P1.
  - exact sample_first_P2.
  - exact sample_live_holds.
  - reflexivity.
  - vm_compute. reflexivity.
  - vm_compute. reflexivity.
Defined.

Lemma switchProvider_twice_witness :
  exists w1 w2,
    ProviderStorage.switchProvider (H := SampleRuntime.runtime) "P2" Samples.switch_disk
    = Return Samples.P2 w1 /\
    ProviderStorage.switchProvider (H := SampleRuntime.runtime) "P2" w1
    = Return Samples.P2 w2 /\
    files w2 !! ProviderStorage.CONFIG_FILE (H := SampleRuntime.runtime)
    = files w1 !! ProviderStorage.CONFIG_FILE (H := SampleRuntime.runtime) /\
    files w2 !! ClaudeSettings.CLAUDE_SETTINGS_PATH (H := SampleRuntime.runtime)
    = files w1 !! ClaudeSettings.CLAUDE_SETTINGS_PATH (H := SampleRuntime.runtime).
Proof.
  apply (switchProvider_twice (H := SampleRuntime.runtime)
           Samples.switch_disk Samples.two_providers Samples.edited_live "P2" 1
           Samples.P2 eq_refl sample_switch_stored sample_switch_live_dir
           (or_intror sample_live_holds) sample_first_P2).
  vm_compute. reflexivity.
Defined.

Lemma addProvider_appends_witness :
  exists w',
    ProviderStorage.addProvider (H := SampleRuntime.runtime)
      Samples.new_lab Samples.switch_disk = Return Samples.lab w' /\
    files w' !! ProviderStorage.CONFIG_FILE (H := SampleRuntime.runtime)
    = Some (SampleRuntime.stringify
              (ProvidersConfig_to_json
                 {| providers := [Samples.P1; Samples.P2; Samples.lab];
                    currentProviderId := Some "P1" |})).
Proof.
  exact (addProvider_appends (H := SampleRuntime.runtime)
           Samples.new_lab Samples.switch_disk Samples.two_providers
           eq_refl sample_switch_stored).
Defined.

Lemma addProvider_then_getProvider_witness :
  exists w',
    ProviderStorage.addProvider (H := SampleRuntime.runtime)
      Samples.new_lab Samples.switch_disk = Return Samples.lab w' /\
    ProviderStorage.getProvider (H := SampleRuntime.runtime) "1700000000000-" w'
    = Return (Some Samples.lab) w'.
Proof.
  destruct (addProvider_then_getProvider (H := SampleRuntime.runtime)
              Samples.new_lab Samples.switch_disk Samples.two_providers
              eq_refl sample_switch_stored) as (w' & Hrun & Hfresh & _).
  - vm_compute. reflexivity.
  - exists w'. split; [exact Hrun|]. apply Hfresh.
    intros q Hq.
    apply elem_of_cons in Hq as [->|Hq]; [discriminate|].
    apply elem_of_cons in Hq as [->|Hq]; [discriminate|].
    inversion Hq.
Defined.

Lemma sample_three_stored :
  stored (H := SampleRuntime.runtime) Samples.three_disk Samples.three_providers.
Proof.
  apply (stored_by_file (H := SampleRuntime.runtime)); vm_compute; reflexivity.
Qed.

Lemma sample_three_first_P2 : first_with_id Samples.three_providers "P2" 2 Samples.P2.
Proof.
  split; [reflexivity|]. split; [reflexivity|].
  intros [|[|j]] q Hj Hq; [| |lia]; inversion Hq; discriminate.
Qed.

Lemma lookups_answer_first_match_witness :
  ProviderStorage.getProvider (H := SampleRuntime.runtime) "P2" Samples.three_disk
  = Return (Some Samples.P2) Samples.three_disk /\
  ProviderStorage.getProviderByName (H := SampleRuntime.runtime) "P2" Samples.three_disk
  = Return (Some Samples.P3) Samples.three_disk.
Proof.
  destruct (lookups_answer_first_match (H := SampleRuntime.runtime)
              Samples.three_disk Samples.three_providers "P2"
              eq_refl sample_three_stored) as (Hid & _ & Hname & _).
  split.
  - exact (Hid 2%nat Samples.P2 sample_three_first_P2).
  - apply (Hname 0%nat Samples.P3); [reflexivity|reflexivity|].
    intros j q Hj. lia.
Defined.

Lemma getCurrentProvider_resolves_or_undefined_witness :
  ProviderStorage.getCurrentProvider (H := SampleRuntime.runtime) Samples.dangling_disk
  = Return None Samples.dangling_disk /\
  ProviderStorage.getCurrentProvider (H := SampleRuntime.runtime) Samples.switch_disk
  = Return (Some Samples.P1) Samples.switch_disk.
Proof.
  split.
  - destruct (getCurrentProvider_resolves_or_undefined (H := SampleRuntime.runtime)
                Samples.dangling_disk Samples.dangling
                eq_refl sample_stored_dangling) as (_ & _ & Hdangling & _).
    apply (Hdangling "gone"); [reflexivity|].
    intros p Hp.
    apply elem_of_cons in Hp as [->|Hp]; [discriminate|].
    apply elem_of_cons in Hp as [->|Hp]; [discriminate|].
    inversion Hp.
  - destruct (getCurrentProvider_resolves_or_undefined (H := SampleRuntime.runtime)
                Samples.switch_disk Samples.two_providers
                eq_refl sample_switch_stored) as (_ & _ & _ & Hfound).
    apply (Hfound "P1" 0%nat Samples.P1); [reflexivity|discriminate|].
    exact sample_first_P1.
Defined.

Lemma sample_has_P1 : exists p, p ∈ providers Samples.two_providers /\ id p = "P1".
Proof. exists Samples.P1. split; [apply elem_of_cons; now left|reflexivity]. Qed.

Lemma sample_has_P2 : exists p, p ∈ providers Samples.two_providers /\ id p = "P2".
Proof.
  exists Samples.P2. split; [|reflexivity].
  apply elem_of_cons. right. apply elem_of_cons. now left.
Qed.

Lemma removeProvider_then_getCurrentProvider_witness :
  (exists w',
     ProviderStorage.removeProvider (H := SampleRuntime.runtime) "P1" Samples.switch_disk
     = Return true w' /\
     ProviderStorage.getCurrentProvider (H := SampleRuntime.runtime) w' = Return None w') /\
  (exists w',
     ProviderStorage.removeProvider (H := SampleRuntime.runtime) "P2" Samples.switch_disk
     = Return true w' /\
     ProviderStorage.getCurrentProvider (H := SampleRuntime.runtime) w'
     = Return (Some Samples.P1) w').
Proof.
  split.
  - destruct (removeProvider_then_getCurrentProvider (H := SampleRuntime.runtime)
                Samples.switch_disk Samples.two_providers "P1"
                eq_refl sample_switch_stored sample_has_P1)
      as (w' & Hrun & Hcur & _).
    + vm_compute. reflexivity.
    + exists w'. split; [exact Hrun|]. now apply Hcur.
  - destruct (removeProvider_then_getCurrentProvider (H := SampleRuntime.runtime)
                Samples.switch_disk Samples.two_providers "P2"
                eq_refl sample_switch_stored sample_has_P2)
      as (w' & Hrun & _ & Hother).
    + vm_compute. reflexivity.
    + exists w'. split; [exact Hrun|].
      apply (Hother "P1" 0%nat Samples.P1);
        [reflexivity|discriminate|discriminate|exact sample_first_P1].
Defined.


Lemma captureCurrentAsProvider_snapshots_witness :
  (exists w',
     ProviderStorage.captureCurrentAsProvider (H := SampleRuntime.runtime)
       "snap" None (Some subscription) Samples.switch_disk
     = Return (Some Samples.snap) w' /\
     files w' !! ProviderStorage.CONFIG_FILE (H := SampleRuntime.runtime)
     = Some (SampleRuntime.stringify
               (ProvidersConfig_to_json
                  {| providers := [Samples.P1; Samples.P2; Samples.snap];
                     currentProviderId := Some "P1" |})) /\
     files w' !! ClaudeSettings.CLAUDE_SETTINGS_PATH (H := SampleRuntime.runtime)
     = files Samples.switch_disk
         !! ClaudeSettings.CLAUDE_SETTINGS_PATH (H := SampleRuntime.runtime)) /\
  ProviderStorage.captureCurrentAsProvider (H := SampleRuntime.runtime)
    "snap" None (Some subscription) Samples.null_live_disk
  = Return None Samples.null_live_disk.
Proof.
  split.
  - destruct (captureCurrentAsProvider_snapshots (H := SampleRuntime.runtime)
                "snap" None (Some subscription)
                Samples.switch_disk Samples.two_providers Samples.edited_live eq_refl)
      as [Hsnap _].
    exact (Hsnap sample_switch_stored sample_live_holds eq_refl).
  - destruct (captureCurrentAsProvider_snapshots (H := SampleRuntime.runtime)
                "snap" None (Some subscription)
                Samples.null_live_disk Samples.two_providers JNull eq_refl)
      as [_ Hnone].
    apply Hnone; [|reflexivity].
    right. exists "null". split; vm_compute; reflexivity.
Defined.

Lemma generateId_equal_iff_witness :
  returned (ProviderStorage.generateId (Samples.drawing 1700000000000 "0.4fzyo82mvyr"))
  = returned (ProviderStorage.generateId (Samples.drawing 1700000000000 "0.4fzyo82m01b")) /\
  returned (ProviderStorage.generateId (Samples.drawing 1700000000000 "0.4fzyo82mvyr"))
  <> returned (ProviderStorage.generateId (Samples.drawing 1700000000001 "0.4fzyo82mvyr")).
Proof.
  split.
  - apply (generateId_equal_iff
             (Samples.drawing 1700000000000 "0.4fzyo82mvyr")
             (Samples.drawing 1700000000000 "0.4fzyo82m01b")).
    + simpl. lia.
    + simpl. lia.
    + split; reflexivity.
  - intros Heq.
    apply (generateId_equal_iff
             (Samples.drawing 1700000000000 "0.4fzyo82mvyr")
             (Samples.drawing 1700000000001 "0.4fzyo82mvyr")) in Heq as [Hnow _].
    + discriminate Hnow.
    + simpl. lia.
    + simpl. lia.
Defined.

Lemma mutations_keep_ids_witness :
  (exists w' c',
     ProviderStorage.removeProvider (H := SampleRuntime.runtime) "P1" Samples.switch_disk
     = Return true w' /\
     persists (H := SampleRuntime.runtime) w' c' /\ ids c' = ["P2"]) /\
  (exists w' c',
     ProviderStorage.switchProvider (H := SampleRuntime.runtime) "P2" Samples.switch_disk
     = Return Samples.P2 w' /\
     persists (H := SampleRuntime.runtime) w' c' /\ ids c' = ["P1"; "P2"]).
Proof.
  destruct (mutations_keep_ids (H := SampleRuntime.runtime)
              Samples.switch_disk Samples.two_providers eq_refl sample_switch_stored)
    as (_ & Hremove & Hswitch & _).
  split.
  - destruct (Hremove "P1" sample_has_P1) as (w' & c' & Hrun & Hp & Hids & _).
    exists w', c'. split; [exact Hrun|]. split; [exact Hp|].
    rewrite Hids. reflexivity.
  - destruct (Hswitch Samples.edited_live "P2" 1%nat Samples.P2
                sample_switch_live_dir (or_intror sample_live_holds) sample_first_P2)
      as (w' & c' & Hrun & Hp & Hids).
    exists w', c'. split; [exact Hrun|]. split; [exact Hp|].
    rewrite Hids. reflexivity.
Defined.

Lemma sample_pointer_valid : pointer_valid Samples.two_providers.
Proof. intros cur [= <-]. apply elem_of_cons. now left. Qed.

Lemma mutations_keep_pointer_valid_witness :
  (exists w' c',
     ProviderStorage.removeProvider (H := SampleRuntime.runtime) "P1" Samples.switch_disk
     = Return true w' /\
     persists (H := SampleRuntime.runtime) w' c' /\ pointer_valid c') /\
  (exists w' c',
     ProviderStorage.switchProvider (H := SampleRuntime.runtime) "P2" Samples.dangling_disk
     = Return Samples.P2 w' /\
     persists (H := SampleRuntime.runtime) w' c' /\
     currentProviderId c' = Some "P2" /\ pointer_valid c').
Proof.
  split.
  - destruct (mutations_keep_pointer_valid (H := SampleRuntime.runtime)
                Samples.switch_disk Samples.two_providers eq_refl sample_switch_stored)
      as (_ & Hremove & _).
    exact (Hremove "P1" sample_pointer_valid sample_has_P1).
  - destruct (mutations_keep_pointer_valid (H := SampleRuntime.runtime)
                Samples.dangling_no_live_disk Samples.dangling eq_refl)
      as (_ & _ & Hswitch & _).
    + apply (stored_by_file (H := SampleRuntime.runtime)); vm_compute; reflexivity.
    + apply (Hswitch JNull "P2" 1%nat Samples.P2).
      * vm_compute. reflexivity.
      * left. split; [split; vm_compute; reflexivity|reflexivity].
      * exact sample_first_dangling_P2.
Defined.

Lemma resolve_provider_prefers_ids_witness :
  Start.resolve_provider Samples.three_providers "P2" = Some "P2" /\
  Start.resolve_provider Samples.three_providers "work" = Some "P1".
Proof.
  split.
  - destruct (resolve_provider_prefers_ids Samples.three_providers "P2") as (Hid & _).
    exact (Hid 2%nat Samples.P2 sample_three_first_P2).
  - destruct (resolve_provider_prefers_ids Samples.three_providers "work")
      as (_ & Hname & _).
    apply (Hname 1%nat Samples.P1); [|reflexivity|reflexivity|].
    + intros p Hp.
      apply elem_of_cons in Hp as [->|Hp]; [discriminate|].
      apply elem_of_cons in Hp as [->|Hp]; [discriminate|].
      apply elem_of_cons in Hp as [->|Hp]; [discriminate|].
      inversion Hp.
    + intros [|j] q Hj Hq; [|lia]. inversion Hq. discriminate.
Defined.


Lemma triple_eta {A B C} (r : A * B * C) : r = (r.1.1, r.1.2, r.2).
Proof. now destruct r as [[? ?] ?]. Qed.

Lemma execute_launches_only_after_switch_witness :
  (launches
     (Start.execute (H := SampleRuntime.runtime) (H0 := SamplePlatform.platform)
        (Some "home") (Samples.user [] [] []) Samples.switch_disk).1.2
   = launches (Samples.user [] [] []) /\
   forall code,
     (Start.execute (H := SampleRuntime.runtime) (H0 := SamplePlatform.platform)
        (Some "home") (Samples.user [] [] []) Samples.switch_disk).1.1
     <> Start.Exited code) \/
  (exists c w0 p P,
     (parsed <- ProviderStorage.loadProviders (H := SampleRuntime.runtime) ;;
      typed as_ProvidersConfig parsed) Samples.switch_disk = Return c w0 /\
     p ∈ providers c /\
     ProviderStorage.switchProvider (H := SampleRuntime.runtime) (id p) w0
     = Return P
         (Start.execute (H := SampleRuntime.runtime) (H0 := SamplePlatform.platform)
            (Some "home") (Samples.user [] [] []) Samples.switch_disk).2 /\
     launches
       (Start.execute (H := SampleRuntime.runtime) (H0 := SamplePlatform.platform)
          (Some "home") (Samples.user [] [] []) Samples.switch_disk).1.2
     = launches (Samples.user [] [] []) ++ [["sh"; "-c"; "exec claude"]] /\
     exists code,
       (Start.execute (H := SampleRuntime.runtime) (H0 := SamplePlatform.platform)
          (Some "home") (Samples.user [] [] []) Samples.switch_disk).1.1
       = Start.Exited code).
Proof.
  apply (execute_launches_only_after_switch
           (H := SampleRuntime.runtime) (H0 := SamplePlatform.platform)
           (Some "home") (Samples.user [] [] []) _ Samples.switch_disk _ _).
  apply triple_eta.
Defined.

Lemma execute_switches_then_launches_witness :
  exists t' w',
    Start.execute (H := SampleRuntime.runtime) (H0 := SamplePlatform.platform)
      (Some "home") (Samples.user [] [] []) Samples.switch_disk
    = (Start.Exited 3, t', w') /\
    unprompted (Samples.user [] [] []) t' /\
    launches t' = [["sh"; "-c"; "exec claude"]] /\
    persists (H := SampleRuntime.runtime) w'
      (switched Samples.two_providers Samples.edited_live "P2") /\
    files w' !! ClaudeSettings.CLAUDE_SETTINGS_PATH (H := SampleRuntime.runtime)
    = Some (SampleRuntime.stringify (settingsConfig Samples.P2)).
Proof.
  apply (execute_switches_then_launches
           (H := SampleRuntime.runtime) (H0 := SamplePlatform.platform)
           (Samples.user [] [] []) Samples.switch_disk Samples.two_providers
           Samples.edited_live "home" "P2" 1 Samples.P2
           eq_refl sample_switch_stored sample_switch_live_dir
           (or_intror sample_live_holds)).
  - discriminate.
  - reflexivity.
  - discriminate.
  - discriminate.
  - discriminate.
  - exact sample_first_P2.
  - discriminate.
Defined.

Lemma sample_broken_stored :
  stored (H := SampleRuntime.runtime) Samples.broken_menu_disk Samples.broken_menu.
Proof.
  apply (stored_by_file (H := SampleRuntime.runtime)); vm_compute; reflexivity.
Qed.

Lemma execute_stops_before_any_prompt_witness :
  Start.execute (H := SampleRuntime.runtime) (H0 := SamplePlatform.platform)
    (Some "nobody") (Samples.user [] [] []) Samples.switch_disk
  = (Start.Finished tt,
     Start.show (Start.ShownError "Provider 'nobody' not found") (Samples.user [] [] []),
     Samples.switch_disk) /\
  Start.execute (H := SampleRuntime.runtime) (H0 := SamplePlatform.platform)
    None (Samples.user ["P1"] [] []) Samples.broken_menu_disk
  = (Start.Raised TypeError, Samples.user ["P1"] [] [], Samples.broken_menu_disk).
Proof.
  split.
  - destruct (execute_stops_before_any_prompt
                (H := SampleRuntime.runtime) (H0 := SamplePlatform.platform)
                (Samples.user [] [] []) Samples.switch_disk Samples.two_providers
                eq_refl sample_switch_stored) as [Hunknown _]; [discriminate|].
    apply (Hunknown "nobody"); [discriminate|].
    intros p Hp.
    apply elem_of_cons in Hp as [->|Hp]; [split; discriminate|].
    apply elem_of_cons in Hp as [->|Hp]; [split; discriminate|].
    inversion Hp.
  - destruct (execute_stops_before_any_prompt
                (H := SampleRuntime.runtime) (H0 := SamplePlatform.platform)
                (Samples.user ["P1"] [] []) Samples.broken_menu_disk Samples.broken_menu
                eq_refl sample_broken_stored) as [_ Hmenu]; [discriminate|].
    apply (Hmenu None); [reflexivity|].
    exists Samples.P4. split.
    + apply elem_of_cons. right. apply elem_of_cons. now left.
    + right. exists (JStr "localhost"). repeat split.
Defined.

Lemma executeRemove_removes_on_confirmation_witness :
  (exists t',
     Start.executeRemove (H := SampleRuntime.runtime)
       (Samples.user ["P1"] [] [false]) Samples.switch_disk
     = (Start.Finished tt, t', Samples.switch_disk) /\
     last (Start.screen t') = Some (Start.ShownOutput "Cancelled")) /\
  (exists t' w',
     Start.executeRemove (H := SampleRuntime.runtime)
       (Samples.user ["P1"] [] [true]) Samples.switch_disk
     = (Start.Finished tt, t', w') /\
     persists (H := SampleRuntime.runtime) w' (removed Samples.two_providers "P1") /\
     Start.ShownConfirm "Remove provider 'work'?" false ∈ Start.screen t' /\
     last (Start.screen t') = Some (Start.ShownOutput "Provider 'work' removed")).
Proof.
  split.
  - destruct (executeRemove_removes_on_confirmation (H := SampleRuntime.runtime)
                (Samples.user ["P1"] [] [false]) Samples.switch_disk Samples.two_providers
                eq_refl sample_switch_stored) as [Hdeclined _]; [discriminate|].
    now apply Hdeclined.
  - destruct (executeRemove_removes_on_confirmation (H := SampleRuntime.runtime)
                (Samples.user ["P1"] [] [true]) Samples.switch_disk Samples.two_providers
                eq_refl sample_switch_stored) as (_ & Hconfirmed & _); [discriminate|].
    apply Hconfirmed; [reflexivity|exact sample_has_P1].
Defined.



